(* ===== verification/_CoqProject ===== *)
-Q . S2P
Prelude.v
GoStrings.v
SqlSyntax.v
SqlEngine.v
EngineFacts.v
Database.v
NetUrl.v
Sqlite.v
Demo.v
Statements.v
Transactions.v
VersionTable.v
Connection.v
Locking.v
Recovery.v
Scripts.v
Orchestrator.v
