(* ===== verification/Prelude.v ===== *)
(** * A verification development of the SQLite driver of migrate

    The program is [src/database/sqlite/sqlite.go]: the [sqlite3] driver
    of the schema-migration tool migrate.  A driver instance ([Sqlite]:
    a [*sql.DB] handle, the database path, the name of the bookkeeping
    table, a [locked] flag and an [int64] savepoint counter [txid]) serves
    the orchestrator through [database.Driver]: [Open] parses the locator
    with [net/url], opens the file and makes sure the bookkeeping table
    exists ([ensureVersionTable]); [Lock] sets the flag, switches the
    connection to exclusive locking mode and opens [BEGIN EXCLUSIVE];
    [Unlock] commits; [Run] executes a migration script; [SetVersion]
    replaces the single [(version, dirty)] row inside [transactionally],
    which wraps its body in [SAVEPOINT txn_n] / [RELEASE] and rolls back to
    the savepoint on failure; [Version] reads the row; [Drop] removes the
    file; [Close] closes the handle.  Every statement goes through [exec],
    which substitutes the table name for [${MIGRATIONS_TABLE}].

    ** Files

    - [Prelude] (this file): Go results, the state-and-error monad [GoM]
      of pointer-receiver methods with its [let*] notation, [int64]
      wrap-around ([wrap64], [add64]), string lemmas, hint databases.
    - [GoStrings]: [strings.Count] and [strings.Replace], [%d] printing
      ([FormatInt]) and its inverse, used by [exec] and [transactionally];
      the reference scan [replace_all] that [Replace] with a negative
      count computes, and the fuel lemmas of [Count] and [digits].
    - [SqlSyntax]: the SQL the driver speaks, as go-sqlite3 and SQLite see
      it: a lexer, the split of a script into statements, a parser to the
      statements and queries the driver and the tests use, and lexing
      lemmas for names pasted into templates.
    - [SqlEngine]: the database behind [*sql.DB]: a file system mapping
      paths to catalogs, a connection with committed contents, working
      copy, transaction mode (none, [BEGIN], or opened by a [SAVEPOINT])
      and savepoint stack, the statements' semantics, go-sqlite3's
      statement-by-statement [Exec] loop, [Ping], [QueryRow], [Close],
      [Scan] conversions and [os.Remove].  [EngineFacts]: how each
      statement the driver issues transforms a connection, the reference
      [run_script] for the [Exec] loop, and the Section [StmtInvariant]
      that lifts an invariant of statements to [Exec] and [QueryRow].
    - [Database]: the [database] package (spec-modelled): errors,
      [NilVersion], the [Driver] record, and the [VersionStore] class, the
      contract a version store promises the orchestrator.
    - [NetUrl]: [url.Parse] and [URL.Query] as [Open] uses them, and
      the values of a key in the order written ([query_values]).
    - [Sqlite]: the driver, one definition per Go function, with the names
      of the source; the state [state] pairs the [Sqlite] record with the
      file system.
    - [Demo]: concrete drivers computed by running [Open] and
      [SetVersion], on which the witnesses run.
    - [Statements]: for every table name that is one SQL word and every
      counter, what each driver statement parses to, [exec] of one
      statement reduced to the engine, and [exec] against its reference
      [exec_ref].
    - [Transactions]: [transactionally] for any body that writes only the
      working copy: commit on success, rollback to the state after the
      SAVEPOINT on failure.
    - [VersionTable]: the invariant [wf] (open handle, word table name,
      at most one well-formed row in every contents the connection keeps,
      connection invariant, counter range), the abstraction [abs], the
      exact effect of [SetVersion], and the version-store theorems.
    - [Connection]: [ensureVersionTable], [Open] and [Drop]: [Open]
      establishes [wf] and reads the version held in the file; the
      locator with an empty path; the unparsable CREATE TABLE.
    - [Locking]: [Lock] and [Unlock], the durability of a locked session,
      and a client's arbitrary sequence of driver calls ([call],
      [run_calls]) through which the flag stays set.
    - [Recovery]: the failure paths.
    - [Scripts]: migration scripts whose statements are data statements
      that do not write the bookkeeping table ([user_script]); [Run] of
      such a script inside a transaction only replaces the working copy.
    - [Orchestrator]: the orchestrator of the specification's control
      flow (section 2), modelled from the specification since it is not
      code of this repository: [Up] locks, loops over the migrations
      ([run_migrations]: read the version, stop on a dirty one with
      [ErrDirty], write it dirty, run the script, write it clean) and
      releases the lock keeping the first error ([unlock_after]).

    ** Theorems

    - Version table (C1-C3): [SetVersion] then [Version] gives back the
      value written; the driver is a [VersionStore] (refinement of the
      orchestrator's contract); at most one row, forever.
    - Savepoints (C4): a failing body is rolled back, but its savepoint
      and the transaction it opened stay.
    - Lock (C5-C7, C11, C17, C19): nothing reaches the file between
      [Lock] and [Unlock], after which the last version is durable, and
      [Close] without [Unlock] discards the session; [Unlock] never
      clears the flag, and after a [Lock] no sequence of calls lets a
      second [Lock] succeed; a failed [Lock] leaves the flag set; a script
      that commits ends the lock's transaction and makes [Unlock] fail.
    - Failure paths (C8-C10, C18, C21): a failed [SetVersion] in
      autocommit mode leaves a transaction open that swallows every later
      write; [Run] is not atomic; after [2^63 - 1] savepoints the counter
      wraps and [SetVersion] fails, exactly [-1 - txid] times, then
      succeeds again; on a closed handle [SetVersion] fails and changes
      nothing.
    - Connection (C12-C16, C22, C26): [Open] establishes the invariant;
      [Drop] then [Open] starts from [NilVersion]; [Version] on a missing
      table; a locator with an empty path opens a temporary database; a
      table name whose CREATE TABLE does not parse breaks [Open];
      [ensureVersionTable] is idempotent; the table option is the first
      value written in the locator.
    - Library (C20): [exec] equals its reference with a one-pass
      substitution (equivalence of Go's count-then-replace algorithm with
      the scan), so every placeholder of every text is replaced, the
      caller's migration scripts included.
    - Orchestrator and driver composed (C23-C25): a run ends with the
      last version clean in the file or with the failing migration's
      version dirty in the file, and nothing reaches the file before the
      release (C23); a dirty version blocks the run and leaves the file as
      it was (C24); since [Unlock] keeps the flag, a driver serves a
      single run (C25).

    ** Bounds

    [txid] is an [int64]: [add64] wraps as [atomic.AddInt64] does.  The
    theorems about successful calls assume the counter is below
    [int64_max] (the [budget] of [SetVersion] calls), which is exactly
    the range in which the savepoint names are valid ([-1] included, the
    last value of a wrapped counter); C10 and C21 show what happens
    beyond it: the retries of C21 are counted by [retry], a [Nat.iter]
    on the number of calls.  The lexer, the parser and the engine recurse
    structurally on the text and on the statement list.  Two library
    models use fuel, chosen to be always enough: [strings.Count] runs
    [length s + 1] rounds, and each round of a non-empty pattern consumes
    at least one byte; decimal formatting runs [N.size n] rounds, the
    number of bits of [n], which is at least its number of decimal digits
    ([ParseInt_FormatInt] proves the result right for every [n]);
    [count_go_fuel] and [digits_fuel] prove that more fuel changes
    nothing, so the fuel never cuts a computation short.

    ** Not modelled

    [init] (registration of the driver under a name in a global map of
    the [database] package; [sqlite_driver] is the driver as the
    [database.Driver] it registers); concurrency between goroutines or
    processes: the engine is modelled as one connection, so
    [PRAGMA locking_mode] only records the mode, and the cross-process
    exclusion of the specification's section 9 is not stated.  Stating it
    faithfully would need SQLite's lock levels (shared, reserved, pending,
    exclusive) per connection, a lock table shared by the connections to
    a file, the busy error of a statement that cannot take its lock, and
    the retention of locks by a connection in exclusive locking mode
    until it closes; every statement's effect, and so every lemma of
    [EngineFacts] and the theorems built on them, would change.  Also not
    modelled: the pool of connections behind [*sql.DB] (the driver's
    sequential calls reuse one connection); the user-info and IPv6 forms
    of URL authorities; SQL beyond the statements the driver, its tests
    and the scripts of the theorems issue (other statements are syntax
    errors in the model); case-insensitive table names; and the [int]
    width of [Scan] destinations ([int] is taken as [int64]). *)

From Stdlib Require Import ZArith Lia.
From stdpp Require Import base strings list gmap.

(** ** Go results

    A Go function that returns [(T, error)] is modelled as a value of
    [result E T]: [Ok v] is the pair [(v, nil)], [Err e] the pair with a
    non-nil error (the accompanying zero value, which callers never read,
    is dropped). *)
Inductive result (E A : Type) : Type :=
| Ok (a : A)
| Err (e : E).
Arguments Ok {E A} a.
Arguments Err {E A} e.

#[export] Instance result_eq_dec {E A} `{EqDecision E, EqDecision A} :
  EqDecision (result E A).
Proof. solve_decision. Defined.

Definition is_ok {E A} (r : result E A) : bool :=
  match r with Ok _ => true | Err _ => false end.

(** ** The state-and-error monad of Go methods

    A method on a pointer receiver mutates the receiver and the outside
    world and returns an error: [GoM S E A] threads the state [S] and
    returns a [result].  The state is returned on both branches, because
    a Go function that fails has still performed the side effects that
    preceded the failure. *)
Definition GoM (S E A : Type) : Type := S -> result E A * S.

Definition ret {S E A} (a : A) : GoM S E A := fun s => (Ok a, s).
Definition throw {S E A} (e : E) : GoM S E A := fun s => (Err e, s).
Definition bind {S E A B} (m : GoM S E A) (k : A -> GoM S E B) : GoM S E B :=
  fun s => match m s with
           | (Ok a, s') => k a s'
           | (Err e, s') => (Err e, s')
           end.

Declare Scope go_scope.
Delimit Scope go_scope with go.
(** [let* x := m in k] is Go's [x, err := m; if err != nil { return err }; k]. *)
Notation "'let*' x ':=' m 'in' k" := (bind m (fun x => k))
  (at level 10, x name, m at level 100, k at level 200) : go_scope.
Open Scope go_scope.

(** A state predicate preserved by a computation, on every outcome. *)
Definition preserves {S E A} (P : S -> Prop) (m : GoM S E A) : Prop :=
  forall s, P s -> P (snd (m s)).

(** ** Machine integers

    Go's [int] and [int64] are 64-bit two's complement integers; the
    counter of savepoint names is advanced by [atomic.AddInt64], which
    wraps around.  Integers are kept as [Z] with the wrap-around written
    out. *)
Local Open Scope Z_scope.
Definition int64_min : Z := - 2 ^ 63.
Definition int64_max : Z := 2 ^ 63 - 1.
Definition in_int64 (z : Z) : Prop := int64_min <= z <= int64_max.

#[export] Instance in_int64_dec z : Decision (in_int64 z).
Proof. unfold in_int64. apply _. Defined.

Definition wrap64 (z : Z) : Z := (z + 2 ^ 63) mod 2 ^ 64 - 2 ^ 63.

(** [atomic.AddInt64(&x, d)]: the new value, wrapped to 64 bits. *)
Definition add64 (x d : Z) : Z := wrap64 (x + d).

(** ** Lemmas on the monad *)

Lemma bind_ok {S E A B} (m : GoM S E A) (k : A -> GoM S E B) s a s' :
  m s = (Ok a, s') -> bind m k s = k a s'.
Proof. unfold bind. intros ->. reflexivity. Qed.

Lemma bind_err {S E A B} (m : GoM S E A) (k : A -> GoM S E B) s e s' :
  m s = (Err e, s') -> bind m k s = (Err e, s').
Proof. unfold bind. intros ->. reflexivity. Qed.

Lemma bind_ret {S E A B} (a : A) (k : A -> GoM S E B) s :
  bind (ret a) k s = k a s.
Proof. reflexivity. Qed.

Lemma preserves_bind {S E A B} (P : S -> Prop) (m : GoM S E A) (k : A -> GoM S E B) :
  preserves P m -> (forall a, preserves P (k a)) -> preserves P (bind m k).
Proof.
  intros Hm Hk s Hs. unfold bind.
  specialize (Hm s Hs). destruct (m s) as [[a|e] s']; simpl in *; auto.
  apply Hk. exact Hm.
Qed.

Lemma preserves_ret {S E A} (P : S -> Prop) (a : A) : preserves (E:=E) P (ret a).
Proof. intros s Hs. exact Hs. Qed.

Lemma preserves_throw {S E A} (P : S -> Prop) (e : E) : preserves (A:=A) P (throw e).
Proof. intros s Hs. exact Hs. Qed.

(** ** Lemmas on machine integers *)

Lemma wrap64_in_range z : in_int64 z -> wrap64 z = z.
Proof.
  unfold in_int64, int64_min, int64_max, wrap64. intros H.
  rewrite Z.mod_small; lia.
Qed.

Lemma wrap64_bounds z : in_int64 (wrap64 z).
Proof.
  unfold in_int64, int64_min, int64_max, wrap64.
  pose proof (Z.mod_pos_bound (z + 2 ^ 63) (2 ^ 64)). lia.
Qed.

Lemma add64_small x : int64_min <= x < int64_max -> add64 x 1 = x + 1.
Proof.
  unfold int64_min, int64_max. intros H. unfold add64.
  apply wrap64_in_range. unfold in_int64, int64_min, int64_max. lia.
Qed.

Lemma add64_overflow : add64 int64_max 1 = int64_min.
Proof. reflexivity. Qed.

(** ** Strings *)

Lemma string_app_nil_r (s : string) : s +:+ "" = s.
Proof. induction s as [|c s IH]; [done|]. exact (f_equal (String c) IH). Qed.

Lemma string_app_assoc (s1 s2 s3 : string) : (s1 +:+ s2) +:+ s3 = s1 +:+ (s2 +:+ s3).
Proof. induction s1 as [|c s IH]; [done|]. exact (f_equal (String c) IH). Qed.

Lemma list_ascii_of_string_app (s1 s2 : string) :
  String.list_ascii_of_string (s1 +:+ s2) =
  String.list_ascii_of_string s1 ++ String.list_ascii_of_string s2.
Proof. induction s1 as [|c s IH]; [done|]. exact (f_equal (cons c) IH). Qed.

(** ** Automation shared by the development *)
Create HintDb migrate discriminated.
Create Rewrite HintDb migrate_rw.
#[export] Hint Resolve wrap64_bounds preserves_ret preserves_throw : migrate.
#[export] Hint Rewrite string_app_nil_r string_app_assoc list_ascii_of_string_app : migrate_rw.

(** [go_run] pushes a computation through the binds whose first step is
    known: it rewrites with a hypothesis [m s = (r, s')]. *)
Ltac go_run :=
  repeat match goal with
  | H : ?m ?s = (Ok _, _) |- context [bind ?m _ ?s] => rewrite (bind_ok _ _ _ _ _ H)
  | H : ?m ?s = (Err _, _) |- context [bind ?m _ ?s] => rewrite (bind_err _ _ _ _ _ H)
  | |- context [bind (ret _) _ _] => rewrite bind_ret
  end.
