(* ===== verification/GoStrings.v ===== *)
(** * The Go string functions the driver calls

    [strings.Replace] (used by [exec] to substitute the bookkeeping table
    name for the placeholder [${MIGRATIONS_TABLE}]) and the decimal
    formatting of [fmt.Sprintf("txn_%d", n)] (used by [transactionally] to
    name savepoints).  These are Go standard library functions: they are
    modelled from their documented behaviour, with Go strings as Rocq
    strings of bytes ([ascii]), and the lemmas the driver's proofs need are
    proved here: replacement on a string without the pattern is the
    identity, and decimal formatting round-trips through its parser, so
    distinct counters give distinct savepoint names. *)

From Stdlib Require Import ZArith Lia Ascii.
From stdpp Require Import base strings list.
From S2P Require Import Prelude.

(** ** [strings.Count] and [strings.Replace] *)

Section Replace.
Local Abbreviation slen := String.length.

  (** [s[i:]] *)
Definition suffix_from (i : nat) (s : string) : string :=
    String.substring i (slen s - i) s.

  (** [strings.Count(s, sub)] for a non-empty [sub]: the number of
      non-overlapping occurrences, found left to right by [Index]. *)
Fixpoint count_go (fuel : nat) (sub s : string) : nat :=
    match fuel with
    | O => 0
    | S f =>
        match String.index 0 sub s with
        | None => 0
        | Some i => S (count_go f sub (suffix_from (i + slen sub) s))
        end
    end.

  (** For the empty [sub] Go counts the runes of [s] plus one; bytes stand
      for runes here. *)
Definition Count (s sub : string) : nat :=
    if slen sub =? 0 then S (slen s) else count_go (S (slen s)) sub s.

  (** The loop of [strings.Replace]: [n] replacements from offset [start];
      [first] is [i == 0]. *)
Fixpoint replace_loop (s old new : string) (first : bool) (n start : nat) : string :=
    match n with
    | O => suffix_from start s
    | S n' =>
        let j := if slen old =? 0
                 then (if first then start else start + 1)
                 else match String.index 0 old (suffix_from start s) with
                      | Some d => start + d
                      | None => start
                      end in
        String.substring start (j - start) s +:+ new +:+
        replace_loop s old new false n' (j + slen old)
    end.

  (** [strings.Replace(s, old, new, n)]; a negative [n] replaces every
      occurrence. *)
Definition Replace (s old new : string) (n : Z) : string :=
    if String.eqb old new || (n =? 0)%Z then s
    else
      let m := Count s old in
      if m =? 0 then s
      else
        let n' := if (n <? 0)%Z || (Z.of_nat m <? n)%Z then m else Z.to_nat n in
        replace_loop s old new true n' 0.
End Replace.

(** The reference for [strings.Replace(s, old, new, -1)] with a non-empty
    [old]: a left-to-right scan that replaces an occurrence of [old]
    starting at the current byte and skips the rest of it, so that
    occurrences are leftmost and do not overlap.  Structural on [s]; [skip]
    counts the bytes of a replaced occurrence still to drop. *)
Fixpoint replace_scan (old new : string) (skip : nat) (s : string) : string :=
  match s with
  | EmptyString => EmptyString
  | String c s' =>
      match skip with
      | S k => replace_scan old new k s'
      | O => if String.prefix old s
             then new +:+ replace_scan old new (String.length old - 1) s'
             else String c (replace_scan old new 0 s')
      end
  end.

Definition replace_all (old new s : string) : string := replace_scan old new 0 s.

(** ** Decimal formatting of integers, [fmt]'s [%d] *)

Definition digit_char (d : N) : ascii := ascii_of_N (48 + d).

(** Decimal digits of [n], most significant first; [fuel] bounds the
    recursion and is enough when [n < 2 ^ fuel]. *)
Fixpoint digits (fuel : nat) (n : N) : list ascii :=
  match fuel with
  | O => [digit_char n]
  | S f => if (n <? 10)%N then [digit_char n]
           else digits f (n / 10)%N ++ [digit_char (n mod 10)%N]
  end.

Definition FormatN (n : N) : string :=
  String.string_of_list_ascii (digits (N.to_nat (N.size n)) n).

(** [strconv.FormatInt(z, 10)], which is what [%d] prints for an [int64]. *)
Definition FormatInt (z : Z) : string :=
  if (z <? 0)%Z then String "-" (FormatN (Z.abs_N z)) else FormatN (Z.to_N z).

(** The inverse: a decimal parser on digit strings. *)
Definition digit_value (c : ascii) : option N :=
  let k := N_of_ascii c in
  if (48 <=? k)%N && (k <? 58)%N then Some (k - 48)%N else None.

Fixpoint parse_digits (acc : N) (l : list ascii) : option N :=
  match l with
  | [] => Some acc
  | c :: l' => match digit_value c with
               | Some d => parse_digits (acc * 10 + d)%N l'
               | None => None
               end
  end.

Definition ParseN (s : string) : option N :=
  match String.list_ascii_of_string s with
  | [] => None
  | l => parse_digits 0 l
  end.

Definition ParseInt (s : string) : option Z :=
  match s with
  | String c s' => if Ascii.eqb c "-" then Z.opp ∘ Z.of_N <$> ParseN s'
                   else Z.of_N <$> ParseN s
  | EmptyString => None
  end.

(** ** Lemmas *)

Lemma digit_value_char d : (d < 10)%N -> digit_value (digit_char d) = Some d.
Proof.
  intros Hd. unfold digit_value, digit_char.
  rewrite N_ascii_embedding by lia.
  replace ((48 <=? 48 + d)%N && (48 + d <? 58)%N) with true
    by (symmetry; apply andb_true_iff; split; [apply N.leb_le | apply N.ltb_lt]; lia).
  f_equal. lia.
Qed.

Lemma parse_digits_app acc l1 l2 :
  parse_digits acc (l1 ++ l2) =
  match parse_digits acc l1 with Some a => parse_digits a l2 | None => None end.
Proof.
  revert acc. induction l1 as [|c l1 IH]; intros acc; simpl; [done|].
  destruct (digit_value c); auto.
Qed.

Lemma digits_nonempty f n : digits f n <> [].
Proof.
  destruct f; simpl; [done|]. destruct (n <? 10)%N; [done|].
  intros H. apply app_eq_nil in H. destruct H as [_ H]. discriminate.
Qed.

Lemma parse_digits_digits f n :
  (n < 2 ^ N.of_nat f)%N -> parse_digits 0 (digits f n) = Some n.
Proof.
  revert n. induction f as [|f IH]; intros n Hn; simpl.
  - assert (n = 0)%N by lia. subst. reflexivity.
  - destruct (N.ltb_spec n 10).
    + simpl. rewrite digit_value_char by lia. reflexivity.
    + rewrite parse_digits_app, IH.
      * simpl. rewrite digit_value_char by (apply N.mod_lt; lia).
        f_equal. pose proof (N.div_mod n 10). lia.
      * rewrite Nat2N.inj_succ, N.pow_succ_r' in Hn.
        apply N.Div0.div_lt_upper_bound; lia.
Qed.

(** Round trip: the parser reads back what [FormatN] prints. *)
Lemma ParseN_FormatN n : ParseN (FormatN n) = Some n.
Proof.
  unfold ParseN, FormatN. rewrite String.list_ascii_of_string_of_list_ascii.
  pose proof (digits_nonempty (N.to_nat (N.size n)) n).
  destruct (digits _ n) eqn:E; [done|]. rewrite <- E.
  apply parse_digits_digits. rewrite N2Nat.id. apply N.size_gt.
Qed.

Lemma FormatN_inj n m : FormatN n = FormatN m -> n = m.
Proof.
  intros H. apply (f_equal ParseN) in H. rewrite !ParseN_FormatN in H. congruence.
Qed.

Lemma FormatN_not_minus n s : FormatN n <> String "-" s.
Proof.
  intros H. pose proof (ParseN_FormatN n) as Hp. rewrite H in Hp.
  unfold ParseN in Hp. simpl in Hp. discriminate.
Qed.

(** Round trip of [%d] on every integer. *)
Lemma ParseInt_FormatInt z : ParseInt (FormatInt z) = Some z.
Proof.
  unfold FormatInt. destruct (Z.ltb_spec z 0).
  - simpl. rewrite ParseN_FormatN. simpl. f_equal. lia.
  - destruct (FormatN (Z.to_N z)) as [|c s] eqn:E.
    + pose proof (ParseN_FormatN (Z.to_N z)) as Hp. rewrite E in Hp. discriminate.
    + unfold ParseInt. rewrite <- E.
      destruct (Ascii.eqb_spec c "-"); [subst; by apply FormatN_not_minus in E|].
      rewrite ParseN_FormatN. simpl. f_equal. lia.
Qed.

Lemma FormatInt_inj z1 z2 : FormatInt z1 = FormatInt z2 -> z1 = z2.
Proof.
  intros H. apply (f_equal ParseInt) in H. rewrite !ParseInt_FormatInt in H. congruence.
Qed.

(** ** Replacement on a string that cannot contain the pattern *)

Lemma prefix_in c s1 s2 :
  String.prefix s1 s2 = true ->
  In c (String.list_ascii_of_string s1) -> In c (String.list_ascii_of_string s2).
Proof.
  revert s2. induction s1 as [|a s1 IH]; intros s2 Hp Hc; [done|].
  destruct s2 as [|b s2]; [discriminate|].
  simpl in Hp. destruct (ascii_dec a b) as [->|]; [|discriminate].
  destruct Hc as [<-|Hc]; [by left|right]. by apply (IH s2).
Qed.

(** [strings.Index] finds nothing when a character of the pattern does
    not occur in the string. *)
Lemma index_none c old s :
  In c (String.list_ascii_of_string old) -> ~ In c (String.list_ascii_of_string s) ->
  String.index 0 old s = None.
Proof.
  intros Hold. induction s as [|b s IH]; intros Hs.
  - destruct old; [destruct Hold|reflexivity].
  - change (String.index 0 old (String b s)) with
      (if String.prefix old (String b s) then Some 0
       else match String.index 0 old s with Some n => Some (S n) | None => None end).
    destruct (String.prefix old (String b s)) eqn:Hp.
    + exfalso. apply Hs. by apply (prefix_in c old).
    + rewrite IH; [done|]. intros H. apply Hs. by right.
Qed.

Lemma Replace_absent s old new n :
  (exists c, In c (String.list_ascii_of_string old) /\
             ~ In c (String.list_ascii_of_string s)) ->
  Replace s old new n = s.
Proof.
  intros (c & Hold & Hs). unfold Replace.
  destruct (String.eqb old new || (n =? 0)%Z); [done|].
  unfold Count. destruct (String.length old =? 0) eqn:Hl.
  - destruct old; [destruct Hold|discriminate].
  - simpl. by rewrite (index_none c).
Qed.

(** ** The reference scan for [strings.Replace]

    Byte strings are compared through their lists of bytes
    ([chars]); [Replace] with a negative count is the scan
    [replace_all], and [strings.Count] does not depend on its fuel
    beyond the length of the string. *)

Local Abbreviation chars := String.list_ascii_of_string.

Lemma chars_inj s1 s2 : chars s1 = chars s2 -> s1 = s2.
Proof.
  intros H. rewrite <- (String.string_of_list_ascii_of_string s1), H.
  apply String.string_of_list_ascii_of_string.
Qed.

Lemma length_chars s : length (chars s) = String.length s.
Proof. induction s as [|c s IH]; simpl; lia. Qed.

Lemma substring_chars n m s : chars (String.substring n m s) = take m (drop n (chars s)).
Proof.
  revert n m. induction s as [|c s IH]; intros [|n] [|m]; simpl; rewrite ?IH, ?drop_0;
    try done; by destruct m.
Qed.

Lemma suffix_from_chars i s : chars (suffix_from i s) = drop i (chars s).
Proof.
  unfold suffix_from. rewrite substring_chars, take_ge; [done|].
  rewrite length_drop, length_chars. lia.
Qed.

Lemma suffix_from_0 s : suffix_from 0 s = s.
Proof. apply chars_inj. by rewrite suffix_from_chars, drop_0. Qed.

Lemma suffix_from_cons k c s : suffix_from (S k) (String c s) = suffix_from k s.
Proof. apply chars_inj. by rewrite !suffix_from_chars. Qed.

Lemma suffix_from_suffix_from a b s : suffix_from a (suffix_from b s) = suffix_from (b + a) s.
Proof. apply chars_inj. by rewrite !suffix_from_chars, drop_drop. Qed.

Lemma substring_suffix_from start d s :
  String.substring start d s = String.substring 0 d (suffix_from start s).
Proof. apply chars_inj. by rewrite !substring_chars, suffix_from_chars, drop_0. Qed.

Lemma length_suffix_from i s : String.length (suffix_from i s) = String.length s - i.
Proof. by rewrite <- length_chars, suffix_from_chars, length_drop, length_chars. Qed.

Lemma suffix_from_nil k : suffix_from k "" = "".
Proof. by destruct k. Qed.

Lemma index_cons old c s :
  String.index 0 old (String c s) =
  if String.prefix old (String c s) then Some 0
  else match String.index 0 old s with Some n => Some (S n) | None => None end.
Proof. reflexivity. Qed.

Lemma index_nil old : old <> "" -> String.index 0 old "" = None.
Proof. by destruct old. Qed.

Section Scan.
Context (old new : string) (Hold : old <> "").

Lemma replace_scan_skip k s : replace_scan old new k s = replace_all old new (suffix_from k s).
Proof.
  revert k. induction s as [|c s IH]; intros [|k].
  - done.
  - by rewrite suffix_from_nil.
  - by rewrite suffix_from_0.
  - simpl. by rewrite IH, suffix_from_cons.
Qed.

Lemma replace_all_no_index s : String.index 0 old s = None -> replace_all old new s = s.
Proof.
  induction s as [|c s IH]; [done|]. rewrite index_cons. unfold replace_all. cbn [replace_scan].
  destruct (String.prefix old (String c s)); [discriminate|].
  destruct (String.index 0 old s) eqn:Hi; [discriminate|]. intros _.
  unfold replace_all in IH. by rewrite IH.
Qed.

Lemma length_old_pos : String.length old = S (String.length old - 1).
Proof. destruct old; [done|]. simpl. lia. Qed.

Lemma replace_all_index s i :
  String.index 0 old s = Some i ->
  replace_all old new s =
  String.substring 0 i s +:+ new +:+ replace_all old new (suffix_from (i + String.length old) s).
Proof.
  revert i. induction s as [|c s IH]; intros i; [by rewrite index_nil|].
  rewrite index_cons. unfold replace_all at 1. cbn [replace_scan].
  destruct (String.prefix old (String c s)).
  - intros [= <-]. rewrite replace_scan_skip. simpl.
    rewrite length_old_pos at 2. by rewrite suffix_from_cons.
  - destruct (String.index 0 old s) as [i'|] eqn:Hi; [|discriminate]. intros [= <-].
    unfold replace_all in IH. rewrite (IH i' eq_refl). simpl. by rewrite suffix_from_cons.
Qed.

Lemma index_split s i :
  String.index 0 old s = Some i ->
  s = String.substring 0 i s +:+ old +:+ suffix_from (i + String.length old) s.
Proof.
  revert i. induction s as [|c s IH]; intros i; [by rewrite index_nil|].
  rewrite index_cons. destruct (String.prefix old (String c s)) eqn:Hp.
  - intros [= <-]. apply String.prefix_correct in Hp.
    assert (Ho : chars old = take (String.length old) (chars (String c s))).
    { rewrite <- Hp at 1. by rewrite substring_chars, drop_0. }
    apply chars_inj. rewrite !list_ascii_of_string_app, suffix_from_chars, Ho.
    simpl. by rewrite take_drop.
  - destruct (String.index 0 old s) as [i'|] eqn:Hi; [|discriminate]. intros [= <-].
    simpl. rewrite suffix_from_cons. exact (f_equal (String c) (IH i' eq_refl)).
Qed.
End Scan.

Section Count.
Context (old : string) (Hold : old <> "").

Lemma index_some_nonempty t i : String.index 0 old t = Some i -> 0 < String.length t.
Proof. destruct t; [by rewrite index_nil|]. simpl. lia. Qed.

Lemma length_after_index t i :
  String.index 0 old t = Some i ->
  String.length (suffix_from (i + String.length old) t) < String.length t.
Proof.
  intros Hi. pose proof (index_some_nonempty t i Hi). rewrite length_suffix_from.
  pose proof length_old_pos old Hold. lia.
Qed.

(** Termination of [strings.Count]: any fuel above the length of the
    string gives the same count. *)
Lemma count_go_fuel f1 f2 t :
  String.length t < f1 -> String.length t < f2 -> count_go f1 old t = count_go f2 old t.
Proof.
  revert f2 t. induction f1 as [|f1 IH]; intros [|f2] t H1 H2; try lia. simpl.
  destruct (String.index 0 old t) as [i|] eqn:Hi; [|done].
  pose proof (length_after_index t i Hi). f_equal. apply IH; lia.
Qed.

Lemma count_go_step f t :
  count_go (S f) old t =
  match String.index 0 old t with
  | None => 0
  | Some i => S (count_go f old (suffix_from (i + String.length old) t))
  end.
Proof. reflexivity. Qed.

Lemma count_go_index t i :
  String.index 0 old t = Some i ->
  count_go (S (String.length t)) old t =
  S (count_go (S (String.length (suffix_from (i + String.length old) t))) old
              (suffix_from (i + String.length old) t)).
Proof.
  intros Hi. rewrite (count_go_step (String.length t)), Hi. f_equal.
  pose proof (length_after_index t i Hi).
  apply count_go_fuel; lia.
Qed.
End Count.

Lemma replace_loop_scan s old new b n start :
  old <> "" ->
  count_go (S (String.length (suffix_from start s))) old (suffix_from start s) = n ->
  replace_loop s old new b n start = replace_all old new (suffix_from start s).
Proof.
  intros Hold. revert b start. induction n as [|n IH]; intros b start Hc.
  - simpl. symmetry. apply replace_all_no_index.
    simpl in Hc. by destruct (String.index 0 old (suffix_from start s)).
  - destruct (String.index 0 old (suffix_from start s)) as [d|] eqn:Hi;
      [|simpl in Hc; by rewrite Hi in Hc].
    rewrite (count_go_index old Hold _ d Hi) in Hc. injection Hc as Hc.
    rewrite suffix_from_suffix_from in Hc.
    simpl. destruct (String.length old =? 0) eqn:Hl; [apply Nat.eqb_eq in Hl; by destruct old|].
    rewrite Hi, (replace_all_index old new Hold _ d Hi), suffix_from_suffix_from.
    rewrite (substring_suffix_from start), Nat.add_sub', Nat.add_assoc.
    f_equal. f_equal. apply IH. by rewrite <- Nat.add_assoc.
Qed.

Lemma replace_all_same old s : old <> "" -> replace_all old old s = s.
Proof.
  intros Hold. remember (String.length s) as n eqn:Hn. revert s Hn.
  induction n as [n IH] using lt_wf_ind. intros s ->.
  destruct (String.index 0 old s) as [i|] eqn:Hi; [|by apply replace_all_no_index].
  rewrite (replace_all_index old old Hold s i Hi).
  pose proof (length_after_index old Hold s i Hi) as Hlt.
  rewrite (IH _ Hlt _ eq_refl). symmetry. by apply index_split.
Qed.

(** [strings.Replace] is the reference scan.  For a non-empty
    pattern and a negative count (the [-1] of [exec]), Go's algorithm
    (count the occurrences with [Index], then copy and replace that many
    times) computes exactly the left-to-right scan [replace_all] that
    replaces every leftmost, non-overlapping occurrence; when [old = new]
    both return the string unchanged. *)
Lemma Replace_replace_all s old new n :
  old <> "" -> (n < 0)%Z -> Replace s old new n = replace_all old new s.
Proof.
  intros Hold Hn. unfold Replace.
  destruct (String.eqb old new) eqn:E.
  { apply String.eqb_eq in E as <-. symmetry. by apply replace_all_same. }
  rewrite (proj2 (Z.eqb_neq n 0)) by lia. simpl. unfold Count.
  destruct (String.length old =? 0) eqn:Hl; [apply Nat.eqb_eq in Hl; by destruct old|].
  destruct (count_go (S (String.length s)) old s =? 0) eqn:Hc.
  - apply Nat.eqb_eq in Hc. symmetry. apply replace_all_no_index.
    rewrite count_go_step in Hc. by destruct (String.index 0 old s).
  - rewrite (proj2 (Z.ltb_lt n 0) Hn). simpl.
    rewrite (replace_loop_scan s old new true _ 0 Hold); [by rewrite suffix_from_0|].
    by rewrite suffix_from_0.
Qed.

(** ** Fuel of the decimal formatting *)

Lemma digits_fuel f1 f2 n :
  (n < 10 ^ N.of_nat f1)%N -> (n < 10 ^ N.of_nat f2)%N -> digits f1 n = digits f2 n.
Proof.
  revert f2 n. induction f1 as [|f1 IH]; intros [|f2] n H1 H2; try done.
  - simpl in H1. assert (n = 0%N) as -> by lia. done.
  - simpl in H2. assert (n = 0%N) as -> by lia. done.
  - simpl. destruct (n <? 10)%N eqn:Hn; [done|]. f_equal. apply IH.
    + apply N.div_lt_upper_bound; [lia|]. by rewrite <- N.pow_succ_r', <- Nat2N.inj_succ.
    + apply N.div_lt_upper_bound; [lia|]. by rewrite <- N.pow_succ_r', <- Nat2N.inj_succ.
Qed.

(** [FormatN] runs [digits] with the bit length of [n] as fuel; any fuel
    [f] with [n < 10 ^ f] yields the same digits. *)
Theorem FormatN_fuel n f :
  (n < 10 ^ N.of_nat f)%N -> String.string_of_list_ascii (digits f n) = FormatN n.
Proof.
  intros Hf. unfold FormatN. f_equal. apply digits_fuel; [done|].
  rewrite N2Nat.id. eapply N.lt_le_trans; [apply N.size_gt|].
  apply N.pow_le_mono_l. lia.
Qed.
