(* ===== verification/SqlSyntax.v ===== *)
(** * The SQL text the driver sends to SQLite: lexer and parser

    The driver talks to SQLite through strings: its own statements are
    templates with the table name substituted in, and migration scripts are
    opaque text.  This file models the part of SQLite's front end those
    strings go through (an environment model, not code of the repository):
    a lexer into words, quoted identifiers, string literals and symbols; the
    split of a script into statements at [;]; and a parser for the
    statement forms the driver emits and the common forms of migration
    scripts (CREATE/DROP TABLE, INSERT, DELETE, SELECT, and the transaction
    control statements).  Keywords are case-insensitive as in SQLite.

    Simplifications: doubled quotes inside quoted tokens are not unescaped,
    a semicolon inside a quoted token is kept (as SQLite does), and WHERE
    clauses are only recognised in the catalog query of
    [ensureVersionTable]. *)

From Stdlib Require Import ZArith Lia Ascii.
From stdpp Require Import base strings list.
From S2P Require Import Prelude GoStrings.

Definition dquote : ascii := "034"%char.
Definition squote : ascii := "039"%char.

Inductive token : Type :=
| TWord (w : string)    (** keyword, identifier, number or [$n] parameter *)
| TQuoted (w : string)  (** a double-quoted identifier *)
| TStr (w : string)     (** a single-quoted string literal *)
| TSym (c : ascii)      (** punctuation *)
| TBad.                 (** an unterminated quoted token *)

#[export] Instance token_eq_dec : EqDecision token.
Proof. solve_decision. Defined.

Definition in_range (lo hi : N) (c : ascii) : bool :=
  (lo <=? N_of_ascii c)%N && (N_of_ascii c <=? hi)%N.

(** Letters, digits, [_] and [$]. *)
Definition is_word_char (c : ascii) : bool :=
  in_range 65 90 c || in_range 97 122 c || in_range 48 57 c ||
  Ascii.eqb c "_" || Ascii.eqb c "$".

Definition is_space (c : ascii) : bool :=
  Ascii.eqb c " " || Ascii.eqb c "009"%char || Ascii.eqb c "010"%char ||
  Ascii.eqb c "013"%char.

Inductive lex_mode := LNormal | LDQuote | LSQuote.

(** The word accumulated so far (reversed), emitted before [ts]. *)
Definition emit (acc : list ascii) (ts : list token) : list token :=
  match acc with
  | [] => ts
  | _ => TWord (String.string_of_list_ascii (rev acc)) :: ts
  end.

Fixpoint lex (m : lex_mode) (acc : list ascii) (l : list ascii) : list token :=
  match l with
  | [] => match m with LNormal => emit acc [] | _ => [TBad] end
  | c :: l' =>
      match m with
      | LNormal =>
          if is_word_char c then lex LNormal (c :: acc) l'
          else emit acc
                 (if is_space c then lex LNormal [] l'
                  else if Ascii.eqb c dquote then lex LDQuote [] l'
                  else if Ascii.eqb c squote then lex LSQuote [] l'
                  else TSym c :: lex LNormal [] l')
      | LDQuote =>
          if Ascii.eqb c dquote
          then TQuoted (String.string_of_list_ascii (rev acc)) :: lex LNormal [] l'
          else lex LDQuote (c :: acc) l'
      | LSQuote =>
          if Ascii.eqb c squote
          then TStr (String.string_of_list_ascii (rev acc)) :: lex LNormal [] l'
          else lex LSQuote (c :: acc) l'
      end
  end.

Definition tokenize (s : string) : list token :=
  lex LNormal [] (String.list_ascii_of_string s).

(** Statements of a script, split at top-level [;]; empty ones dropped. *)
Fixpoint split_stmts (cur : list token) (ts : list token) : list (list token) :=
  match ts with
  | [] => match cur with [] => [] | _ => [rev cur] end
  | TSym ";" :: ts' =>
      match cur with
      | [] => split_stmts [] ts'
      | _ => rev cur :: split_stmts [] ts'
      end
  | t :: ts' => split_stmts (t :: cur) ts'
  end.

(** ** Abstract syntax *)

Record coldef := mk_coldef {
  col_name : string;
  col_type : string;
  col_notnull : bool;
  col_pk : bool
}.

#[export] Instance coldef_eq_dec : EqDecision coldef.
Proof. solve_decision. Defined.

Inductive expr : Type :=
| EParam (k : nat)      (** [$k], bound to the k-th argument *)
| EInt (z : Z)
| EText (s : string)
| ENull.

#[export] Instance expr_eq_dec : EqDecision expr.
Proof. solve_decision. Defined.

Inductive query : Type :=
| QCountTable (e : expr)
    (** [SELECT COUNT(1) FROM sqlite_master WHERE type = 'table' AND name = e] *)
| QSelect (cols : list string) (t : string) (limit : option nat)
    (** [SELECT c1, ... FROM t [LIMIT n]]; [[]] stands for [*] *).

#[export] Instance query_eq_dec : EqDecision query.
Proof. solve_decision. Defined.

Inductive stmt : Type :=
| SPragmaLockingMode (exclusive : bool)
| SBegin (exclusive : bool)
| SCommit
| SRollback
| SSavepoint (n : string)
| SRelease (n : string)
| SRollbackTo (n : string)
| SCreateTable (t : string) (cols : list coldef)
| SDropTable (t : string)
| SDeleteAll (t : string)
| SInsert (t : string) (cols : option (list string)) (vals : list expr)
| SQuery (q : query).

#[export] Instance stmt_eq_dec : EqDecision stmt.
Proof. solve_decision. Defined.

(** ** Parser *)

Definition upper_char (c : ascii) : ascii :=
  if in_range 97 122 c then ascii_of_N (N_of_ascii c - 32) else c.

Fixpoint upper (s : string) : string :=
  match s with
  | EmptyString => EmptyString
  | String c s' => String (upper_char c) (upper s')
  end.

(** The token is the keyword [k] (given in upper case), in any case. *)
Definition kw (k : string) (t : token) : bool :=
  match t with TWord w => String.eqb (upper w) k | _ => false end.

Definition sym (c : ascii) (t : token) : bool :=
  match t with TSym c' => Ascii.eqb c c' | _ => false end.

Definition name_of (t : token) : option string :=
  match t with TWord w | TQuoted w => Some w | _ => None end.

Fixpoint split_commas (cur : list token) (ts : list token) : list (list token) :=
  match ts with
  | [] => [rev cur]
  | t :: ts' => if sym "," t then rev cur :: split_commas [] ts'
                else split_commas (t :: cur) ts'
  end.

(** The tokens before the first keyword [k], and those after it. *)
Fixpoint split_kw (k : string) (acc : list token) (ts : list token)
  : option (list token * list token) :=
  match ts with
  | [] => None
  | t :: ts' => if kw k t then Some (rev acc, ts') else split_kw k (t :: acc) ts'
  end.

Fixpoint split_close (acc : list token) (ts : list token)
  : option (list token * list token) :=
  match ts with
  | [] => None
  | t :: ts' => if sym ")" t then Some (rev acc, ts') else split_close (t :: acc) ts'
  end.

(** The tokens strictly inside a trailing [( ... )]. *)
Definition strip_close (ts : list token) : option (list token) :=
  match rev ts with
  | t :: r => if sym ")" t then Some (rev r) else None
  | [] => None
  end.

Definition single_name (ts : list token) : option string :=
  match ts with [t] => name_of t | _ => None end.

Definition parse_expr (ts : list token) : option expr :=
  match ts with
  | [TWord w] =>
      if kw "NULL" (TWord w) then Some ENull
      else if kw "TRUE" (TWord w) then Some (EInt 1)
      else if kw "FALSE" (TWord w) then Some (EInt 0)
      else match w with
           | String c k =>
               if Ascii.eqb c "$" then (fun n => EParam (N.to_nat n)) <$> ParseN k
               else (fun n => EInt (Z.of_N n)) <$> ParseN w
           | EmptyString => None
           end
  | [TSym c; TWord w] =>
      if Ascii.eqb c "-" then (fun n => EInt (- Z.of_N n)) <$> ParseN w else None
  | [TStr s] => Some (EText s)
  | _ => None
  end.

Fixpoint has_seq (k1 k2 : string) (ts : list token) : bool :=
  match ts with
  | t1 :: ts' =>
      match ts' with
      | t2 :: _ => (kw k1 t1 && kw k2 t2) || has_seq k1 k2 ts'
      | [] => false
      end
  | [] => false
  end.

Definition constraint_kw (t : token) : bool :=
  kw "NOT" t || kw "NULL" t || kw "PRIMARY" t || kw "UNIQUE" t ||
  kw "DEFAULT" t || kw "CHECK" t || kw "REFERENCES" t.

Definition parse_coldef (ts : list token) : option coldef :=
  match ts with
  | t :: rest =>
      n ← name_of t;
      let ty := match rest with
                | TWord w :: _ => if constraint_kw (TWord w) then "" else w
                | _ => ""
                end in
      Some (mk_coldef n ty (has_seq "NOT" "NULL" rest) (has_seq "PRIMARY" "KEY" rest))
  | [] => None
  end.

(** Statements of at most four tokens: transaction control, DELETE,
    DROP TABLE and the locking-mode pragma. *)
Definition parse_short (ts : list token) : option stmt :=
  match ts with
  | [a] =>
      if kw "BEGIN" a then Some (SBegin false)
      else if kw "COMMIT" a || kw "END" a then Some SCommit
      else if kw "ROLLBACK" a then Some SRollback
      else None
  | [a; b] =>
      if kw "BEGIN" a then
        (if kw "EXCLUSIVE" b then Some (SBegin true)
         else if kw "DEFERRED" b || kw "IMMEDIATE" b || kw "TRANSACTION" b
         then Some (SBegin false) else None)
      else if (kw "COMMIT" a || kw "END" a) && kw "TRANSACTION" b then Some SCommit
      else if kw "ROLLBACK" a && kw "TRANSACTION" b then Some SRollback
      else if kw "SAVEPOINT" a then SSavepoint <$> name_of b
      else if kw "RELEASE" a then SRelease <$> name_of b
      else None
  | [a; b; c] =>
      if kw "BEGIN" a && kw "TRANSACTION" c then
        (if kw "EXCLUSIVE" b then Some (SBegin true)
         else if kw "DEFERRED" b || kw "IMMEDIATE" b then Some (SBegin false) else None)
      else if kw "RELEASE" a && kw "SAVEPOINT" b then SRelease <$> name_of c
      else if kw "ROLLBACK" a && kw "TO" b then SRollbackTo <$> name_of c
      else if kw "DELETE" a && kw "FROM" b then SDeleteAll <$> name_of c
      else if kw "DROP" a && kw "TABLE" b then SDropTable <$> name_of c
      else None
  | [a; b; c; d] =>
      if kw "ROLLBACK" a && kw "TO" b && kw "SAVEPOINT" c then SRollbackTo <$> name_of d
      else if kw "ROLLBACK" a && kw "TRANSACTION" b && kw "TO" c then SRollbackTo <$> name_of d
      else if kw "PRAGMA" a && kw "LOCKING_MODE" b && sym "=" c then
        (if kw "EXCLUSIVE" d then Some (SPragmaLockingMode true)
         else if kw "NORMAL" d then Some (SPragmaLockingMode false) else None)
      else None
  | _ => None
  end.

Definition parse_create (ts : list token) : option stmt :=
  match ts with
  | a :: b :: n :: p :: rest =>
      if kw "CREATE" a && kw "TABLE" b && sym "(" p then
        t ← name_of n;
        body ← strip_close rest;
        cols ← mapM parse_coldef (split_commas [] body);
        Some (SCreateTable t cols)
      else None
  | _ => None
  end.

Definition parse_values (ts : list token) : option (list expr) :=
  match ts with
  | v :: p :: rest =>
      if kw "VALUES" v && sym "(" p then
        body ← strip_close rest; mapM parse_expr (split_commas [] body)
      else None
  | _ => None
  end.

Definition parse_insert (ts : list token) : option stmt :=
  match ts with
  | a :: b :: n :: rest =>
      if kw "INSERT" a && kw "INTO" b then
        t ← name_of n;
        match rest with
        | p :: rest' =>
            if sym "(" p then
              '(cts, rest'') ← split_close [] rest';
              cols ← mapM single_name (split_commas [] cts);
              vals ← parse_values rest'';
              Some (SInsert t (Some cols) vals)
            else vals ← parse_values rest; Some (SInsert t None vals)
        | [] => None
        end
      else None
  | _ => None
  end.

Definition is_count_one (ts : list token) : bool :=
  match ts with
  | [c; p; o; q] => kw "COUNT" c && sym "(" p && kw "1" o && sym ")" q
  | _ => false
  end.

Definition parse_select (ts : list token) : option stmt :=
  match ts with
  | s :: ts' =>
      if kw "SELECT" s then
        '(cts, rest) ← split_kw "FROM" [] ts';
        if is_count_one cts then
          match rest with
          | [m; w; ty; eq1; tbl; a; nm; eq2; e] =>
              if kw "SQLITE_MASTER" m && kw "WHERE" w && kw "TYPE" ty && sym "=" eq1 &&
                 bool_decide (tbl = TStr "table") && kw "AND" a && kw "NAME" nm && sym "=" eq2
              then q ← parse_expr [e]; Some (SQuery (QCountTable q))
              else None
          | _ => None
          end
        else
          cols ← (match cts with
                  | [t] => if sym "*" t then Some [] else mapM single_name [[t]]
                  | _ => mapM single_name (split_commas [] cts)
                  end);
          match rest with
          | [n] => t ← name_of n; Some (SQuery (QSelect cols t None))
          | [n; l; k] =>
              if kw "LIMIT" l then
                t ← name_of n;
                lim ← (match k with TWord w => ParseN w | _ => None end);
                Some (SQuery (QSelect cols t (Some (N.to_nat lim))))
              else None
          | _ => None
          end
      else None
  | [] => None
  end.

Definition first_some {A} (l : list (option A)) : option A :=
  foldr (fun o acc => match o with Some _ => o | None => acc end) None l.

Definition parse_stmt (ts : list token) : option stmt :=
  first_some [parse_short ts; parse_create ts; parse_insert ts; parse_select ts].

(** The number of arguments a statement consumes ([NumInput]): its
    largest parameter index. *)
Definition expr_params (e : expr) : nat :=
  match e with EParam k => k | _ => 0 end.

Definition stmt_params (s : stmt) : nat :=
  match s with
  | SInsert _ _ vals => foldr (fun e m => Nat.max (expr_params e) m) 0 vals
  | SQuery (QCountTable e) => expr_params e
  | _ => 0
  end.

(** The statements of a script, parsed. *)
Definition parse_script (s : string) : list (option stmt) :=
  map parse_stmt (split_stmts [] (tokenize s)).

(** ** Lexing lemmas

    The driver builds its statements by pasting a table name or a
    savepoint number into a template; these lemmas lex the pasted part in
    one step, so that the statement's tokens can be computed for every
    name. *)

(** A name that lexes as one word. *)
Definition is_word (s : string) : Prop :=
  s <> "" /\ Forall (fun c => is_word_char c = true) (String.list_ascii_of_string s).

(** A name that fits between double quotes. *)
Definition no_dquote (s : string) : Prop :=
  Forall (fun c => c <> dquote) (String.list_ascii_of_string s).

Lemma lex_word acc w l :
  Forall (fun c => is_word_char c = true) w ->
  lex LNormal acc (w ++ l) = lex LNormal (rev w ++ acc) l.
Proof.
  revert acc. induction w as [|c w IH]; intros acc Hw; simpl; [done|].
  inversion Hw as [|? ? Hc Hw']; subst. rewrite Hc, IH by done.
  by rewrite <- app_assoc.
Qed.

Lemma lex_dquoted acc w l :
  Forall (fun c => c <> dquote) w ->
  lex LDQuote acc (w ++ l) = lex LDQuote (rev w ++ acc) l.
Proof.
  revert acc. induction w as [|c w IH]; intros acc Hw; simpl; [done|].
  inversion Hw as [|? ? Hc Hw']; subst.
  destruct (Ascii.eqb_spec c dquote); [done|]. rewrite IH by done.
  by rewrite <- app_assoc.
Qed.

Lemma emit_cons acc ts :
  acc <> [] -> emit acc ts = TWord (String.string_of_list_ascii (rev acc)) :: ts.
Proof. destruct acc; [done|]. reflexivity. Qed.

Lemma list_ascii_of_string_nonempty s : s <> "" -> String.list_ascii_of_string s <> [].
Proof. destruct s; [done|]. discriminate. Qed.

Lemma rev_rev_app_nil (w : list ascii) : rev (rev w ++ []) = w.
Proof. by rewrite app_nil_r, rev_involutive. Qed.

Lemma rev_app_nil_nonempty (w : list ascii) : w <> [] -> rev w ++ [] <> [].
Proof.
  intros Hw H. apply Hw. rewrite app_nil_r in H.
  by destruct w; [|simpl in H; apply app_eq_nil in H as [_ ?]].
Qed.

(** Lex a word [s] followed by the rest of a statement. *)
Lemma lex_word_string acc s l :
  is_word s ->
  lex LNormal acc (String.list_ascii_of_string s ++ l) =
  lex LNormal (rev (String.list_ascii_of_string s) ++ acc) l.
Proof. intros [_ Hw]. by apply lex_word. Qed.

Create HintDb lexing discriminated.

(** A word followed by a non-word character (or the end) is one token. *)
Lemma lex_word_split w l :
  is_word w ->
  (forall c l', l = c :: l' -> is_word_char c = false) ->
  lex LNormal [] (String.list_ascii_of_string w ++ l) = TWord w :: lex LNormal [] l.
Proof.
  intros Hw Hl. rewrite lex_word_string by done.
  assert (Hne : rev (String.list_ascii_of_string w) ++ [] <> [])
    by apply rev_app_nil_nonempty, list_ascii_of_string_nonempty, Hw.
  destruct l as [|c l'].
  - simpl. rewrite emit_cons by done.
    by rewrite rev_rev_app_nil, String.string_of_list_ascii_of_string.
  - simpl. rewrite (Hl c l' eq_refl). rewrite emit_cons by done.
    by rewrite rev_rev_app_nil, String.string_of_list_ascii_of_string.
Qed.

(** A double-quoted name is one token. *)
Lemma lex_dquoted_split w l :
  no_dquote w ->
  lex LDQuote [] (String.list_ascii_of_string w ++ dquote :: l) =
  TQuoted w :: lex LNormal [] l.
Proof.
  intros Hw. rewrite lex_dquoted by done. simpl.
  rewrite rev_rev_app_nil, String.string_of_list_ascii_of_string.
  reflexivity.
Qed.

Lemma is_word_no_dquote w : is_word w -> no_dquote w.
Proof.
  intros [_ Hw]. unfold no_dquote. eapply Forall_impl; [exact Hw|].
  intros c Hc ->. discriminate.
Qed.

(** ** Savepoint names are words *)

Lemma digit_char_word d : (d < 10)%N -> is_word_char (digit_char d) = true.
Proof.
  intros Hd.
  assert (d = 0 \/ d = 1 \/ d = 2 \/ d = 3 \/ d = 4 \/ d = 5 \/ d = 6 \/ d = 7 \/
          d = 8 \/ d = 9)%N as Hcases by lia.
  by repeat destruct Hcases as [-> | Hcases]; [..|subst].
Qed.

Lemma digits_word f n :
  (n < 2 ^ N.of_nat f)%N -> Forall (fun c => is_word_char c = true) (digits f n).
Proof.
  revert n. induction f as [|f IH]; intros n Hn; simpl.
  - assert (n = 0)%N by lia. subst. repeat constructor.
  - destruct (N.ltb_spec n 10).
    + constructor; [by apply digit_char_word|constructor].
    + apply Forall_app. split.
      * apply IH. rewrite Nat2N.inj_succ, N.pow_succ_r' in Hn.
        apply N.Div0.div_lt_upper_bound; lia.
      * constructor; [apply digit_char_word; by apply N.mod_lt|constructor].
Qed.

Lemma FormatN_word m : is_word (FormatN m).
Proof.
  unfold FormatN. split.
  - intros H. apply (f_equal String.list_ascii_of_string) in H.
    rewrite String.list_ascii_of_string_of_list_ascii in H. by apply digits_nonempty in H.
  - rewrite String.list_ascii_of_string_of_list_ascii. apply digits_word.
    rewrite N2Nat.id. apply N.size_gt.
Qed.

Lemma is_word_app w1 w2 : is_word w1 -> is_word w2 -> is_word (w1 +:+ w2).
Proof.
  intros [H1 F1] [_ F2]. split.
  - destruct w1; [done|]. discriminate.
  - rewrite list_ascii_of_string_app. by apply Forall_app.
Qed.

#[export] Instance is_word_dec s : Decision (is_word s).
Proof. unfold is_word. apply _. Defined.
