(* ===== verification/SqlEngine.v ===== *)
(** * The database behind [*sql.DB]: SQLite's tables and transactions

    An environment model of what the driver relies on from [database/sql],
    [github.com/mattn/go-sqlite3] and SQLite itself, for one connection
    used from one goroutine (the driver never uses the handle concurrently;
    [database/sql] then hands every call the same pooled connection):

    - the file system, a map from paths to committed database contents;
    - the connection: the database it is attached to (a file, or a private
      temporary database for the paths [""] and [":memory:"]), its
      transaction state (autocommit, a transaction opened by BEGIN, or one
      opened implicitly by a SAVEPOINT), its stack of savepoints with the
      contents each restores, the locking-mode flag and whether it is
      closed;
    - statement execution: writes in autocommit mode are committed at once,
      writes inside a transaction go to the working copy; COMMIT, ROLLBACK,
      SAVEPOINT, RELEASE and ROLLBACK TO follow SQLite's documented rules
      (ROLLBACK TO keeps the savepoint on the stack; RELEASE of the
      outermost savepoint of an implicit transaction commits it);
    - [DB.Exec] runs a script statement by statement, as go-sqlite3's exec
      loop does, each statement consuming the arguments it needs, and stops
      at the first error, keeping the effects of the statements before it;
    - [DB.QueryRow] evaluates one SELECT and returns its first row, with
      go-sqlite3's conversion of columns declared [boolean] to Go [bool].

    A failing statement has no effect (SQLite's statement journal). *)

From Stdlib Require Import ZArith Lia Ascii.
From stdpp Require Import base strings list gmap.
From S2P Require Import Prelude GoStrings SqlSyntax.

(** ** Values, tables, errors *)

Inductive value : Type := VNull | VInt (z : Z) | VText (s : string).

#[export] Instance value_eq_dec : EqDecision value.
Proof. solve_decision. Defined.

Record table := mk_table {
  tcols : list coldef;
  trows : list (list value)   (** in insertion (rowid) order *)
}.

#[export] Instance table_eq_dec : EqDecision table.
Proof. solve_decision. Defined.

Abbreviation catalog := (gmap string table).
Abbreviation fsys := (gmap string catalog).

(** Arguments as [database/sql] passes them to the driver ([int64], [bool],
    [string]); go-sqlite3 binds a [bool] as the integer 1 or 0. *)
Inductive arg : Type := AInt (z : Z) | ABool (b : bool) | AText (s : string).

#[export] Instance arg_eq_dec : EqDecision arg.
Proof. solve_decision. Defined.

Definition arg_value (a : arg) : value :=
  match a with
  | AInt z => VInt z
  | ABool b => VInt (if b then 1 else 0)%Z
  | AText s => VText s
  end.

(** Column values as go-sqlite3 returns them. *)
Inductive dval : Type := DNull | DInt (z : Z) | DBool (b : bool) | DText (s : string).

#[export] Instance dval_eq_dec : EqDecision dval.
Proof. solve_decision. Defined.

Inductive sqlerr : Type :=
| ESyntax                     (** the statement does not parse *)
| ENoTable (t : string)       (** no such table *)
| ETableExists (t : string)   (** table already exists *)
| ENoColumn (c : string)      (** no such column *)
| EValuesCount                (** values do not match the columns *)
| ENotNull (c : string)       (** NOT NULL constraint failed *)
| EUnique (c : string)        (** UNIQUE constraint failed (primary key) *)
| ENestedTxn                  (** cannot start a transaction within a transaction *)
| ENoTxn                      (** cannot commit/rollback: no transaction is active *)
| ENoSavepoint (n : string)   (** no such savepoint *)
| ENotEnoughArgs              (** go-sqlite3: not enough args to execute query *)
| EClosed                     (** database/sql: database is closed *)
| ENoRows                     (** database/sql: sql.ErrNoRows *)
| EScan.                      (** database/sql: Scan conversion error *)

#[export] Instance sqlerr_eq_dec : EqDecision sqlerr.
Proof. solve_decision. Defined.

(** ** The connection and its environment *)

Inductive dbfile : Type := OnDisk (path : string) | Private.

#[export] Instance dbfile_eq_dec : EqDecision dbfile.
Proof. solve_decision. Defined.

Inductive txn : Type :=
| TNone       (** autocommit *)
| TExplicit   (** opened by BEGIN *)
| TImplicit.  (** opened by a SAVEPOINT outside a transaction *)

#[export] Instance txn_eq_dec : EqDecision txn.
Proof. solve_decision. Defined.

Record conn := mk_conn {
  c_file : dbfile;
  c_private : catalog;                    (** committed contents of a private database *)
  c_live : catalog;                       (** working contents inside a transaction *)
  c_txn : txn;
  c_savepoints : list (string * catalog); (** innermost first *)
  c_exclusive : bool;                     (** PRAGMA locking_mode = EXCLUSIVE *)
  c_closed : bool
}.

Record env := mk_env { e_fs : fsys; e_conn : conn }.

Definition set_conn (e : env) (c : conn) : env := mk_env (e_fs e) c.

Definition with_live (c : conn) (l : catalog) : conn :=
  mk_conn (c_file c) (c_private c) l (c_txn c) (c_savepoints c) (c_exclusive c) (c_closed c).
Definition with_txn (c : conn) (t : txn) (sps : list (string * catalog)) : conn :=
  mk_conn (c_file c) (c_private c) (c_live c) t sps (c_exclusive c) (c_closed c).
Definition with_exclusive (c : conn) (b : bool) : conn :=
  mk_conn (c_file c) (c_private c) (c_live c) (c_txn c) (c_savepoints c) b (c_closed c).

(** The committed contents of the connection's database. *)
Definition committed (e : env) : catalog :=
  match c_file (e_conn e) with
  | OnDisk p => default ∅ (e_fs e !! p)
  | Private => c_private (e_conn e)
  end.

(** The contents statements of this connection see. *)
Definition view (e : env) : catalog :=
  match c_txn (e_conn e) with
  | TNone => committed e
  | _ => c_live (e_conn e)
  end.

(** Make [cat] the committed contents.  A file removed while the
    connection is open is no longer reachable by its path: the write goes
    to the unlinked file and the path stays absent. *)
Definition commit_contents (e : env) (cat : catalog) : env :=
  let c := e_conn e in
  match c_file c with
  | OnDisk p =>
      mk_env (if decide (p ∈ dom (e_fs e)) then <[p := cat]> (e_fs e) else e_fs e) c
  | Private =>
      mk_env (e_fs e) (mk_conn Private cat (c_live c) (c_txn c) (c_savepoints c)
                                (c_exclusive c) (c_closed c))
  end.

(** The new contents of a data statement: committed at once in autocommit
    mode, written to the working copy inside a transaction. *)
Definition write_view (e : env) (cat : catalog) : env :=
  match c_txn (e_conn e) with
  | TNone => commit_contents e cat
  | _ => set_conn e (with_live (e_conn e) cat)
  end.

(** ** Expressions and queries *)

Definition eval_expr (args : list arg) (x : expr) : result sqlerr value :=
  match x with
  | EParam k => match args !! (k - 1) with
                | Some a => Ok (arg_value a)
                | None => Err ENotEnoughArgs
                end
  | EInt z => Ok (VInt z)
  | EText s => Ok (VText s)
  | ENull => Ok VNull
  end.

Fixpoint eval_exprs (args : list arg) (xs : list expr) : result sqlerr (list value) :=
  match xs with
  | [] => Ok []
  | x :: xs' => match eval_expr args x, eval_exprs args xs' with
                | Ok v, Ok vs => Ok (v :: vs)
                | Err e, _ | _, Err e => Err e
                end
  end.

(** go-sqlite3 returns an integer of a column declared [boolean] as the
    Go [bool] [val > 0]. *)
Definition dval_of (d : coldef) (v : value) : dval :=
  match v with
  | VNull => DNull
  | VText s => DText s
  | VInt z => if String.eqb (upper (col_type d)) "BOOLEAN" then DBool (0 <? z)%Z else DInt z
  end.

Fixpoint col_indices (tcs : list coldef) (cols : list string) : result sqlerr (list nat) :=
  match cols with
  | [] => Ok []
  | c :: cols' =>
      match list_find (fun d => col_name d = c) tcs, col_indices tcs cols' with
      | Some (i, _), Ok ixs => Ok (i :: ixs)
      | None, _ => Err (ENoColumn c)
      | _, Err e => Err e
      end
  end.

Definition project (tcs : list coldef) (idxs : list nat) (r : list value) : list dval :=
  map (fun i => match tcs !! i, r !! i with
                | Some d, Some v => dval_of d v
                | _, _ => DNull
                end) idxs.

Definition eval_query (cat : catalog) (args : list arg) (q : query)
  : result sqlerr (list (list dval)) :=
  match q with
  | QCountTable x =>
      match eval_expr args x with
      | Ok (VText n) => Ok [[DInt (if decide (n ∈ dom cat) then 1 else 0)%Z]]
      | Ok _ => Ok [[DInt 0%Z]]
      | Err e => Err e
      end
  | QSelect cols t lim =>
      match cat !! t with
      | None => Err (ENoTable t)
      | Some tb =>
          let tcs := tcols tb in
          let idxs := match cols with
                      | [] => Ok (seq 0 (length tcs))
                      | _ => col_indices tcs cols
                      end in
          let rows := match lim with Some k => take k (trows tb) | None => trows tb end in
          match idxs with
          | Ok ixs => Ok (map (project tcs ixs) rows)
          | Err e => Err e
          end
      end
  end.

(** ** Data statements *)

Definition build_row (tcs : list coldef) (names : list string) (vals : list value)
  : list value :=
  map (fun d => match list_find (fun n => n = col_name d) names with
                | Some (i, _) => default VNull (vals !! i)
                | None => VNull
                end) tcs.

Fixpoint notnull_violation (tcs : list coldef) (row : list value) : option string :=
  match tcs, row with
  | d :: tcs', v :: row' =>
      if col_notnull d && bool_decide (v = VNull) then Some (col_name d)
      else notnull_violation tcs' row'
  | _, _ => None
  end.

Fixpoint pk_conflict (i : nat) (tcs : list coldef) (rows : list (list value))
  (row : list value) : option string :=
  match tcs with
  | [] => None
  | d :: tcs' =>
      if col_pk d && existsb (fun r => bool_decide (r !! i = row !! i)) rows
      then Some (col_name d) else pk_conflict (S i) tcs' rows row
  end.

Definition insert_row (tb : table) (names : option (list string)) (vals : list value)
  : result sqlerr table :=
  let tcs := tcols tb in
  let names := default (map col_name tcs) names in
  if negb (length names =? length vals) then Err EValuesCount
  else match list_find (fun n => n ∉ map col_name tcs) names with
       | Some (_, n) => Err (ENoColumn n)
       | None =>
           let row := build_row tcs names vals in
           match notnull_violation tcs row with
           | Some c => Err (ENotNull c)
           | None =>
               match pk_conflict 0 tcs (trows tb) row with
               | Some c => Err (EUnique c)
               | None => Ok (mk_table tcs (trows tb ++ [row]))
               end
           end
       end.

Definition exec_data (cat : catalog) (args : list arg) (s : stmt) : result sqlerr catalog :=
  match s with
  | SCreateTable t cols =>
      if decide (t ∈ dom cat) then Err (ETableExists t) else Ok (<[t := mk_table cols []]> cat)
  | SDropTable t =>
      if decide (t ∈ dom cat) then Ok (delete t cat) else Err (ENoTable t)
  | SDeleteAll t =>
      match cat !! t with
      | Some tb => Ok (<[t := mk_table (tcols tb) []]> cat)
      | None => Err (ENoTable t)
      end
  | SInsert t names xs =>
      match cat !! t with
      | None => Err (ENoTable t)
      | Some tb =>
          match eval_exprs args xs with
          | Err e => Err e
          | Ok vals => match insert_row tb names vals with
                       | Ok tb' => Ok (<[t := tb']> cat)
                       | Err e => Err e
                       end
          end
      end
  | SQuery q =>
      match eval_query cat args q with Ok _ => Ok cat | Err e => Err e end
  | _ => Ok cat
  end.

(** ** Transaction control and statement execution *)

Definition find_savepoint (n : string) (sps : list (string * catalog)) : option nat :=
  fst <$> list_find (fun p => p.1 = n) sps.

(** COMMIT: the working copy becomes the committed contents. *)
Definition commit_txn (e : env) : env :=
  let e' := commit_contents e (c_live (e_conn e)) in
  set_conn e' (with_txn (e_conn e') TNone []).

Definition exec_stmt (e : env) (args : list arg) (s : stmt) : result sqlerr env :=
  let c := e_conn e in
  match s with
  | SPragmaLockingMode b => Ok (set_conn e (with_exclusive c b))
  | SBegin _ =>
      match c_txn c with
      | TNone => Ok (set_conn e (with_txn (with_live c (committed e)) TExplicit []))
      | _ => Err ENestedTxn
      end
  | SCommit =>
      match c_txn c with TNone => Err ENoTxn | _ => Ok (commit_txn e) end
  | SRollback =>
      match c_txn c with TNone => Err ENoTxn | _ => Ok (set_conn e (with_txn c TNone [])) end
  | SSavepoint n =>
      match c_txn c with
      | TNone =>
          let cur := committed e in
          Ok (set_conn e (with_txn (with_live c cur) TImplicit [(n, cur)]))
      | t => Ok (set_conn e (with_txn c t ((n, c_live c) :: c_savepoints c)))
      end
  | SRelease n =>
      match find_savepoint n (c_savepoints c) with
      | None => Err (ENoSavepoint n)
      | Some i =>
          let sps := drop (S i) (c_savepoints c) in
          if bool_decide (sps = [] /\ c_txn c = TImplicit) then Ok (commit_txn e)
          else Ok (set_conn e (with_txn c (c_txn c) sps))
      end
  | SRollbackTo n =>
      match find_savepoint n (c_savepoints c) with
      | None => Err (ENoSavepoint n)
      | Some i =>
          match c_savepoints c !! i with
          | Some (_, snap) =>
              Ok (set_conn e (with_txn (with_live c snap) (c_txn c) (drop i (c_savepoints c))))
          | None => Err (ENoSavepoint n)
          end
      end
  | _ =>
      match exec_data (view e) args s with
      | Ok cat => Ok (write_view e cat)
      | Err err => Err err
      end
  end.

(** go-sqlite3's exec loop: each statement is prepared, checked to have
    enough remaining arguments, executed with the arguments from [start],
    and the loop stops at the first error. *)
Fixpoint exec_stmts (args : list arg) (start : nat) (sts : list (list token))
  : GoM env sqlerr unit :=
  match sts with
  | [] => ret tt
  | ts :: rest => fun e =>
      match parse_stmt ts with
      | None => (Err ESyntax, e)
      | Some st =>
          let na := stmt_params st in
          if length args - start <? na then (Err ENotEnoughArgs, e)
          else match exec_stmt e (drop start args) st with
               | Ok e' => exec_stmts args (start + na) rest e'
               | Err err => (Err err, e)
               end
      end
  end.

(** ** The [*sql.DB] methods the driver calls *)

(** [sql.Open("sqlite3", path)]: lazy, it only records the path. *)
Definition sql_Open (path : string) : conn :=
  mk_conn (if bool_decide (path = "" \/ path = ":memory:") then Private else OnDisk path)
          ∅ ∅ TNone [] false false.

(** [db.Ping()]: opens the database, creating an empty file if needed. *)
Definition DB_Ping : GoM env sqlerr unit := fun e =>
  let c := e_conn e in
  if c_closed c then (Err EClosed, e)
  else match c_file c with
       | OnDisk p => (Ok tt, if decide (p ∈ dom (e_fs e)) then e
                             else mk_env (<[p := ∅]> (e_fs e)) c)
       | Private => (Ok tt, e)
       end.

Definition DB_Exec (q : string) (args : list arg) : GoM env sqlerr unit := fun e =>
  if c_closed (e_conn e) then (Err EClosed, e)
  else exec_stmts args 0 (split_stmts [] (tokenize q)) e.

(** [db.QueryRow(q, args...)]: the first row of the first statement;
    [sql.ErrNoRows] when there is none. *)
Definition DB_QueryRow (q : string) (args : list arg) : GoM env sqlerr (list dval) := fun e =>
  if c_closed (e_conn e) then (Err EClosed, e)
  else match split_stmts [] (tokenize q) with
       | ts :: _ =>
           match parse_stmt ts with
           | Some (SQuery qq) =>
               match eval_query (view e) args qq with
               | Ok (r :: _) => (Ok r, e)
               | Ok [] => (Err ENoRows, e)
               | Err err => (Err err, e)
               end
           | Some st =>
               match exec_stmt e args st with
               | Ok e' => (Err ENoRows, e')
               | Err err => (Err err, e)
               end
           | None => (Err ESyntax, e)
           end
       | [] => (Err ENoRows, e)
       end.

(** [db.Close()]: an open transaction is rolled back. *)
Definition DB_Close : GoM env sqlerr unit := fun e =>
  let c := e_conn e in
  (Ok tt, set_conn e (mk_conn (c_file c) (c_private c) (c_live c) TNone [] (c_exclusive c) true)).

(** [Scan] into a Go [int] and a Go [bool] ([database/sql]'s
    [convertAssign]). *)
Definition scan_int (d : dval) : result sqlerr Z :=
  match d with
  | DInt z => Ok z
  | DText s => match ParseInt s with Some z => Ok z | None => Err EScan end
  | _ => Err EScan
  end.

Definition parse_bool (s : string) : option bool :=
  if bool_decide (s ∈ ["1"; "t"; "T"; "TRUE"; "true"; "True"]) then Some true
  else if bool_decide (s ∈ ["0"; "f"; "F"; "FALSE"; "false"; "False"]) then Some false
  else None.

Definition scan_bool (d : dval) : result sqlerr bool :=
  match d with
  | DBool b => Ok b
  | DInt 1 => Ok true
  | DInt 0 => Ok false
  | DText s => match parse_bool s with Some b => Ok b | None => Err EScan end
  | _ => Err EScan
  end.

(** [os.Remove(path)]. *)
Definition os_Remove (p : string) (fs : fsys) : option fsys :=
  if decide (p ∈ dom fs) then Some (delete p fs) else None.

(** [Row.Scan] with one [*int] destination, and with an [*int] and a
    [*bool]: the row must have as many columns as destinations. *)
Definition scan_int1 (row : list dval) : result sqlerr Z :=
  match row with [d] => scan_int d | _ => Err EScan end.

Definition scan_int_bool (row : list dval) : result sqlerr (Z * bool) :=
  match row with
  | [d1; d2] => match scan_int d1, scan_bool d2 with
                | Ok z, Ok b => Ok (z, b)
                | Err e, _ | _, Err e => Err e
                end
  | _ => Err EScan
  end.
