(* ===== verification/EngineFacts.v ===== *)
(** * Facts about the SQLite model

    How each statement the driver issues transforms the connection: the
    savepoint statements on the savepoint stack, the data statements on the
    working copy, COMMIT on the committed contents; and how [DB_Exec] and
    [DB_QueryRow] reduce to one statement when the text parses to one. *)

From Stdlib Require Import ZArith Lia Ascii.
From stdpp Require Import base strings list gmap.
From S2P Require Import Prelude GoStrings SqlSyntax SqlEngine.

(** The connection invariant: outside a transaction there are no
    savepoints, and a transaction opened by a SAVEPOINT has one. *)
Definition conn_ok (c : conn) : Prop :=
  (c_txn c = TNone -> c_savepoints c = []) /\
  (c_txn c = TImplicit -> c_savepoints c <> []).

(** Statements that only read or write table contents. *)
Definition is_data_stmt (s : stmt) : bool :=
  match s with
  | SCreateTable _ _ | SDropTable _ | SDeleteAll _ | SInsert _ _ _ | SQuery _ => true
  | _ => false
  end.

(** The meaning of a script: its statements, in order, each with the
    arguments the earlier ones left; the first statement that does not
    parse, lacks arguments or fails stops the script, and the effects of
    the statements before it stay. *)
Fixpoint run_script (args : list arg) (sts : list (option stmt)) : GoM env sqlerr unit := fun e =>
  match sts with
  | [] => (Ok tt, e)
  | None :: _ => (Err ESyntax, e)
  | Some s :: rest =>
      if length args <? stmt_params s then (Err ENotEnoughArgs, e)
      else match exec_stmt e args s with
           | Ok e' => run_script (drop (stmt_params s) args) rest e'
           | Err err => (Err err, e)
           end
  end.

Section Exec.
Context (e : env) (args : list arg).
Local Abbreviation c := (e_conn e).

  (** SAVEPOINT pushes the current view; outside a transaction it opens
      one. *)
Lemma exec_savepoint n :
    conn_ok c ->
    exec_stmt e args (SSavepoint n) =
    Ok (mk_env (e_fs e)
          (mk_conn (c_file c) (c_private c) (view e)
                   (if bool_decide (c_txn c = TNone) then TImplicit else c_txn c)
                   ((n, view e) :: c_savepoints c) (c_exclusive c) (c_closed c))).
  Proof.
    intros Hok. unfold exec_stmt, view. destruct (c_txn c) eqn:Ht; simpl.
    - by rewrite (proj1 Hok Ht).
    - reflexivity.
    - reflexivity.
  Qed.

  (** A data statement inside a transaction writes the working copy. *)
Lemma exec_data_in_txn s :
    is_data_stmt s = true -> c_txn c <> TNone ->
    exec_stmt e args s =
    match exec_data (c_live c) args s with
    | Ok cat => Ok (set_conn e (with_live c cat))
    | Err err => Err err
    end.
  Proof.
    intros Hs Ht. unfold exec_stmt, write_view, view.
    destruct (c_txn c) eqn:Hc; [done| |];
      destruct s; try discriminate; reflexivity.
  Qed.

  (** RELEASE of the innermost savepoint pops it; if it opened the
      transaction, the transaction commits. *)
Lemma exec_release_top n snap rest :
    c_savepoints c = (n, snap) :: rest ->
    exec_stmt e args (SRelease n) =
    Ok (if bool_decide (rest = [] /\ c_txn c = TImplicit) then commit_txn e
        else set_conn e (with_txn c (c_txn c) rest)).
  Proof.
    intros Hs. unfold exec_stmt, find_savepoint. rewrite Hs. simpl.
    rewrite decide_True by done. simpl. by destruct (bool_decide _).
  Qed.

  (** ROLLBACK TO the savepoint at depth [i] restores its contents and
      keeps it on the stack. *)
Lemma exec_rollback_to n i snap :
    find_savepoint n (c_savepoints c) = Some i ->
    c_savepoints c !! i = Some (n, snap) ->
    exec_stmt e args (SRollbackTo n) =
    Ok (set_conn e (with_txn (with_live c snap) (c_txn c) (drop i (c_savepoints c)))).
  Proof. intros Hf Hi. unfold exec_stmt. by rewrite Hf, Hi. Qed.

Lemma exec_rollback_to_missing n :
    find_savepoint n (c_savepoints c) = None ->
    exec_stmt e args (SRollbackTo n) = Err (ENoSavepoint n).
  Proof. intros Hf. unfold exec_stmt. by rewrite Hf. Qed.
End Exec.

Lemma find_savepoint_top n snap rest :
  find_savepoint n ((n, snap) :: rest) = Some 0.
Proof. unfold find_savepoint. simpl. by rewrite decide_True. Qed.

(** ** The connection invariant is preserved by every statement *)

Lemma conn_ok_fields c c' :
  c_txn c' = c_txn c -> c_savepoints c' = c_savepoints c -> conn_ok c -> conn_ok c'.
Proof. unfold conn_ok. by intros -> ->. Qed.

(** [commit_contents] changes no field of the connection but the private
    contents. *)
Lemma commit_contents_conn e cat :
  c_file (e_conn (commit_contents e cat)) = c_file (e_conn e) /\
  c_txn (e_conn (commit_contents e cat)) = c_txn (e_conn e) /\
  c_savepoints (e_conn (commit_contents e cat)) = c_savepoints (e_conn e) /\
  c_closed (e_conn (commit_contents e cat)) = c_closed (e_conn e).
Proof. destruct e as [fs [[p|] pr l t sps x cl]]; unfold commit_contents; simpl; done. Qed.

Lemma commit_txn_conn_ok e : conn_ok (e_conn (commit_txn e)).
Proof. split; [done|]. unfold commit_txn. simpl. discriminate. Qed.

Lemma write_view_conn_ok e cat : conn_ok (e_conn e) -> conn_ok (e_conn (write_view e cat)).
Proof.
  unfold write_view. destruct (c_txn (e_conn e)) eqn:Ht; simpl;
    try (apply conn_ok_fields; done).
  destruct (commit_contents_conn e cat) as (_ & Ht' & Hs' & _). by apply conn_ok_fields.
Qed.

Lemma find_savepoint_lt n sps i : find_savepoint n sps = Some i -> i < length sps.
Proof.
  unfold find_savepoint. destruct (list_find _ sps) as [[j x]|] eqn:E; [|done].
  simpl. intros [= <-]. apply list_find_Some in E as (Hl & _ & _). by apply lookup_lt_Some in Hl.
Qed.

(** A data statement writes the view. *)
Lemma exec_stmt_data e args s :
  is_data_stmt s = true ->
  exec_stmt e args s = match exec_data (view e) args s with
                       | Ok cat => Ok (write_view e cat)
                       | Err err => Err err
                       end.
Proof. by destruct s. Qed.

Lemma exec_stmt_conn_ok e args s e' :
  conn_ok (e_conn e) -> exec_stmt e args s = Ok e' -> conn_ok (e_conn e').
Proof.
  intros Hok H. pose proof Hok as [Hn Hi].
  destruct (is_data_stmt s) eqn:Hd.
  { rewrite exec_stmt_data in H by done.
    destruct (exec_data _ _ _); [injection H as <-; by apply write_view_conn_ok|discriminate]. }
  unfold exec_stmt in H. destruct s; try discriminate Hd; simpl in H.
  - injection H as <-. by apply (conn_ok_fields (e_conn e)).
  - destruct (c_txn (e_conn e)); try discriminate. injection H as <-. split; discriminate.
  - destruct (c_txn (e_conn e)); try discriminate; injection H as <-; apply commit_txn_conn_ok.
  - destruct (c_txn (e_conn e)); try discriminate; injection H as <-; split; done.
  - destruct (c_txn (e_conn e)) eqn:Ht; injection H as <-; split; simpl; done.
  - destruct (find_savepoint _ _) as [i|] eqn:Hf; [|discriminate].
    case_bool_decide as Hb; injection H as <-; [apply commit_txn_conn_ok|].
    split; simpl.
    + intros Ht. rewrite (Hn Ht) in Hf. discriminate.
    + intros Ht Hnil. apply Hb. by split.
  - destruct (find_savepoint _ _) as [i|] eqn:Hf; [|discriminate].
    destruct (c_savepoints (e_conn e) !! i) as [[? snap]|] eqn:Hl; [|discriminate].
    injection H as <-. split; simpl.
    + intros Ht. rewrite (Hn Ht) in Hf. discriminate.
    + intros _ Hnil. apply lookup_lt_Some in Hl. apply (f_equal length) in Hnil.
      rewrite length_drop in Hnil. simpl in Hnil. lia.
Qed.

(** Any property of the environment that every statement preserves is
    preserved by the exec loop and by the two methods that run it. *)
Section StmtInvariant.
Context (I : env -> Prop).
Hypothesis HI : forall e args s e', I e -> exec_stmt e args s = Ok e' -> I e'.

Lemma exec_stmts_pres args start sts e : I e -> I (snd (exec_stmts args start sts e)).
Proof.
  revert start e. induction sts as [|ts sts IH]; intros start e Hok; [done|]. simpl.
  destruct (parse_stmt ts) as [s|]; [|done].
  destruct (_ <? _); [done|].
  destruct (exec_stmt e (drop start args) s) as [e'|] eqn:He; [|done].
  apply IH. by eapply HI.
Qed.

Lemma DB_Exec_pres q args e : I e -> I (snd (DB_Exec q args e)).
Proof. intros Hok. unfold DB_Exec. destruct (c_closed _); [done|]. by apply exec_stmts_pres. Qed.

Lemma DB_QueryRow_pres q args e : I e -> I (snd (DB_QueryRow q args e)).
Proof.
  intros Hok. unfold DB_QueryRow. destruct (c_closed _); [done|].
  destruct (split_stmts [] (tokenize q)) as [|ts ?]; [done|].
  destruct (parse_stmt ts) as [[]|]; try done;
    try (destruct (eval_query _ _ _) as [[]|]; done);
    destruct (exec_stmt e args _) eqn:He; try done; simpl; by eapply HI.
Qed.
End StmtInvariant.

Lemma exec_stmts_conn_ok args start sts e :
  conn_ok (e_conn e) -> conn_ok (e_conn (snd (exec_stmts args start sts e))).
Proof. exact (exec_stmts_pres (fun e => conn_ok (e_conn e)) exec_stmt_conn_ok args start sts e). Qed.

Lemma DB_Exec_conn_ok q args e :
  conn_ok (e_conn e) -> conn_ok (e_conn (snd (DB_Exec q args e))).
Proof. exact (DB_Exec_pres (fun e => conn_ok (e_conn e)) exec_stmt_conn_ok q args e). Qed.

Lemma DB_QueryRow_conn_ok q args e :
  conn_ok (e_conn e) -> conn_ok (e_conn (snd (DB_QueryRow q args e))).
Proof. exact (DB_QueryRow_pres (fun e => conn_ok (e_conn e)) exec_stmt_conn_ok q args e). Qed.

Lemma DB_Close_conn_ok e : conn_ok (e_conn (snd (DB_Close e))).
Proof. split; [done|]. simpl. discriminate. Qed.

(** go-sqlite3's exec loop runs the script: [start] indexes the
    arguments not yet consumed. *)
Lemma exec_stmts_run_script args start tss e :
  exec_stmts args start tss e = run_script (drop start args) (map parse_stmt tss) e.
Proof.
  revert start e. induction tss as [|ts tss IH]; intros start e; [done|]. simpl.
  destruct (parse_stmt ts) as [s|]; [|done]. rewrite length_drop.
  destruct (_ <? _); [done|]. destruct (exec_stmt e (drop start args) s); [|done].
  by rewrite IH, drop_drop.
Qed.

Lemma DB_Exec_run_script q args e :
  c_closed (e_conn e) = false -> DB_Exec q args e = run_script args (parse_script q) e.
Proof. intros Hc. unfold DB_Exec. rewrite Hc. by rewrite exec_stmts_run_script, drop_0. Qed.

(** A text that parses to one statement is executed as that statement. *)
Lemma DB_Exec_single q args s e :
  c_closed (e_conn e) = false -> parse_script q = [Some s] ->
  stmt_params s <= length args ->
  DB_Exec q args e = match exec_stmt e args s with
                     | Ok e' => (Ok tt, e')
                     | Err err => (Err err, e)
                     end.
Proof.
  intros Hc Hp Ha. unfold DB_Exec. rewrite Hc. unfold parse_script in Hp.
  destruct (split_stmts [] (tokenize q)) as [|ts [|? ?]]; try discriminate.
  injection Hp as Hp. simpl. rewrite Hp, drop_0.
  destruct (Nat.ltb_spec (length args - 0) (stmt_params s)); [lia|].
  by destruct (exec_stmt e args s).
Qed.

(** A text whose first statement does not parse fails before running
    anything. *)
Lemma DB_Exec_syntax q args e rest :
  c_closed (e_conn e) = false -> parse_script q = None :: rest ->
  DB_Exec q args e = (Err ESyntax, e).
Proof.
  intros Hc Hp. unfold DB_Exec. rewrite Hc. unfold parse_script in Hp.
  destruct (split_stmts [] (tokenize q)) as [|ts ?]; [discriminate|].
  injection Hp as Hp _. simpl. by rewrite Hp.
Qed.

(** A text whose first statement runs and whose second does not parse:
    the error is returned and the first statement's effects stay. *)
Lemma DB_Exec_then_syntax q e s1 e1 rest :
  c_closed (e_conn e) = false -> parse_script q = Some s1 :: None :: rest ->
  stmt_params s1 = 0 -> exec_stmt e [] s1 = Ok e1 ->
  DB_Exec q [] e = (Err ESyntax, e1).
Proof.
  intros Hc Hp Hn Hs. unfold DB_Exec. rewrite Hc. unfold parse_script in Hp.
  destruct (split_stmts [] (tokenize q)) as [|ts1 [|ts2 ?]]; try discriminate.
  injection Hp as Hp1 Hp2 _. simpl. rewrite Hp1, Hn. simpl. rewrite Hs. simpl. by rewrite Hp2.
Qed.

Lemma DB_QueryRow_single q args qq e :
  c_closed (e_conn e) = false -> parse_script q = [Some (SQuery qq)] ->
  DB_QueryRow q args e = match eval_query (view e) args qq with
                         | Ok (r :: _) => (Ok r, e)
                         | Ok [] => (Err ENoRows, e)
                         | Err err => (Err err, e)
                         end.
Proof.
  intros Hc Hp. unfold DB_QueryRow. rewrite Hc. unfold parse_script in Hp.
  destruct (split_stmts [] (tokenize q)) as [|ts [|? ?]]; try discriminate.
  injection Hp as Hp. by rewrite Hp.
Qed.
