(* ===== verification/Database.v ===== *)
(** * The [database] package of migrate: errors, [NilVersion], [Driver]

    The driver implements the [database.Driver] interface of migrate's
    [database] package and returns its errors.  That package is part of
    the repository but not of the sources given here, so its definitions
    are modelled from the specification: the Go [error] values the driver
    can return, the sentinel [NilVersion = -1], the migration reader
    passed to [Run], and the interface itself, as a record of operations
    over the world the driver acts on, together with the contract a
    version store promises to the migration orchestrator. *)

From Stdlib Require Import ZArith Lia.
From stdpp Require Import base strings list gmap.
From S2P Require Import Prelude SqlEngine.

(** Go [error] values returned by the driver. *)
Inductive goerr : Type :=
| ErrURL (uri : string)                  (** [url.Parse] failed *)
| ErrSql (e : sqlerr)                    (** a raw error of database/sql *)
| ErrDatabase (orig : sqlerr) (query : string)
    (** [*database.Error{OrigErr: orig, Query: []byte(query)}] *)
| ErrLocked                              (** [database.ErrLocked] *)
| ErrRead                                (** the migration reader failed *)
| ErrRemove (path : string)              (** [os.Remove]: [*os.PathError] *)
| ErrDirty (v : Z).                      (** [migrate.ErrDirty{Version: v}] of the orchestrator *)

#[export] Instance goerr_eq_dec : EqDecision goerr.
Proof. solve_decision. Defined.

(** [database.NilVersion]. *)
Definition NilVersion : Z := (-1)%Z.

(** An [io.Reader] as [ioutil.ReadAll] sees it: all of its bytes, or an
    error. *)
Inductive reader : Type := RData (s : string) | RFail.

(** [database.Driver], for a driver whose world is [W]. *)
Record Driver (W : Type) := mk_driver {
  drv_Close : GoM W goerr unit;
  drv_Lock : GoM W goerr unit;
  drv_Unlock : GoM W goerr unit;
  drv_Run : reader -> GoM W goerr unit;
  drv_SetVersion : Z -> bool -> GoM W goerr unit;
  drv_Version : GoM W goerr (Z * bool);
  drv_Drop : GoM W goerr unit
}.
Arguments drv_Close {W} d.
Arguments drv_Lock {W} d.
Arguments drv_Unlock {W} d.
Arguments drv_Run {W} d.
Arguments drv_SetVersion {W} d.
Arguments drv_Version {W} d.
Arguments drv_Drop {W} d.

(** The abstract value a version store holds: [SetVersion v d] makes it
    [(v, d)] for [v >= 0] and the empty store [(NilVersion, false)] for a
    negative [v]. *)
Definition abstract_set (v : Z) (d : bool) : Z * bool :=
  if (0 <=? v)%Z then (v, d) else (NilVersion, false).

(** The contract of a version store, stated for the worlds [ok] in which
    the driver is usable and a budget of [SetVersion] calls it can still
    serve: [Version] returns the abstract value without changing the
    world, and [SetVersion] within budget succeeds, keeps the world usable,
    spends one unit of budget and sets the abstract value.  The
    orchestrator's reasoning about versions needs only this. *)
Class VersionStore {W} (D : Driver W) (ok : W -> Prop) (abs : W -> Z * bool)
    (budget : W -> Z) : Prop := {
  vs_version : forall w, ok w -> drv_Version D w = (Ok (abs w), w);
  vs_set_ok : forall w v d, ok w -> in_int64 v -> (0 < budget w)%Z ->
    fst (drv_SetVersion D v d w) = Ok tt /\ ok (snd (drv_SetVersion D v d w)) /\
    budget (snd (drv_SetVersion D v d w)) = (budget w - 1)%Z;
  vs_set_abs : forall w v d, ok w -> in_int64 v -> (0 < budget w)%Z ->
    abs (snd (drv_SetVersion D v d w)) = abstract_set v d
}.

(** ** The orchestrator's use of a version store

    Around each migration the orchestrator marks the target version dirty,
    runs the migration, and marks it clean.  Its reasoning about the
    version calls is done against [VersionStore] only. *)

Local Open Scope go_scope.

(** The version calls of one migration step: mark [v] dirty, mark it
    clean, read the version back. *)
Definition mark_clean_step {W} (D : Driver W) (v : Z) : GoM W goerr (Z * bool) :=
  let* _ := drv_SetVersion D v true in
  let* _ := drv_SetVersion D v false in
  drv_Version D.

Section Client.
Context {W : Type} (D : Driver W) (ok : W -> Prop) (abs : W -> Z * bool) (budget : W -> Z).
Context `{!VersionStore D ok abs budget}.

Lemma SetVersion_store w v d :
    ok w -> in_int64 v -> (0 < budget w)%Z ->
    exists w', drv_SetVersion D v d w = (Ok tt, w') /\ ok w' /\
               budget w' = (budget w - 1)%Z /\ abs w' = abstract_set v d.
  Proof.
    intros Hw Hv Hb. destruct (vs_set_ok w v d Hw Hv Hb) as (Hok & Hw' & Hb').
    pose proof (vs_set_abs w v d Hw Hv Hb) as Ha.
    destruct (drv_SetVersion D v d w) as [r w']. simpl in *. subst r. by exists w'.
  Qed.

  (** Within budget, the step succeeds and reads back [(v, false)] for a
      non-negative [v]. *)
Lemma mark_clean_step_spec w v :
    ok w -> in_int64 v -> (0 <= v)%Z -> (2 <= budget w)%Z ->
    exists w', mark_clean_step D v w = (Ok (v, false), w') /\ ok w' /\
               budget w' = (budget w - 2)%Z.
  Proof.
    intros Hw Hv Hv0 Hb. unfold mark_clean_step, bind.
    destruct (SetVersion_store w v true) as (w1 & -> & Hw1 & Hb1 & _); [done|done|lia|].
    destruct (SetVersion_store w1 v false) as (w2 & -> & Hw2 & Hb2 & Ha2); [done|done|lia|].
    rewrite (vs_version w2 Hw2), Ha2. unfold abstract_set. rewrite (proj2 (Z.leb_le 0 v) Hv0).
    exists w2. split; [done|]. split; [done|lia].
  Qed.
End Client.
