(* ===== verification/NetUrl.v ===== *)
(** * [net/url]: parsing the connection locator of [Open]

    [Open] parses its argument with [url.Parse], takes the database path
    from [u.Path] and the option [x-migrations-table] from [u.Query()].
    This file models those two functions of Go's standard library (of the
    Go releases contemporary with the driver, whose [ParseQuery] splits on
    both [&] and [;]): the split into scheme, authority, path, query and
    fragment, the opaque form [scheme:rest], and percent-decoding; the
    lemma [foldl_add_pair] gives the values [ParseQuery] collects for a
    key, in the order written ([query_values]).  Not
    modelled: the user-info and IPv6 validation of the authority, which
    the driver never reads. *)

From Stdlib Require Import ZArith Lia Ascii.
From stdpp Require Import base strings list gmap.
From S2P Require Import Prelude GoStrings SqlSyntax.

Record URL := mk_url {
  url_Scheme : string;
  url_Opaque : string;
  url_Host : string;
  url_Path : string;
  url_RawQuery : string;
  url_Fragment : string
}.

(** [strings.Index(s, string(c))]. *)
Fixpoint index_char (c : ascii) (s : string) : option nat :=
  match s with
  | EmptyString => None
  | String c' s' => if Ascii.eqb c c' then Some 0 else S <$> index_char c s'
  end.

(** [split(s, c, cutc)] of [net/url]. *)
Definition split_on (s : string) (c : ascii) (cutc : bool) : string * string :=
  match index_char c s with
  | None => (s, "")
  | Some i => (String.substring 0 i s,
               if cutc then suffix_from (S i) s else suffix_from i s)
  end.

Definition is_alpha (c : ascii) : bool := in_range 97 122 c || in_range 65 90 c.

(** [getscheme]: [Err] is "missing protocol scheme". *)
Fixpoint getscheme_go (first : bool) (acc : string) (s : string)
  : result unit (string * string) :=
  match s with
  | EmptyString => Ok ("", acc)
  | String c s' =>
      if is_alpha c then getscheme_go false (acc +:+ String c "") s'
      else if in_range 48 57 c || Ascii.eqb c "+" || Ascii.eqb c "-" || Ascii.eqb c "." then
        (if first then Ok ("", acc +:+ s) else getscheme_go false (acc +:+ String c "") s')
      else if Ascii.eqb c ":" then
        (if first then Err tt else Ok (acc, s'))
      else Ok ("", acc +:+ s)
  end.

Definition getscheme (raw : string) : result unit (string * string) :=
  getscheme_go true "" raw.

Definition lower (s : string) : string :=
  String.string_of_list_ascii
    (map (fun c => if in_range 65 90 c then ascii_of_N (N_of_ascii c + 32) else c)
         (String.list_ascii_of_string s)).

Definition hex_value (c : ascii) : option N :=
  if in_range 48 57 c then Some (N_of_ascii c - 48)%N
  else if in_range 97 102 c then Some (N_of_ascii c - 87)%N
  else if in_range 65 70 c then Some (N_of_ascii c - 55)%N
  else None.

(** [unescape]: [%XX] is decoded, a malformed escape is an error; in a
    query component [+] is a space. *)
Fixpoint unescape_go (query : bool) (l : list ascii) : option (list ascii) :=
  match l with
  | [] => Some []
  | c :: l' =>
      if Ascii.eqb c "%" then
        match l' with
        | h1 :: h2 :: l'' =>
            match hex_value h1, hex_value h2 with
            | Some a, Some b => cons (ascii_of_N (a * 16 + b)) <$> unescape_go query l''
            | _, _ => None
            end
        | _ => None
        end
      else if query && Ascii.eqb c "+" then cons " "%char <$> unescape_go query l'
      else cons c <$> unescape_go query l'
  end.

Definition unescape (query : bool) (s : string) : option string :=
  String.string_of_list_ascii <$> unescape_go query (String.list_ascii_of_string s).

Definition has_prefix (p s : string) : bool := String.prefix p s.

(** [parse(rawurl, viaRequest=false)]. *)
Definition parse (raw : string) : result unit URL :=
  if String.eqb raw "*" then Ok (mk_url "" "" "" "*" "" "")
  else match getscheme raw with
  | Err e => Err e
  | Ok (scheme0, rest0) =>
      let scheme := lower scheme0 in
      let '(rest, rawq) :=
        if has_prefix "?" (String.string_of_list_ascii (rev (String.list_ascii_of_string rest0)))
           && (Count rest0 "?" =? 1)
        then (String.substring 0 (String.length rest0 - 1) rest0, "")
        else split_on rest0 "?" true in
      if negb (has_prefix "/" rest) && negb (String.eqb scheme "") then
        Ok (mk_url scheme rest "" "" rawq "")
      else
        let colon_first :=
          match index_char ":" rest, index_char "/" rest with
          | Some c, None => true
          | Some c, Some s => c <? s
          | None, _ => false
          end in
        if negb (has_prefix "/" rest) && colon_first then Err tt
        else
          let '(host, path) :=
            if has_prefix "//" rest then
              let '(auth, p) := split_on (suffix_from 2 rest) "/" false in
              (match index_char "@" (String.string_of_list_ascii
                                        (rev (String.list_ascii_of_string auth))) with
               | Some j => suffix_from (String.length auth - j) auth
               | None => auth
               end, p)
            else ("", rest) in
          match unescape false path with
          | Some p => Ok (mk_url scheme "" host p rawq "")
          | None => Err tt
          end
  end.

(** [url.Parse]: the fragment is cut off first. *)
Definition Parse (raw : string) : result unit URL :=
  let '(u, frag) := split_on raw "#" true in
  match parse u with
  | Err e => Err e
  | Ok url =>
      if String.eqb frag "" then Ok url
      else match unescape false frag with
           | Some f => Ok (mk_url (url_Scheme url) (url_Opaque url) (url_Host url)
                                  (url_Path url) (url_RawQuery url) f)
           | None => Err tt
           end
  end.

(** [url.Values], Go's [map[string][]string]. *)
Abbreviation Values := (gmap string (list string)).

(** Split at the first [&] or [;]. *)
Fixpoint split_amp (acc : list ascii) (l : list ascii) : list (list ascii) :=
  match l with
  | [] => [rev acc]
  | c :: l' => if Ascii.eqb c "&" || Ascii.eqb c ";" then rev acc :: split_amp [] l'
               else split_amp (c :: acc) l'
  end.

Definition split_eq (l : list ascii) : list ascii * list ascii :=
  match list_find (fun c => c = "="%char) l with
  | Some (i, _) => (take i l, drop (S i) l)
  | None => (l, [])
  end.

(** A piece [key=value] of the query, unescaped; [None] for an empty
    piece or one that fails to unescape. *)
Definition piece_pair (piece : list ascii) : option (string * string) :=
  match piece with
  | [] => None
  | _ =>
      let '(k, v) := split_eq piece in
      match unescape_go true k, unescape_go true v with
      | Some k', Some v' => Some (String.string_of_list_ascii k', String.string_of_list_ascii v')
      | _, _ => None
      end
  end.

(** [parseQuery]: each [key=value] is unescaped and appended to the values
    of [key]; pieces that fail to unescape are skipped. *)
Definition add_pair (m : Values) (piece : list ascii) : Values :=
  match piece_pair piece with
  | Some (key, value) => <[key := default [] (m !! key) ++ [value]]> m
  | None => m
  end.

Definition ParseQuery (q : string) : Values :=
  foldl add_pair ∅ (split_amp [] (String.list_ascii_of_string q)).

(** [u.Query()]. *)
Definition Query (u : URL) : Values := ParseQuery (url_RawQuery u).

(** The values of [key] in the pieces, in the order written. *)
Definition key_values (key : string) (pieces : list (list ascii)) : list string :=
  omap (fun p => match piece_pair p with
                 | Some (k, v) => if bool_decide (k = key) then Some v else None
                 | None => None
                 end) pieces.

(** The values of [key] in a raw query string, in the order written. *)
Definition query_values (key q : string) : list string :=
  key_values key (split_amp [] (String.list_ascii_of_string q)).

(** ** Lemmas *)

Lemma foldl_add_pair m pieces key :
  foldl add_pair m pieces !! key =
  match m !! key, key_values key pieces with
  | None, [] => None
  | o, vs => Some (default [] o ++ vs)
  end.
Proof.
  revert m. induction pieces as [|p ps IH]; intros m; simpl.
  { destruct (m !! key); [by rewrite app_nil_r|done]. }
  rewrite IH. unfold add_pair. destruct (piece_pair p) as [[k v]|]; [|done].
  case_bool_decide as Hk.
  - subst k. rewrite lookup_insert_eq. destruct (m !! key); simpl; by rewrite <- ?app_assoc.
  - by rewrite lookup_insert_ne.
Qed.
