(* ===== verification/Sqlite.v ===== *)
(** * The driver: [src/database/sqlite/sqlite.go]

    Every function of the file, translated one to one.  The receiver
    [*Sqlite] is the record [Sqlite]; a method is a computation of the
    monad [M] on [state], which pairs the receiver with the file system,
    since the driver's database handle reads and writes files.  Statements
    and queries go through the [*sql.DB] model of [SqlEngine], as strings,
    exactly as the Go code builds them. *)

From Stdlib Require Import ZArith Lia Ascii.
From stdpp Require Import base strings list gmap.
From S2P Require Import Prelude GoStrings SqlSyntax SqlEngine Database NetUrl.

(** [var DefaultMigrationsTable = "schema_migrations"] *)
Definition DefaultMigrationsTable : string := "schema_migrations".

(** [type Sqlite struct]; [txid] is an [int64]. *)
Record Sqlite := mk_sqlite {
  db : conn;
  dbPath : string;
  migrationsTable : string;
  locked : bool;
  txid : Z
}.

Definition set_db (s : Sqlite) (c : conn) : Sqlite :=
  mk_sqlite c (dbPath s) (migrationsTable s) (locked s) (txid s).
Definition set_locked (s : Sqlite) (b : bool) : Sqlite :=
  mk_sqlite (db s) (dbPath s) (migrationsTable s) b (txid s).
Definition set_txid (s : Sqlite) (n : Z) : Sqlite :=
  mk_sqlite (db s) (dbPath s) (migrationsTable s) (locked s) n.

(** A driver instance together with the file system it works on. *)
Record state := mk_state { st_fs : fsys; st_drv : Sqlite }.

Abbreviation M := (GoM state goerr).

Definition env_of (st : state) : env := mk_env (st_fs st) (db (st_drv st)).
Definition with_env (st : state) (e : env) : state :=
  mk_state (e_fs e) (set_db (st_drv st) (e_conn e)).
Definition update_drv (f : Sqlite -> Sqlite) (st : state) : state :=
  mk_state (st_fs st) (f (st_drv st)).

(** A raw call on [s.db]: its error is returned unwrapped. *)
Definition on_db {A} (m : GoM env sqlerr A) : M A := fun st =>
  match m (env_of st) with
  | (Ok a, e) => (Ok a, with_env st e)
  | (Err err, e) => (Err (ErrSql err), with_env st e)
  end.

(** The placeholder of the driver's statement templates. *)
Definition MIGRATIONS_TABLE : string := "${MIGRATIONS_TABLE}".

(** [getOptionWithDefault]; [u.Query()] never maps a key to an empty
    slice ([NetUrl.ParseQuery] appends a value with every key), so the
    [values[0]] of the code always exists. *)
Definition getOptionWithDefault (u : URL) (opt dflt : string) : string :=
  match Query u !! opt with
  | None => dflt
  | Some values => match values with v :: _ => v | [] => dflt end
  end.

(** [dberror] *)
Definition dberror (err : sqlerr) (query : string) : goerr := ErrDatabase err query.

(** [func (s *Sqlite) exec(op string, arg ...interface{}) error] *)
Definition exec (op : string) (args : list arg) : M unit := fun st =>
  let op := Replace op MIGRATIONS_TABLE (migrationsTable (st_drv st)) (-1) in
  match DB_Exec op args (env_of st) with
  | (Ok _, e) => (Ok tt, with_env st e)
  | (Err err, e) => (Err (ErrDatabase err op), with_env st e)
  end.

Definition count_query : string :=
  "SELECT COUNT(1) FROM sqlite_master WHERE type = 'table' AND name = $1".

Definition create_query : string :=
  "CREATE TABLE ${MIGRATIONS_TABLE} (version bigint not null primary key, dirty boolean not null)".

(** [ensureVersionTable] *)
Definition ensureVersionTable : M unit := fun st =>
  let query := count_query in
  let '(r, e) := DB_QueryRow query [AText (migrationsTable (st_drv st))] (env_of st) in
  let st := with_env st e in
  match r with
  | Err err => (Err (dberror err query), st)
  | Ok row =>
      match scan_int1 row with
      | Err err => (Err (dberror err query), st)
      | Ok count =>
          if (count =? 1)%Z then (Ok tt, st)
          else (let* _ := exec create_query [] in ret tt) st
      end
  end.

(** [Open]: [sql.Open] only records the path; [db.Ping] opens the file;
    then the version table is ensured. *)
Definition Open (uri : string) (fs : fsys) : result goerr Sqlite * fsys :=
  match Parse uri with
  | Err _ => (Err (ErrURL uri), fs)
  | Ok u =>
      let migTbl := getOptionWithDefault u "x-migrations-table" DefaultMigrationsTable in
      let d := sql_Open (url_Path u) in
      let s := mk_sqlite d (url_Path u) migTbl false 0 in
      match DB_Ping (mk_env fs d) with
      | (Err err, e) => (Err (ErrSql err), e_fs e)
      | (Ok _, e) =>
          match ensureVersionTable (mk_state (e_fs e) (set_db s (e_conn e))) with
          | (Err err, st) => (Err err, st_fs st)
          | (Ok _, st) => (Ok (st_drv st), st_fs st)
          end
      end
  end.

(** [Close] *)
Definition Close : M unit := on_db DB_Close.

(** [Lock]: the flag is set before the two statements run. *)
Definition Lock : M unit := fun st =>
  if locked (st_drv st) then (Err ErrLocked, st)
  else (let* _ := exec "PRAGMA locking_mode = EXCLUSIVE" [] in
        let* _ := exec "BEGIN EXCLUSIVE" [] in
        ret tt) (update_drv (fun s => set_locked s true) st).

(** [Unlock]: the flag is left as it is. *)
Definition Unlock : M unit := fun st =>
  if negb (locked (st_drv st)) then (Ok tt, st)
  else (let* _ := exec "COMMIT" [] in ret tt) st.

(** [Run]: the whole script is passed to [exec]. *)
Definition Run (migration : reader) : M unit :=
  match migration with
  | RFail => throw ErrRead
  | RData buf => exec buf []
  end.

(** [fmt.Sprintf("txn_%d", n)] *)
Definition txname_of (n : Z) : string := "txn_" +:+ FormatInt n.

(** [transactionally]: a fresh savepoint around [thunk]; on any failure,
    the deferred function rolls back to it and its own error is ignored;
    the error of RELEASE is ignored too. *)
Definition transactionally (thunk : M unit) : M unit := fun st0 =>
  let n := add64 (txid (st_drv st0)) 1 in
  let st := update_drv (fun s => set_txid s n) st0 in
  let txname := txname_of n in
  let deferred (r : result goerr unit) (st' : state) :=
    (r, snd (exec ("ROLLBACK TO " +:+ txname) [] st')) in
  match exec ("SAVEPOINT " +:+ txname) [] st with
  | (Err err, st1) => deferred (Err err) st1
  | (Ok _, st1) =>
      match thunk st1 with
      | (Err err, st2) => deferred (Err err) st2
      | (Ok _, st2) => (Ok tt, snd (exec ("RELEASE " +:+ txname) [] st2))
      end
  end.

Definition delete_query : string := "DELETE FROM ${MIGRATIONS_TABLE}".

Definition insert_query : string :=
  "INSERT INTO ${MIGRATIONS_TABLE} (version, dirty) " +:+
  String "010"%char (String "009"%char (String "009"%char (String "009"%char
    "               VALUES ($1, $2)"))).

(** The function literal passed to [transactionally] by [SetVersion]. *)
Definition set_version_body (version : Z) (dirty : bool) : M unit :=
  let* _ := exec delete_query [] in
  if (0 <=? version)%Z then exec insert_query [AInt version; ABool dirty]
  else ret tt.

(** [SetVersion] *)
Definition SetVersion (version : Z) (dirty : bool) : M unit :=
  transactionally (set_version_body version dirty).

Definition version_query (tbl : string) : string :=
  "SELECT version, dirty FROM " +:+ String dquote (tbl +:+ String dquote " LIMIT 1").

(** [Version]: no row is [NilVersion]; any other failure is wrapped with
    the query. *)
Definition Version : M (Z * bool) := fun st =>
  let query := version_query (migrationsTable (st_drv st)) in
  let '(r, e) := DB_QueryRow query [] (env_of st) in
  let st := with_env st e in
  match r with
  | Err ENoRows => (Ok (NilVersion, false), st)
  | Err err => (Err (ErrDatabase err query), st)
  | Ok row =>
      match scan_int_bool row with
      | Ok vd => (Ok vd, st)
      | Err err => (Err (ErrDatabase err query), st)
      end
  end.

(** [Drop]: [os.Remove(s.dbPath)]. *)
Definition Drop : M unit := fun st =>
  match os_Remove (dbPath (st_drv st)) (st_fs st) with
  | Some fs' => (Ok tt, mk_state fs' (st_drv st))
  | None => (Err (ErrRemove (dbPath (st_drv st))), st)
  end.

(** The driver as a [database.Driver]. *)
Definition sqlite_driver : Driver state :=
  mk_driver state Close Lock Unlock Run SetVersion Version Drop.
