(* ===== verification/Demo.v ===== *)
(** * Concrete drivers

    The states the witnesses of the theorems run on, computed once by
    evaluating the driver's own functions: [demo_state] is the driver
    [Open] returns for [sqlite3:///tmp/migrate.db] on an empty file
    system (the file is created with an empty bookkeeping table);
    [demo_state3] is that driver after [SetVersion 3 false], which in
    autocommit mode has been committed to the file. *)

From Stdlib Require Import ZArith Lia Ascii.
From stdpp Require Import base strings list gmap.
From S2P Require Import Prelude GoStrings SqlSyntax SqlEngine Database NetUrl Sqlite.

Definition demo_uri : string := "sqlite3:///tmp/migrate.db".

Definition demo_state : state :=
  Eval vm_compute in
  match Open demo_uri ∅ with
  | (Ok s, fs) => mk_state fs s
  | (Err _, fs) => mk_state fs (mk_sqlite (sql_Open "") "" "" false 0)
  end.

Definition demo_state3 : state := Eval vm_compute in snd (SetVersion 3 false demo_state).

(** Discharge a hypothesis about a concrete state by evaluation. *)
Ltac concrete :=
  vm_compute; repeat split; first [reflexivity | intros ?; discriminate | exact I].

(** [demo_state] is what [Open] returns. *)
Lemma demo_state_open : Open demo_uri ∅ = (Ok (st_drv demo_state), st_fs demo_state).
Proof. vm_compute. reflexivity. Qed.
