(* ===== verification/Statements.v ===== *)
(** * What the driver's statements mean

    The driver's statements are strings; these lemmas compute, for every
    bookkeeping table name that is one SQL word and every non-negative
    savepoint counter, the statement each string parses to after [exec]'s
    placeholder substitution, and reduce [exec] of a single statement to
    the engine's [exec_stmt].  Everything the correctness theorems say
    about [SetVersion], [Version], [Lock] and [Unlock] goes through them.
    The file ends with [exec] against its reference [exec_ref]. *)

From Stdlib Require Import ZArith Lia Ascii.
From stdpp Require Import base strings list gmap.
From S2P Require Import Prelude GoStrings SqlSyntax SqlEngine EngineFacts Database Sqlite.

(** The columns [create_query] declares. *)
Definition version_cols : list coldef :=
  [mk_coldef "version" "bigint" true true; mk_coldef "dirty" "boolean" true false].

(** The reference for [exec]: the statement text with every placeholder
    replaced by the table name in one left-to-right scan, run by
    [db.Exec], its error wrapped with that text. *)
Definition exec_ref (op : string) (args : list arg) : M unit := fun st =>
  let q := replace_all MIGRATIONS_TABLE (migrationsTable (st_drv st)) op in
  match DB_Exec q args (env_of st) with
  | (Ok _, e) => (Ok tt, with_env st e)
  | (Err err, e) => (Err (ErrDatabase err q), with_env st e)
  end.

Lemma is_word_not_placeholder w : is_word w -> w <> MIGRATIONS_TABLE.
Proof.
  intros [_ Hw] ->. apply List.Forall_forall with (x := "{"%char) in Hw; [discriminate|].
  by right; left.
Qed.

(** A string with no [{] is left alone by the substitution. *)
Lemma Replace_no_brace s tbl :
  ~ In "{"%char (String.list_ascii_of_string s) ->
  Replace s MIGRATIONS_TABLE tbl (-1) = s.
Proof.
  intros H. apply Replace_absent. exists "{"%char. split; [by right; left|done].
Qed.

Lemma is_word_no_brace w : is_word w -> ~ In "{"%char (String.list_ascii_of_string w).
Proof.
  intros [_ Hw] Hin. rewrite List.Forall_forall in Hw. specialize (Hw _ Hin). discriminate.
Qed.

(** Unfold the placeholder test of [Replace] for a word. *)
Ltac replace_word Hw :=
  unfold Replace;
  rewrite (proj2 (String.eqb_neq _ _) (not_eq_sym (is_word_not_placeholder _ Hw))).

(** Lex the template around a word. *)
Ltac lex_around :=
  unfold parse_script, tokenize; rewrite ?list_ascii_of_string_app; simpl;
  repeat (rewrite lex_word_split; [| done | intros ? ? [= <- <-]; reflexivity]);
  simpl.

(** [Version]'s query quotes the table name: it parses for every name
    without a double quote. *)
Lemma parse_version_query_quoted tbl :
  no_dquote tbl ->
  parse_script (version_query tbl) = [Some (SQuery (QSelect ["version"; "dirty"] tbl (Some 1)))].
Proof.
  intros Hq. unfold parse_script, tokenize, version_query.
  rewrite list_ascii_of_string_app. simpl.
  rewrite list_ascii_of_string_app. simpl.
  rewrite lex_dquoted_split by done. reflexivity.
Qed.

Section WithTable.
Context (tbl : string) (Htbl : is_word tbl).

Lemma Replace_delete : Replace delete_query MIGRATIONS_TABLE tbl (-1) = "DELETE FROM " +:+ tbl.
  Proof. replace_word Htbl. simpl. by rewrite string_app_nil_r. Qed.

Lemma parse_delete :
    parse_script (Replace delete_query MIGRATIONS_TABLE tbl (-1)) = [Some (SDeleteAll tbl)].
  Proof.
    rewrite Replace_delete. unfold parse_script, tokenize.
    rewrite list_ascii_of_string_app. simpl.
    rewrite <- (app_nil_r (String.list_ascii_of_string tbl)).
    rewrite lex_word_split by (done || by intros ? ? ?). reflexivity.
  Qed.

Lemma parse_insert_query :
    parse_script (Replace insert_query MIGRATIONS_TABLE tbl (-1)) =
    [Some (SInsert tbl (Some ["version"; "dirty"]) [EParam 1; EParam 2])].
  Proof.
    replace_word Htbl. simpl. lex_around. reflexivity.
  Qed.

Lemma parse_create_query :
    parse_script (Replace create_query MIGRATIONS_TABLE tbl (-1)) =
    [Some (SCreateTable tbl version_cols)].
  Proof.
    replace_word Htbl. simpl. lex_around. reflexivity.
  Qed.

Lemma parse_version_query :
    parse_script (version_query tbl) =
    [Some (SQuery (QSelect ["version"; "dirty"] tbl (Some 1)))].
  Proof. apply parse_version_query_quoted, is_word_no_dquote, Htbl. Qed.
End WithTable.

(** ** Savepoint statements *)

Lemma txn_prefix_word : is_word "txn_".
Proof. split; [discriminate|repeat constructor]. Qed.

(** For a non-negative counter, [fmt.Sprintf("txn_%d", n)] is one word. *)
Lemma txname_word n : (0 <= n)%Z -> is_word (txname_of n).
Proof.
  intros Hn. unfold txname_of, FormatInt. destruct (Z.ltb_spec n 0); [lia|].
  apply is_word_app; [apply txn_prefix_word|apply FormatN_word].
Qed.

(** [kw +:+ nm] with a concrete keyword prefix ending in a space and a
    word [nm]: no substitution, and the tokens are the prefix's and [nm]. *)
Ltac name_stmt Hnm :=
  rewrite Replace_no_brace;
  [ unfold parse_script, tokenize; rewrite list_ascii_of_string_app; simpl;
    rewrite <- (app_nil_r (String.list_ascii_of_string _));
    rewrite lex_word_split by (done || by intros ? ? ?); reflexivity
  | rewrite list_ascii_of_string_app; intros [H|H]%in_app_or;
    [ simpl in H; repeat (destruct H as [H|H]; [discriminate|]); destruct H
    | by apply (is_word_no_brace _ Hnm) in H ] ].

Section WithName.
Context (nm tbl : string) (Hnm : is_word nm).

Lemma parse_savepoint :
    parse_script (Replace ("SAVEPOINT " +:+ nm) MIGRATIONS_TABLE tbl (-1)) = [Some (SSavepoint nm)].
  Proof. name_stmt Hnm. Qed.

Lemma parse_release :
    parse_script (Replace ("RELEASE " +:+ nm) MIGRATIONS_TABLE tbl (-1)) = [Some (SRelease nm)].
  Proof. name_stmt Hnm. Qed.

Lemma parse_rollback_to :
    parse_script (Replace ("ROLLBACK TO " +:+ nm) MIGRATIONS_TABLE tbl (-1)) = [Some (SRollbackTo nm)].
  Proof. name_stmt Hnm. Qed.
End WithName.

(** A negative counter prints with a minus sign, which is not a word
    character: the savepoint statements then do not parse. *)
Lemma txname_negative n : (n < 0)%Z -> txname_of n = "txn_" +:+ String "-" (FormatN (Z.abs_N n)).
Proof. intros Hn. unfold txname_of, FormatInt. by rewrite (proj2 (Z.ltb_lt n 0) Hn). Qed.

Ltac negative_name_stmt Hn :=
  rewrite (txname_negative _ Hn), Replace_no_brace;
  [ unfold parse_script, tokenize; rewrite !list_ascii_of_string_app; simpl;
    rewrite <- (app_nil_r (String.list_ascii_of_string (FormatN _)));
    rewrite lex_word_split by (apply FormatN_word || by intros ? ? ?); reflexivity
  | rewrite !list_ascii_of_string_app; simpl; intros H;
    repeat (destruct H as [H|H]; [discriminate|]);
    exact (is_word_no_brace _ (FormatN_word _) H) ].

Lemma parse_savepoint_negative n tbl :
  (n < 0)%Z -> parse_script (Replace ("SAVEPOINT " +:+ txname_of n) MIGRATIONS_TABLE tbl (-1)) = [None].
Proof. intros Hn. negative_name_stmt Hn. Qed.

Lemma parse_rollback_to_negative n tbl :
  (n < 0)%Z -> parse_script (Replace ("ROLLBACK TO " +:+ txname_of n) MIGRATIONS_TABLE tbl (-1)) = [None].
Proof. intros Hn. negative_name_stmt Hn. Qed.

(** The savepoint statements contain no placeholder: [exec] runs them
    as written, for every counter. *)
Lemma Replace_savepoint n tbl :
  Replace ("SAVEPOINT " +:+ txname_of n) MIGRATIONS_TABLE tbl (-1) = "SAVEPOINT " +:+ txname_of n.
Proof.
  apply Replace_no_brace. unfold txname_of, FormatInt. rewrite !list_ascii_of_string_app.
  destruct (n <? 0)%Z; simpl; intros H; repeat (destruct H as [H|H]; [discriminate|]);
    exact (is_word_no_brace _ (FormatN_word _) H).
Qed.

(** ** The constant statements *)

Ltac const_stmt :=
  rewrite Replace_no_brace;
  [reflexivity | simpl; intros H; repeat (destruct H as [H|H]; [discriminate|]); destruct H].

Lemma Replace_begin tbl : Replace "BEGIN EXCLUSIVE" MIGRATIONS_TABLE tbl (-1) = "BEGIN EXCLUSIVE".
Proof. apply Replace_no_brace. simpl. intros H; repeat (destruct H as [H|H]; [discriminate|]); destruct H. Qed.

Lemma Replace_commit tbl : Replace "COMMIT" MIGRATIONS_TABLE tbl (-1) = "COMMIT".
Proof. apply Replace_no_brace. simpl. intros H; repeat (destruct H as [H|H]; [discriminate|]); destruct H. Qed.

Lemma parse_pragma tbl :
  parse_script (Replace "PRAGMA locking_mode = EXCLUSIVE" MIGRATIONS_TABLE tbl (-1)) =
  [Some (SPragmaLockingMode true)].
Proof. const_stmt. Qed.

Lemma parse_begin tbl :
  parse_script (Replace "BEGIN EXCLUSIVE" MIGRATIONS_TABLE tbl (-1)) = [Some (SBegin true)].
Proof. const_stmt. Qed.

Lemma parse_commit tbl :
  parse_script (Replace "COMMIT" MIGRATIONS_TABLE tbl (-1)) = [Some SCommit].
Proof. const_stmt. Qed.

Lemma parse_count_query : parse_script count_query = [Some (SQuery (QCountTable (EParam 1)))].
Proof. reflexivity. Qed.

(** ** [exec] of one statement *)

Lemma with_env_env_of st : with_env st (env_of st) = st.
Proof. by destruct st as [fs [c p t l n]]. Qed.

Lemma exec_single op args st s :
  c_closed (db (st_drv st)) = false ->
  parse_script (Replace op MIGRATIONS_TABLE (migrationsTable (st_drv st)) (-1)) = [Some s] ->
  stmt_params s <= length args ->
  exec op args st =
  match exec_stmt (env_of st) args s with
  | Ok e' => (Ok tt, with_env st e')
  | Err err =>
      (Err (ErrDatabase err (Replace op MIGRATIONS_TABLE (migrationsTable (st_drv st)) (-1))), st)
  end.
Proof.
  intros Hc Hp Ha. unfold exec. rewrite (DB_Exec_single _ _ s) by done.
  destruct (exec_stmt (env_of st) args s); [done|]. by rewrite with_env_env_of.
Qed.

Lemma exec_syntax op args st rest :
  c_closed (db (st_drv st)) = false ->
  parse_script (Replace op MIGRATIONS_TABLE (migrationsTable (st_drv st)) (-1)) = None :: rest ->
  exec op args st =
  (Err (ErrDatabase ESyntax (Replace op MIGRATIONS_TABLE (migrationsTable (st_drv st)) (-1))), st).
Proof.
  intros Hc Hp. unfold exec. rewrite (DB_Exec_syntax _ _ _ rest) by done.
  by rewrite with_env_env_of.
Qed.

Lemma env_of_with_env st e : env_of (with_env st e) = e.
Proof. by destruct e. Qed.

Lemma with_env_with_env st e e' : with_env (with_env st e) e' = with_env st e'.
Proof. reflexivity. Qed.

Lemma set_conn_set_conn e c c' : set_conn (set_conn e c) c' = set_conn e c'.
Proof. reflexivity. Qed.

Lemma with_live_with_live c l l' : with_live (with_live c l) l' = with_live c l'.
Proof. reflexivity. Qed.

#[export] Hint Rewrite env_of_with_env with_env_with_env set_conn_set_conn
  with_live_with_live : migrate_rw.

(** Reduce the first [exec] of the goal, which parses to [stm]. *)
Ltac exec_as stm :=
  match goal with |- context [exec ?op ?a ?s] => rewrite (exec_single op a s stm) end.

(** ** Theorems *)

(** C20: [exec] substitutes every placeholder.  [exec] (sqlite.go,
    lines 119-130) calls [strings.Replace] with the count [-1]; Go's
    algorithm (count the occurrences, then copy and replace that many)
    makes [exec] equal to the reference [exec_ref], which replaces every
    leftmost non-overlapping [${MIGRATIONS_TABLE}] in one scan, on every
    statement text, arguments and state. *)
Theorem exec_replace_all op args st : exec op args st = exec_ref op args st.
Proof. unfold exec, exec_ref. rewrite Replace_replace_all; [reflexivity|discriminate|lia]. Qed.
