(* ===== verification/Transactions.v ===== *)
(** * [transactionally]: savepoints around a body

    [transactionally] ([sqlite.go], lines 172-195) advances the counter,
    opens [SAVEPOINT txn_n], runs its body, and either releases the
    savepoint or, on failure, rolls back to it in the deferred function.
    This file states what that does to the connection for any body that
    only writes the working copy ([body_writes]): on success the view
    becomes the body's working copy, committed at once when the SAVEPOINT
    opened the transaction ([transactionally_commit]); on failure the
    state is exactly the one right after the SAVEPOINT
    ([transactionally_rollback]): the body's writes are undone, but the
    savepoint, and the transaction it may have opened, remain. *)

From Stdlib Require Import ZArith Lia Ascii.
From stdpp Require Import base strings list gmap.
From S2P Require Import Prelude GoStrings SqlSyntax SqlEngine EngineFacts Database Sqlite Demo Statements.

(** The state [st] with the working copy of its connection replaced. *)
Definition set_live (st : state) (l : catalog) : state :=
  with_env st (set_conn (env_of st) (with_live (db (st_drv st)) l)).

(** The connection after its view was replaced by [new] the way a
    successful [transactionally] does it: inside a transaction the working
    copy changes; in autocommit mode the SAVEPOINT opened a transaction
    and its RELEASE committed it. *)
Definition set_view (e : env) (new : catalog) : env :=
  match c_txn (e_conn e) with
  | TNone => commit_txn (set_conn e (with_txn (with_live (e_conn e) new) TImplicit []))
  | _ => set_conn e (with_live (e_conn e) new)
  end.

(** The counter [transactionally] names its savepoint with. *)
Definition next_txid (st : state) : Z := add64 (txid (st_drv st)) 1.

(** The state right after [SAVEPOINT txn_n]: counter advanced, the view
    pushed on the savepoint stack, a transaction opened if none was. *)
Definition after_savepoint (st : state) : state :=
  let c := db (st_drv st) in
  let n := next_txid st in
  with_env (update_drv (fun s => set_txid s n) st)
    (mk_env (st_fs st)
       (mk_conn (c_file c) (c_private c) (view (env_of st))
                (if bool_decide (c_txn c = TNone) then TImplicit else c_txn c)
                ((txname_of n, view (env_of st)) :: c_savepoints c) (c_exclusive c) (c_closed c))).

(** A body that deletes the bookkeeping rows and then fails, as a
    migration script whose reader breaks after a first statement. *)
Definition failing_body : M unit :=
  let* _ := Run (RData "DELETE FROM schema_migrations") in Run RFail.

(** ** Lemmas *)

Lemma view_after_savepoint st : view (env_of (after_savepoint st)) = view (env_of st).
Proof.
  unfold view at 1. simpl. case_bool_decide as Hn; [done|].
  by destruct (c_txn (db (st_drv st))).
Qed.

(** ** The three savepoint statements *)

Section Steps.
Context (st : state).
Local Abbreviation c := (db (st_drv st)).
Hypothesis Hopen : c_closed c = false.

Lemma savepoint_step n :
    (0 <= n)%Z -> conn_ok c ->
    exec ("SAVEPOINT " +:+ txname_of n) [] st =
    (Ok tt, with_env st (mk_env (st_fs st)
       (mk_conn (c_file c) (c_private c) (view (env_of st))
                (if bool_decide (c_txn c = TNone) then TImplicit else c_txn c)
                ((txname_of n, view (env_of st)) :: c_savepoints c) (c_exclusive c) (c_closed c)))).
  Proof.
    intros Hn Hok.
    rewrite (exec_single _ _ _ (SSavepoint (txname_of n)));
      [| done | by apply parse_savepoint, txname_word | simpl; lia].
    by rewrite exec_savepoint.
  Qed.

Lemma release_step nm snap rest :
    is_word nm -> c_savepoints c = (nm, snap) :: rest ->
    exec ("RELEASE " +:+ nm) [] st =
    (Ok tt, with_env st (if bool_decide (rest = [] /\ c_txn c = TImplicit)
                         then commit_txn (env_of st)
                         else set_conn (env_of st) (with_txn c (c_txn c) rest))).
  Proof.
    intros Hnm Hs.
    rewrite (exec_single _ _ _ (SRelease nm)); [| done | by apply parse_release | simpl; lia].
    by rewrite (exec_release_top _ _ _ snap rest).
  Qed.

Lemma rollback_top_step nm snap rest :
    is_word nm -> c_savepoints c = (nm, snap) :: rest ->
    exec ("ROLLBACK TO " +:+ nm) [] st =
    (Ok tt, with_env st (set_conn (env_of st)
       (with_txn (with_live c snap) (c_txn c) ((nm, snap) :: rest)))).
  Proof.
    intros Hnm Hs.
    rewrite (exec_single _ _ _ (SRollbackTo nm)); [| done | by apply parse_rollback_to | simpl; lia].
    rewrite (exec_rollback_to _ _ _ 0 snap); cbn [env_of e_conn]; rewrite ?Hs;
      [reflexivity | apply find_savepoint_top | reflexivity].
  Qed.
End Steps.

(** ** [transactionally] *)

Section Transactionally.
Context (thunk : M unit) (st : state).
Local Abbreviation c := (db (st_drv st)).
Hypothesis Hopen : c_closed c = false.
Hypothesis Hok : conn_ok c.
Hypothesis Htx : (-1 <= txid (st_drv st) < int64_max)%Z.

Lemma next_txid_succ : next_txid st = (txid (st_drv st) + 1)%Z.
  Proof. apply add64_small. unfold int64_min, int64_max in *. lia. Qed.

Lemma next_txid_word : is_word (txname_of (next_txid st)).
  Proof. apply txname_word. rewrite next_txid_succ. lia. Qed.

  (** The SAVEPOINT succeeds: [transactionally] runs its body on
      [after_savepoint st]. *)
Lemma transactionally_unfold :
    transactionally thunk st =
    match thunk (after_savepoint st) with
    | (Err err, st2) =>
        (Err err, snd (exec ("ROLLBACK TO " +:+ txname_of (next_txid st)) [] st2))
    | (Ok _, st2) => (Ok tt, snd (exec ("RELEASE " +:+ txname_of (next_txid st)) [] st2))
    end.
  Proof.
    unfold transactionally. fold (next_txid st).
    rewrite (savepoint_step (update_drv (fun s => set_txid s (next_txid st)) st) Hopen
                            (next_txid st));
      [reflexivity | rewrite next_txid_succ; lia | exact Hok].
  Qed.

  (** A body that succeeds having written [l] to the working copy. *)
Lemma transactionally_commit l :
    thunk (after_savepoint st) = (Ok tt, set_live (after_savepoint st) l) ->
    transactionally thunk st =
    (Ok tt, with_env (update_drv (fun s => set_txid s (next_txid st)) st)
                     (set_view (env_of st) l)).
  Proof.
    intros Hb. rewrite transactionally_unfold, Hb.
    rewrite (release_step (set_live (after_savepoint st) l) Hopen _ (view (env_of st))
                          (c_savepoints c));
      [| apply next_txid_word | reflexivity].
    destruct Hok as [Hnone Himpl]. unfold set_view. cbn [snd].
    destruct (c_txn c) eqn:Ht; simpl; rewrite ?Ht.
    - rewrite (Hnone eq_refl), bool_decide_true by done.
      unfold commit_txn, commit_contents, with_txn, with_live, set_conn. simpl.
      by destruct (c_file c).
    - repeat case_bool_decide; try (exfalso; naive_solver).
      unfold with_live, with_txn, set_conn. simpl. by rewrite Ht.
    - repeat case_bool_decide; try (exfalso; naive_solver).
      unfold with_live, with_txn, set_conn. simpl. by rewrite Ht.
  Qed.

  (** A body that fails having written [l] to the working copy: the
      deferred ROLLBACK TO brings back the state right after the
      SAVEPOINT. *)
Lemma transactionally_err l err :
    thunk (after_savepoint st) = (Err err, set_live (after_savepoint st) l) ->
    transactionally thunk st = (Err err, after_savepoint st).
  Proof.
    intros Hb. rewrite transactionally_unfold, Hb.
    rewrite (rollback_top_step (set_live (after_savepoint st) l) Hopen _ (view (env_of st))
                               (c_savepoints c));
      [reflexivity | apply next_txid_word | reflexivity].
  Qed.
End Transactionally.

(** ** Theorems *)

(** C4: Rollback of a failing body.  When the body of [transactionally]
    fails after writing the working copy, the error is returned, the
    contents the connection sees and the file system are exactly those
    before the call; but the savepoint [txn_n] stays on the stack (ROLLBACK
    TO does not release it), and if no transaction was open, the one the
    SAVEPOINT opened stays open. *)
Theorem transactionally_rollback thunk st l err :
  c_closed (db (st_drv st)) = false -> conn_ok (db (st_drv st)) ->
  (0 <= txid (st_drv st) < int64_max)%Z ->
  thunk (after_savepoint st) = (Err err, set_live (after_savepoint st) l) ->
  let st' := snd (transactionally thunk st) in
  fst (transactionally thunk st) = Err err /\
  view (env_of st') = view (env_of st) /\ st_fs st' = st_fs st /\
  c_savepoints (db (st_drv st')) =
    (txname_of (txid (st_drv st) + 1), view (env_of st)) :: c_savepoints (db (st_drv st)) /\
  c_txn (db (st_drv st')) = (if bool_decide (c_txn (db (st_drv st)) = TNone) then TImplicit
                             else c_txn (db (st_drv st))).
Proof.
  intros Hopen Hok Htx Hb. simpl.
  rewrite (transactionally_err thunk st Hopen Hok ltac:(lia) l err Hb). simpl.
  rewrite <- (next_txid_succ st ltac:(lia)), view_after_savepoint. by repeat split.
Qed.

Lemma transactionally_rollback_witness :
  let st' := snd (transactionally failing_body demo_state3) in
  fst (transactionally failing_body demo_state3) = Err ErrRead /\
  view (env_of st') = view (env_of demo_state3) /\ st_fs st' = st_fs demo_state3 /\
  c_savepoints (db (st_drv st')) =
    (txname_of (txid (st_drv demo_state3) + 1), view (env_of demo_state3))
      :: c_savepoints (db (st_drv demo_state3)) /\
  c_txn (db (st_drv st')) =
    (if bool_decide (c_txn (db (st_drv demo_state3)) = TNone) then TImplicit
     else c_txn (db (st_drv demo_state3))).
Proof.
  apply (transactionally_rollback failing_body demo_state3
           (<["schema_migrations" := mk_table
               [mk_coldef "version" "bigint" true true; mk_coldef "dirty" "boolean" true false]
               []]> ∅) ErrRead).
  - vm_compute. reflexivity.
  - vm_compute. split; intros; first [reflexivity | discriminate].
  - vm_compute. split; [intros; discriminate | reflexivity].
  - vm_compute. reflexivity.
Defined.
