(* ===== verification/VersionTable.v ===== *)
(** * The version table: [ensureVersionTable], [SetVersion], [Version]

    The bookkeeping table holds at most one row [(version, dirty)]
    ([table_ok]); the invariant [wf] of a driver instance asks it of every
    contents the connection keeps (committed, working copy, savepoint
    snapshots), together with an open handle, a table name that is one SQL
    word, the connection invariant, and a non-negative savepoint counter.
    [abs] reads the abstract [(version, dirty)] from what the connection
    sees.  The theorems: [Version] returns [abs] and changes nothing;
    [SetVersion] within the counter's range succeeds and replaces the table
    contents by [rows_of v d]; so [SetVersion] followed by [Version] gives
    back [(v, d)], or [(NilVersion, false)] for a negative [v]. *)

From Stdlib Require Import ZArith Lia Ascii.
From stdpp Require Import base strings list gmap.
From S2P Require Import Prelude GoStrings SqlSyntax SqlEngine EngineFacts Database Sqlite Statements Transactions Demo.

(** The row [SetVersion] inserts: go-sqlite3 binds [dirty] as 1 or 0. *)
Definition row_of (v : Z) (d : bool) : list value := [VInt v; VInt (if d then 1 else 0)%Z].

(** The rows [SetVersion v d] leaves: one row, or none for a negative
    version. *)
Definition rows_of (v : Z) (d : bool) : list (list value) :=
  if (0 <=? v)%Z then [row_of v d] else [].

(** The bookkeeping table exists, with the declared columns and at most
    one row of the shape [SetVersion] writes. *)
Definition table_ok (tbl : string) (cat : catalog) : Prop :=
  exists rows, cat !! tbl = Some (mk_table version_cols rows) /\
    (rows = [] \/ exists v d, rows = [row_of v d]).

(** Every contents the connection can come back to: the committed
    contents, the view statements see (the working copy inside a
    transaction; outside one the working copy is stale and unused) and
    the savepoint snapshots. *)
Definition catalogs (e : env) : list catalog :=
  committed e :: view e :: map snd (c_savepoints (e_conn e)).

Definition store_ok (tbl : string) (e : env) : Prop := Forall (table_ok tbl) (catalogs e).

Record wf (st : state) : Prop := {
  wf_open : c_closed (db (st_drv st)) = false;
  wf_name : is_word (migrationsTable (st_drv st));
  wf_store : store_ok (migrationsTable (st_drv st)) (env_of st);
  wf_conn : conn_ok (db (st_drv st));
  wf_txid : (0 <= txid (st_drv st) <= int64_max)%Z
}.

(** How many more savepoints the counter can name. *)
Definition budget (st : state) : Z := (int64_max - txid (st_drv st))%Z.

Definition abs_rows (rows : list (list value)) : Z * bool :=
  match rows with
  | [VInt v; VInt b] :: _ => (v, (0 <? b)%Z)
  | _ => (NilVersion, false)
  end.

(** The [(version, dirty)] a bookkeeping table [tbl] of [cat] holds. *)
Definition version_in (tbl : string) (cat : catalog) : Z * bool :=
  match cat !! tbl with
  | Some tb => abs_rows (trows tb)
  | None => (NilVersion, false)
  end.

(** The abstract [(version, dirty)] the driver's connection sees. *)
Definition abs (st : state) : Z * bool :=
  version_in (migrationsTable (st_drv st)) (view (env_of st)).

(** ** [SetVersion] *)

Definition new_view (st : state) (v : Z) (d : bool) : catalog :=
  <[migrationsTable (st_drv st) := mk_table version_cols (rows_of v d)]> (view (env_of st)).

(** The connection's database file is still in the file system. *)
Definition file_present (e : env) : Prop :=
  match c_file (e_conn e) with OnDisk p => p ∈ dom (e_fs e) | Private => True end.

(** The orchestrator's successive [SetVersion] calls. *)
Fixpoint SetVersions (l : list (Z * bool)) : M unit :=
  match l with
  | [] => ret tt
  | (v, d) :: l' => let* _ := SetVersion v d in SetVersions l'
  end.

(** ** Lemmas *)

Lemma view_in_catalogs e : view e ∈ catalogs e.
Proof. unfold catalogs. right; left. Qed.

Lemma store_ok_view tbl e : store_ok tbl e -> table_ok tbl (view e).
Proof. intros H. eapply Forall_forall; [exact H|]. apply view_in_catalogs. Qed.

Lemma abs_rows_of v d : abs_rows (rows_of v d) = abstract_set v d.
Proof.
  unfold rows_of, abstract_set, row_of. destruct (0 <=? v)%Z; [|done].
  by destruct d.
Qed.

Lemma col_indices_version : col_indices version_cols ["version"; "dirty"] = Ok [0; 1].
Proof. reflexivity. Qed.

(** [Version] returns the abstract value and changes nothing. *)
Lemma Version_spec st : wf st -> Version st = (Ok (abs st), st).
Proof.
  intros Hwf. pose proof (store_ok_view _ _ (wf_store _ Hwf)) as (rows & Hl & Hrows).
  unfold Version, abs, version_in.
  rewrite (DB_QueryRow_single _ _ (QSelect ["version"; "dirty"] (migrationsTable (st_drv st)) (Some 1)))
    by (apply Hwf || by apply parse_version_query, Hwf).
  unfold eval_query. rewrite Hl.
  destruct Hrows as [-> | (v & d & ->)]; simpl; rewrite with_env_env_of; [done|].
  by destruct d.
Qed.

Section Steps.
Context (st : state).
Local Abbreviation c := (db (st_drv st)).
Local Abbreviation tbl := (migrationsTable (st_drv st)).
Hypothesis Hopen : c_closed c = false.
Hypothesis Hname : is_word tbl.

  (** The body of [SetVersion] inside a transaction. *)
Lemma set_version_body_step v d rows :
    c_txn c <> TNone ->
    c_live c !! tbl = Some (mk_table version_cols rows) ->
    set_version_body v d st =
    (Ok tt, with_env st (set_conn (env_of st)
       (with_live c (<[tbl := mk_table version_cols (rows_of v d)]> (c_live c))))).
  Proof.
    intros Ht Hl. unfold set_version_body, bind.
    rewrite (exec_single _ _ _ (SDeleteAll tbl)); [| done | by apply parse_delete | simpl; lia].
    rewrite exec_data_in_txn by done. simpl. rewrite Hl.
    unfold rows_of. destruct (0 <=? v)%Z.
    - rewrite (exec_single _ _ _ (SInsert tbl (Some ["version"; "dirty"]) [EParam 1; EParam 2]));
        [| done | by apply parse_insert_query | simpl; lia].
      rewrite exec_data_in_txn by done. simpl.
      rewrite lookup_insert_eq. simpl. rewrite insert_insert_eq. by destruct d.
    - reflexivity.
  Qed.

End Steps.

Lemma view_live e : c_txn (e_conn e) <> TNone -> view e = c_live (e_conn e).
Proof. unfold view. by destruct (c_txn (e_conn e)). Qed.

(** [SetVersion] within the counter's range succeeds: it advances the
    counter and replaces the connection's view of the bookkeeping table by
    [rows_of v d], committing at once when no transaction is open.  The
    counter may be [-1], the last value of a wrapped counter. *)
Lemma SetVersion_step st v d :
  c_closed (db (st_drv st)) = false -> is_word (migrationsTable (st_drv st)) ->
  store_ok (migrationsTable (st_drv st)) (env_of st) -> conn_ok (db (st_drv st)) ->
  (-1 <= txid (st_drv st) < int64_max)%Z ->
  SetVersion v d st =
  (Ok tt, with_env (update_drv (fun s => set_txid s (txid (st_drv st) + 1)) st)
                   (set_view (env_of st) (new_view st v d))).
Proof.
  intros Hopen Hname Hstore Hok Htx.
  pose proof (store_ok_view _ _ Hstore) as (rows & Hl & _).
  unfold SetVersion. rewrite <- (next_txid_succ st) by lia.
  apply (transactionally_commit _ st Hopen Hok Htx).
  apply (set_version_body_step (after_savepoint st) Hopen Hname v d rows).
  - simpl. case_bool_decide; [discriminate|done].
  - exact Hl.
Qed.

Lemma SetVersion_spec st v d :
  wf st -> (txid (st_drv st) < int64_max)%Z ->
  SetVersion v d st =
  (Ok tt, with_env (update_drv (fun s => set_txid s (txid (st_drv st) + 1)) st)
                   (set_view (env_of st) (new_view st v d))).
Proof. intros [Hopen Hname Hstore Hok Htx] Hmax. apply SetVersion_step; [done..|lia]. Qed.

(** The committed contents of a file that is no longer in the file system
    are empty; a table in them means the file is there. *)
Lemma committed_lookup_dom e tbl tb p :
  c_file (e_conn e) = OnDisk p -> committed e !! tbl = Some tb -> p ∈ dom (e_fs e).
Proof.
  unfold committed. intros -> H. apply elem_of_dom.
  destruct (e_fs e !! p) eqn:E; [done|]. simpl in H. by rewrite lookup_empty in H.
Qed.

Lemma table_ok_committed_dom e tbl p :
  c_file (e_conn e) = OnDisk p -> table_ok tbl (committed e) -> p ∈ dom (e_fs e).
Proof. intros Hf (rows & Hl & _). by eapply committed_lookup_dom. Qed.

Lemma store_ok_file_present tbl e : store_ok tbl e -> file_present e.
Proof.
  intros Hs. unfold file_present. destruct (c_file (e_conn e)) eqn:Hf; [|done].
  eapply table_ok_committed_dom; [exact Hf|]. by inversion Hs.
Qed.

Ltac unfold_set_view :=
  unfold set_view, commit_txn, commit_contents, with_txn, with_live, set_conn; simpl.

Lemma set_view_txn e new : c_txn (e_conn (set_view e new)) = c_txn (e_conn e).
Proof.
  unfold_set_view. destruct (c_txn (e_conn e)) eqn:Ht; [|done|done].
  by destruct (c_file (e_conn e)).
Qed.

Lemma set_view_live e new : c_live (e_conn (set_view e new)) = new.
Proof.
  unfold_set_view. destruct (c_txn (e_conn e)); [|done|done].
  by destruct (c_file (e_conn e)).
Qed.

Section SetView.
Context (e : env) (new : catalog).
Hypothesis Hpresent : file_present e.

Lemma set_view_committed :
    committed (set_view e new) =
    if bool_decide (c_txn (e_conn e) = TNone) then new else committed e.
  Proof.
    unfold set_view, committed in *. destruct (c_txn (e_conn e)); simpl; [|done|done].
    unfold commit_txn, commit_contents, with_txn, with_live, set_conn. simpl.
    destruct (c_file (e_conn e)) eqn:Hf; simpl; rewrite ?Hf; simpl; [|done].
    rewrite decide_True by (unfold file_present in Hpresent; by rewrite Hf in Hpresent).
    simpl. by rewrite lookup_insert_eq.
  Qed.

Lemma set_view_view : view (set_view e new) = new.
  Proof.
    unfold view. rewrite set_view_txn. destruct (c_txn (e_conn e)) eqn:Ht.
    - rewrite set_view_committed, Ht. by rewrite bool_decide_true.
    - apply set_view_live.
    - apply set_view_live.
  Qed.
End SetView.

Lemma set_view_conn_ok e new : conn_ok (e_conn e) -> conn_ok (e_conn (set_view e new)).
Proof.
  unfold set_view, conn_ok. destruct (c_txn (e_conn e)) eqn:Ht; simpl.
  - unfold commit_txn, commit_contents, with_txn, with_live, set_conn. simpl.
    by destruct (c_file (e_conn e)).
  - unfold with_live. simpl. by rewrite Ht.
  - unfold with_live. simpl. by rewrite Ht.
Qed.

Lemma set_view_closed e new : c_closed (e_conn (set_view e new)) = c_closed (e_conn e).
Proof.
  unfold set_view. destruct (c_txn (e_conn e)); [|done|done].
  unfold commit_txn, commit_contents, with_txn, with_live, set_conn. simpl.
  by destruct (c_file (e_conn e)).
Qed.

Lemma table_ok_new_view st v d : table_ok (migrationsTable (st_drv st)) (new_view st v d).
Proof.
  exists (rows_of v d). split; [apply lookup_insert_eq|].
  unfold rows_of. destruct (0 <=? v)%Z; [right; by exists v, d|by left].
Qed.

Lemma set_view_savepoints e new :
  conn_ok (e_conn e) -> c_savepoints (e_conn (set_view e new)) = c_savepoints (e_conn e).
Proof.
  intros [Hnone _]. unfold_set_view. destruct (c_txn (e_conn e)) eqn:Ht; [|done|done].
  rewrite (Hnone eq_refl). by destruct (c_file (e_conn e)).
Qed.

Lemma set_view_store_ok tbl e new :
  store_ok tbl e -> table_ok tbl new -> conn_ok (e_conn e) -> store_ok tbl (set_view e new).
Proof.
  intros Hs Hn Hok. pose proof (store_ok_file_present _ _ Hs) as Hp.
  unfold store_ok, catalogs in *.
  rewrite (set_view_committed e new Hp), (set_view_view e new Hp), set_view_savepoints by done.
  inversion Hs as [|? ? Hc Hs']; subst. inversion Hs' as [|? ? Hv Hsp]; subst.
  constructor; [by case_bool_decide|by constructor].
Qed.

(** [SetVersion] preserves the invariant. *)
Lemma SetVersion_wf st v d :
  wf st -> (txid (st_drv st) < int64_max)%Z -> wf (snd (SetVersion v d st)).
Proof.
  intros Hwf Hmax. rewrite SetVersion_spec by done. cbn [snd].
  destruct Hwf as [Hopen Hname Hstore Hok Htx]. split.
  - exact (eq_trans (set_view_closed (env_of st) _) Hopen).
  - exact Hname.
  - rewrite env_of_with_env.
    apply set_view_store_ok; [done|exact (table_ok_new_view st v d)|done].
  - by apply set_view_conn_ok.
  - simpl. lia.
Qed.

(** The abstract value after [SetVersion]. *)
Lemma SetVersion_abs st v d :
  wf st -> (txid (st_drv st) < int64_max)%Z ->
  abs (snd (SetVersion v d st)) = abstract_set v d.
Proof.
  intros Hwf Hmax. rewrite SetVersion_spec by done. unfold abs, version_in. cbn [snd].
  rewrite env_of_with_env, set_view_view by (eapply store_ok_file_present, wf_store, Hwf).
  change (migrationsTable (st_drv (with_env _ _))) with (migrationsTable (st_drv st)).
  unfold new_view. rewrite lookup_insert_eq. apply abs_rows_of.
Qed.

(** ** Sequences of [SetVersion] calls *)

Lemma budget_SetVersion st v d :
  wf st -> (txid (st_drv st) < int64_max)%Z ->
  budget (snd (SetVersion v d st)) = (budget st - 1)%Z.
Proof. intros Hwf Hmax. rewrite SetVersion_spec by done. unfold budget. simpl. lia. Qed.

Lemma table_ok_rows tbl cat :
  table_ok tbl cat -> exists tb, cat !! tbl = Some tb /\ length (trows tb) <= 1.
Proof.
  intros (rows & Hl & Hr). exists (mk_table version_cols rows). split; [done|].
  simpl. destruct Hr as [-> | (v & d & ->)]; simpl; lia.
Qed.

(** The shape the [database] package's contract asks of [SetVersion]. *)
Lemma SetVersion_within_budget w v d :
  wf w -> in_int64 v -> (0 < budget w)%Z ->
  fst (SetVersion v d w) = Ok tt /\ wf (snd (SetVersion v d w)) /\
  budget (snd (SetVersion v d w)) = (budget w - 1)%Z.
Proof.
  intros Hw _ Hb. unfold budget in Hb.
  split; [by rewrite SetVersion_spec by (done || lia)|].
  split; [apply SetVersion_wf; (done || lia)|]. apply budget_SetVersion; (done || lia).
Qed.

Lemma SetVersion_abs_budget w v d :
  wf w -> in_int64 v -> (0 < budget w)%Z -> abs (snd (SetVersion v d w)) = abstract_set v d.
Proof. intros Hw _ Hb. unfold budget in Hb. apply SetVersion_abs; (done || lia). Qed.

#[export] Instance sqlite_version_store_inst : VersionStore sqlite_driver wf abs budget.
Proof. split; [exact Version_spec | exact SetVersion_within_budget | exact SetVersion_abs_budget]. Qed.

(** ** The driver [Open] returns on an empty file system is usable *)

Lemma demo_state_wf : wf demo_state.
Proof.
  split.
  - vm_compute. reflexivity.
  - apply (bool_decide_unpack (is_word (migrationsTable (st_drv demo_state)))).
    vm_compute. exact I.
  - unfold store_ok, catalogs.
    replace (c_savepoints (e_conn (env_of demo_state))) with (@nil (string * catalog))
      by (vm_compute; reflexivity).
    simpl. apply List.Forall_cons; [|apply List.Forall_cons; [|apply List.Forall_nil]];
      exists []; (split; [vm_compute; reflexivity|by left]).
  - split; [vm_compute; reflexivity|discriminate].
  - vm_compute. split; discriminate.
Qed.

Lemma demo_state_txid : (txid (st_drv demo_state) < int64_max)%Z.
Proof. vm_compute. reflexivity. Qed.

(** ** Theorems *)

(** C1: Round trip.  On a usable driver whose savepoint counter has not
    reached the top of the [int64] range, [SetVersion v d] succeeds and a
    following [Version] returns [(v, d)], or [(NilVersion, false)] when
    [v] is negative (the table is then empty), without changing the
    state. *)
Theorem SetVersion_Version_roundtrip st v d :
  wf st -> (txid (st_drv st) < int64_max)%Z ->
  fst (SetVersion v d st) = Ok tt /\
  Version (snd (SetVersion v d st)) = (Ok (abstract_set v d), snd (SetVersion v d st)).
Proof.
  intros Hwf Hmax. split; [by rewrite SetVersion_spec|].
  rewrite Version_spec by (by apply SetVersion_wf). by rewrite SetVersion_abs.
Qed.

Lemma SetVersion_Version_roundtrip_witness :
  wf demo_state /\ (txid (st_drv demo_state) < int64_max)%Z /\
  fst (SetVersion 5 true demo_state) = Ok tt /\
  Version (snd (SetVersion 5 true demo_state)) =
  (Ok (abstract_set 5 true), snd (SetVersion 5 true demo_state)).
Proof.
  split; [exact demo_state_wf|]. split; [exact demo_state_txid|].
  exact (SetVersion_Version_roundtrip demo_state 5 true demo_state_wf demo_state_txid).
Defined.

(** C2: Refinement.  The SQLite driver implements the version-store
    contract of the [database] package on usable worlds: [Version] returns
    the abstract value and changes nothing; [SetVersion] within the
    counter's budget succeeds, keeps the world usable, spends one unit of
    budget and sets the abstract value to [abstract_set v d]. *)
Theorem sqlite_version_store : VersionStore sqlite_driver wf abs budget.
Proof.
  split; intros w v; [by apply Version_spec|..]; intros d Hw Hv Hb.
  - by apply SetVersion_within_budget.
  - by apply SetVersion_abs_budget.
Qed.

(** C3: At most one row.  After any sequence of [SetVersion] calls within
    the counter's budget, every call succeeds, the driver stays usable, and
    every contents the connection keeps (committed, working copy, savepoint
    snapshots) has a bookkeeping table with at most one row. *)
Theorem SetVersions_at_most_one_row st l :
  wf st -> (Z.of_nat (length l) <= budget st)%Z ->
  fst (SetVersions l st) = Ok tt /\ wf (snd (SetVersions l st)) /\
  Forall (fun cat => exists tb, cat !! migrationsTable (st_drv st) = Some tb /\
                                length (trows tb) <= 1)
         (catalogs (env_of (snd (SetVersions l st)))).
Proof.
  revert st. induction l as [|[v d] l IH]; intros st Hwf Hb; simpl.
  - split; [done|]. split; [done|].
    eapply Forall_impl; [apply (wf_store _ Hwf)|]. apply table_ok_rows.
  - simpl in Hb. unfold budget in Hb.
    assert (Hmax : (txid (st_drv st) < int64_max)%Z) by lia.
    pose proof (SetVersion_wf st v d Hwf Hmax) as Hwf'.
    pose proof (budget_SetVersion st v d Hwf Hmax) as Hb'.
    assert (Hok : fst (SetVersion v d st) = Ok tt) by (by rewrite SetVersion_spec).
    assert (Htbl : migrationsTable (st_drv (snd (SetVersion v d st))) = migrationsTable (st_drv st))
      by (by rewrite SetVersion_spec).
    unfold bind. destruct (SetVersion v d st) as [r st1]. simpl in *. subst r.
    rewrite <- Htbl. apply IH; [done|]. unfold budget in *. lia.
Qed.

Lemma SetVersions_at_most_one_row_witness :
  let l := [(1%Z, true); (1%Z, false); ((-1)%Z, false); (2%Z, true)] in
  fst (SetVersions l demo_state) = Ok tt /\ wf (snd (SetVersions l demo_state)) /\
  Forall (fun cat => exists tb, cat !! migrationsTable (st_drv demo_state) = Some tb /\
                                length (trows tb) <= 1)
         (catalogs (env_of (snd (SetVersions l demo_state)))).
Proof. apply SetVersions_at_most_one_row; [exact demo_state_wf | concrete]. Defined.
