(* ===== verification/Connection.v ===== *)
(** * The connection manager: [Open], [ensureVersionTable], [Drop]

    [Open] ([sqlite.go], lines 40-70) parses the locator, records the
    path with [sql.Open], opens the file with [Ping] and makes sure the
    bookkeeping table exists ([ensureVersionTable], lines 76-95); [Drop]
    (lines 218-220) removes the file.  The theorems: [ensureVersionTable]
    creates an empty table exactly when none is there, and is idempotent; [Open] establishes
    the invariant [wf] of [VersionTable], so that every theorem stated for
    usable drivers applies to the drivers [Open] returns; after [Drop], a
    new [Open] starts from [NilVersion]; [Version] on a missing table is an
    error; the table option is the first value written in the locator.
    Two divergences from the contract: a locator with an empty path (the
    relative form [sqlite3://foo.db]) opens a private temporary database,
    and a table name whose unquoted CREATE TABLE does not parse makes
    [Open] fail after creating the file. *)

From Stdlib Require Import ZArith Lia Ascii.
From stdpp Require Import base strings list gmap.
From S2P Require Import Prelude GoStrings SqlSyntax SqlEngine EngineFacts Database NetUrl Sqlite Demo Statements Transactions VersionTable.

(** The empty bookkeeping table [create_query] creates. *)
Definition empty_version_table : table := mk_table version_cols [].

(** The contents a connection to [path] finds in [fs]: the file's, or
    nothing for an in-memory database. *)
Definition file_contents (fs : fsys) (path : string) : catalog :=
  committed (mk_env fs (sql_Open path)).

(** ** [ensureVersionTable] *)

Section Ensure.
Context (st : state).
Local Abbreviation tbl := (migrationsTable (st_drv st)).
Hypothesis Hopen : c_closed (db (st_drv st)) = false.
Hypothesis Hnone : c_txn (db (st_drv st)) = TNone.
Hypothesis Hname : is_word tbl.

  (** Outside a transaction: the count query sees the committed contents;
      a missing table is created and committed at once. *)
Lemma ensureVersionTable_spec :
    ensureVersionTable st =
    (Ok tt, if decide (tbl ∈ dom (committed (env_of st))) then st
            else with_env st (commit_contents (env_of st)
                                (<[tbl := empty_version_table]> (committed (env_of st))))).
  Proof.
    unfold ensureVersionTable.
    rewrite (DB_QueryRow_single _ _ (QCountTable (EParam 1))) by (exact Hopen || apply parse_count_query).
    unfold eval_query, view. simpl. rewrite Hnone.
    destruct (decide (tbl ∈ dom (committed (env_of st)))) as [Hin|Hin]; simpl.
    - by rewrite with_env_env_of.
    - unfold bind. rewrite with_env_env_of.
      exec_as (SCreateTable tbl version_cols); [| done | by apply parse_create_query | simpl; lia].
      unfold exec_stmt, exec_data, write_view, view. cbn [env_of e_conn]. rewrite Hnone.
      rewrite decide_False by done. reflexivity.
  Qed.
  (** A missing table whose CREATE text does not parse: the syntax error
      is returned, and nothing changes. *)
Lemma ensureVersionTable_syntax rest :
    tbl ∉ dom (committed (env_of st)) ->
    parse_script (Replace create_query MIGRATIONS_TABLE tbl (-1)) = None :: rest ->
    ensureVersionTable st = (Err (ErrDatabase ESyntax (Replace create_query MIGRATIONS_TABLE tbl (-1))), st).
  Proof.
    intros Hin Hsyn. unfold ensureVersionTable.
    rewrite (DB_QueryRow_single _ _ (QCountTable (EParam 1))) by (exact Hopen || apply parse_count_query).
    unfold eval_query, view. simpl. rewrite Hnone.
    destruct (decide (tbl ∈ dom (committed (env_of st)))) as [Hin'|_]; [contradiction|]. simpl.
    unfold bind. rewrite with_env_env_of. by rewrite (exec_syntax _ _ _ rest Hopen Hsyn).
  Qed.
End Ensure.

Lemma committed_commit_contents e cat :
  file_present e -> committed (commit_contents e cat) = cat.
Proof.
  destruct e as [fs [[p|] pr l t sps x cl]]; unfold file_present; simpl; intros Hp; [|done].
  unfold committed. simpl. rewrite decide_True by done. by rewrite lookup_insert_eq.
Qed.

Lemma file_present_commit_contents e cat : file_present e -> file_present (commit_contents e cat).
Proof.
  destruct e as [fs [[p|] pr l t sps x cl]]; unfold file_present, commit_contents; simpl;
    intros Hp; [|done].
  rewrite decide_True by done. apply elem_of_dom. by rewrite lookup_insert_eq.
Qed.

Lemma table_ok_empty tbl cat : table_ok tbl (<[tbl := empty_version_table]> cat).
Proof. exists []. split; [apply lookup_insert_eq|by left]. Qed.

(** A connection outside any transaction whose committed contents hold a
    well-formed table is usable. *)
Lemma wf_autocommit st :
  c_closed (db (st_drv st)) = false -> c_txn (db (st_drv st)) = TNone ->
  c_savepoints (db (st_drv st)) = [] -> is_word (migrationsTable (st_drv st)) ->
  (0 <= txid (st_drv st) <= int64_max)%Z ->
  table_ok (migrationsTable (st_drv st)) (committed (env_of st)) -> wf st.
Proof.
  intros Hc Ht Hs Hn Htx Hok. split; try done.
  - unfold store_ok, catalogs, view. cbn [env_of e_conn]. rewrite Ht, Hs. by repeat constructor.
  - split; [done|by rewrite Ht].
Qed.

Section Fresh.
Context (st : state).
Local Abbreviation tbl := (migrationsTable (st_drv st)).
Hypothesis Hopen : c_closed (db (st_drv st)) = false.
Hypothesis Hnone : c_txn (db (st_drv st)) = TNone.
Hypothesis Hsps : c_savepoints (db (st_drv st)) = [].
Hypothesis Hname : is_word tbl.
Hypothesis Htx : (0 <= txid (st_drv st) <= int64_max)%Z.
Hypothesis Hpresent : file_present (env_of st).
Hypothesis Hexist : tbl ∈ dom (committed (env_of st)) -> table_ok tbl (committed (env_of st)).

  (** [ensureVersionTable] leaves a usable driver, with the same record
      fields but the handle, and no transaction open. *)
Lemma ensureVersionTable_wf :
    fst (ensureVersionTable st) = Ok tt /\ wf (snd (ensureVersionTable st)) /\
    st_drv (snd (ensureVersionTable st)) = set_db (st_drv st) (db (st_drv (snd (ensureVersionTable st)))) /\
    c_txn (db (st_drv (snd (ensureVersionTable st)))) = TNone.
  Proof.
    rewrite ensureVersionTable_spec by done. cbn [fst snd].
    destruct (decide _) as [Hin|Hin].
    - split; [done|]. split; [apply wf_autocommit; auto|].
      split; [by destruct st as [? []]|done].
    - destruct (commit_contents_conn (env_of st) (<[tbl := empty_version_table]> (committed (env_of st))))
        as (_ & Ht & Hs & Hc).
      split; [done|]. split; [|split; [reflexivity|simpl; by rewrite Ht]].
      apply wf_autocommit; [simpl; by rewrite Hc | simpl; by rewrite Ht | simpl; by rewrite Hs
                           | done | done |].
      rewrite env_of_with_env, committed_commit_contents by done. apply table_ok_empty.
  Qed.

  (** The driver then reads the version the committed contents held, or
      [NilVersion] when they held no bookkeeping table. *)
Lemma ensureVersionTable_abs :
    abs (snd (ensureVersionTable st)) = version_in tbl (committed (env_of st)).
  Proof.
    rewrite ensureVersionTable_spec by done. cbn [snd]. destruct (decide _) as [Hin|Hin].
    - unfold abs, view. cbn [env_of e_conn]. by rewrite Hnone.
    - destruct (commit_contents_conn (env_of st) (<[tbl := empty_version_table]> (committed (env_of st))))
        as (_ & Ht & _).
      unfold abs, view. rewrite env_of_with_env, Ht. cbn [env_of e_conn].
      rewrite Hnone, committed_commit_contents by done.
      change (migrationsTable (st_drv (with_env st ?e))) with (migrationsTable (st_drv st)).
      unfold version_in. rewrite lookup_insert_eq. apply not_elem_of_dom in Hin. by rewrite Hin.
  Qed.
End Fresh.

(** ** [Open] *)

(** [Ping] creates a missing file and changes nothing else. *)
Lemma Ping_sql_Open path fs :
  exists fs1, DB_Ping (mk_env fs (sql_Open path)) = (Ok tt, mk_env fs1 (sql_Open path)) /\
    file_present (mk_env fs1 (sql_Open path)) /\
    file_contents fs1 path = file_contents fs path.
Proof.
  unfold DB_Ping, file_contents, file_present, committed, sql_Open. simpl.
  case_bool_decide; [by exists fs|]. destruct (decide (path ∈ dom fs)) as [Hin|Hin].
  - by exists fs.
  - exists (<[path := ∅]> fs). split; [done|]. split.
    + apply elem_of_dom. by rewrite lookup_insert_eq.
    + rewrite lookup_insert_eq. apply not_elem_of_dom in Hin. by rewrite Hin.
Qed.

Lemma eta_state st : mk_state (st_fs st) (st_drv st) = st.
Proof. by destruct st. Qed.

(** [Open] of a parsed locator is [ensureVersionTable] on a fresh driver
    whose file exists. *)
Lemma Open_ensure uri fs u :
  Parse uri = Ok u ->
  exists fs1, file_present (mk_env fs1 (sql_Open (url_Path u))) /\
    file_contents fs1 (url_Path u) = file_contents fs (url_Path u) /\
    Open uri fs =
    match ensureVersionTable
            (mk_state fs1 (mk_sqlite (sql_Open (url_Path u)) (url_Path u)
                             (getOptionWithDefault u "x-migrations-table" DefaultMigrationsTable)
                             false 0)) with
    | (Err err, st) => (Err err, st_fs st)
    | (Ok _, st) => (Ok (st_drv st), st_fs st)
    end.
Proof.
  intros Hp. destruct (Ping_sql_Open (url_Path u) fs) as (fs1 & Hping & Hpres & Hc).
  exists fs1. split; [done|]. split; [done|]. unfold Open. by rewrite Hp, Hping.
Qed.

Section OpenFacts.
Context (uri : string) (fs : fsys) (u : URL).
Local Abbreviation tbl := (getOptionWithDefault u "x-migrations-table" DefaultMigrationsTable).
Local Abbreviation path := (url_Path u).
Hypothesis Hparse : Parse uri = Ok u.
Hypothesis Hname : is_word tbl.

  (** On a parsed locator with a word table name, and a file whose
      bookkeeping table, if it has one, is well formed, [Open] returns a
      usable, unlocked driver outside any transaction, which reads the
      version the file holds ([NilVersion] when it has no bookkeeping
      table). *)
Lemma Open_spec :
    (tbl ∈ dom (file_contents fs path) -> table_ok tbl (file_contents fs path)) ->
    exists s fs', Open uri fs = (Ok s, fs') /\ wf (mk_state fs' s) /\
      locked s = false /\ txid s = 0%Z /\ c_txn (db s) = TNone /\
      migrationsTable s = tbl /\ dbPath s = path /\
      abs (mk_state fs' s) = version_in tbl (file_contents fs path).
  Proof.
    intros Hex. destruct (Open_ensure uri fs u Hparse) as (fs1 & Hpres & Hc & ->).
    set (st0 := mk_state fs1 (mk_sqlite (sql_Open path) path tbl false 0)).
    assert (Hc0 : committed (env_of st0) = file_contents fs path) by exact Hc.
    pose proof (ensureVersionTable_abs st0 eq_refl eq_refl Hname Hpres) as Habs.
    destruct (ensureVersionTable_wf st0) as (Hok & Hwf & Hdrv & Ht);
      try done; try (rewrite Hc0; exact Hex); try (unfold int64_max; simpl; lia).
    destruct (ensureVersionTable st0) as [r st1]. simpl in *. subst r.
    exists (st_drv st1), (st_fs st1). rewrite eta_state, Hdrv.
    do 7 (split; [done|]). rewrite Hc0 in Habs. exact Habs.
  Qed.
  (** An empty path: [sql.Open("")] is a private temporary database, and
      the file system is left alone. *)
Lemma Open_private :
    path = "" -> exists s, Open uri fs = (Ok s, fs) /\ c_file (db s) = Private.
  Proof.
    intros Hpath. unfold Open. rewrite Hparse, Hpath. unfold sql_Open.
    rewrite bool_decide_true by (left; done). cbn [DB_Ping e_conn c_closed c_file e_fs].
    match goal with |- context [ensureVersionTable ?st0] =>
      rewrite (ensureVersionTable_spec st0 eq_refl eq_refl Hname) end.
    case_decide; eexists; split; reflexivity.
  Qed.
End OpenFacts.

Lemma file_contents_private fs : file_contents fs "" = ∅.
Proof. unfold file_contents, committed, sql_Open. by rewrite bool_decide_true by (left; done). Qed.

Lemma file_contents_delete fs p : file_contents (delete p fs) p = ∅.
Proof.
  unfold file_contents, committed, sql_Open. simpl. case_bool_decide; [done|].
  simpl. by rewrite lookup_delete_eq.
Qed.

Lemma file_contents_empty p : file_contents ∅ p = ∅.
Proof. unfold file_contents, committed, sql_Open. simpl. by case_bool_decide. Qed.

Lemma version_in_empty tbl : version_in tbl ∅ = (NilVersion, false).
Proof. reflexivity. Qed.

(** [Drop] of a usable driver on a file removes it. *)
Lemma Drop_spec st :
  wf st -> c_file (db (st_drv st)) = OnDisk (dbPath (st_drv st)) ->
  Drop st = (Ok tt, mk_state (delete (dbPath (st_drv st)) (st_fs st)) (st_drv st)).
Proof.
  intros Hwf Hf. pose proof (store_ok_file_present _ _ (wf_store _ Hwf)) as Hp.
  unfold file_present in Hp. simpl in Hp. rewrite Hf in Hp.
  unfold Drop, os_Remove. by rewrite decide_True.
Qed.

(** ** Theorems *)

(** C12: [Open] establishes the invariant.  For a locator that parses,
    with a table name that is one SQL word, on a file whose bookkeeping
    table (if any) is well formed, [Open] returns a usable, unlocked
    driver outside any transaction, and its [Version] reads the version
    the file holds: [NilVersion] when the file has no bookkeeping table. *)
Theorem Open_usable uri fs u :
  Parse uri = Ok u ->
  is_word (getOptionWithDefault u "x-migrations-table" DefaultMigrationsTable) ->
  (getOptionWithDefault u "x-migrations-table" DefaultMigrationsTable
     ∈ dom (file_contents fs (url_Path u)) ->
   table_ok (getOptionWithDefault u "x-migrations-table" DefaultMigrationsTable)
            (file_contents fs (url_Path u))) ->
  exists s fs', Open uri fs = (Ok s, fs') /\ wf (mk_state fs' s) /\
    locked s = false /\ c_txn (db s) = TNone /\
    Version (mk_state fs' s) =
    (Ok (version_in (getOptionWithDefault u "x-migrations-table" DefaultMigrationsTable)
                    (file_contents fs (url_Path u))), mk_state fs' s).
Proof.
  intros Hp Hw Hex.
  destruct (Open_spec uri fs u Hp Hw Hex) as (s & fs' & Ho & Hwf & Hl & _ & Ht & Htbl & _ & Habs).
  exists s, fs'. rewrite Version_spec, Habs by done. do 4 (split; [done|]). done.
Qed.

Lemma Open_usable_witness :
  exists s fs', Open demo_uri ∅ = (Ok s, fs') /\ wf (mk_state fs' s) /\
    locked s = false /\ c_txn (db s) = TNone /\
    Version (mk_state fs' s) = (Ok (NilVersion, false), mk_state fs' s).
Proof.
  rewrite <- (version_in_empty "schema_migrations"),
          <- (file_contents_empty "/tmp/migrate.db").
  apply (Open_usable demo_uri ∅ (mk_url "sqlite3" "" "" "/tmp/migrate.db" "" "")).
  - vm_compute. reflexivity.
  - apply (bool_decide_unpack _). vm_compute. exact I.
  - rewrite file_contents_empty, dom_empty_L. intros H. by apply not_elem_of_empty in H.
Defined.

(** C13: [Drop] starts over.  [Drop] of a usable driver on a file
    succeeds, and a new [Open] of the same path then reads [NilVersion]
    from a fresh bookkeeping table. *)
Theorem Drop_then_Open_fresh st uri u :
  wf st -> c_file (db (st_drv st)) = OnDisk (dbPath (st_drv st)) ->
  Parse uri = Ok u -> url_Path u = dbPath (st_drv st) ->
  is_word (getOptionWithDefault u "x-migrations-table" DefaultMigrationsTable) ->
  fst (Drop st) = Ok tt /\
  exists s fs', Open uri (st_fs (snd (Drop st))) = (Ok s, fs') /\ wf (mk_state fs' s) /\
    Version (mk_state fs' s) = (Ok (NilVersion, false), mk_state fs' s).
Proof.
  intros Hwf Hf Hp Hpath Hw. rewrite Drop_spec by done. split; [done|]. simpl.
  rewrite <- Hpath.
  destruct (Open_spec uri (delete (url_Path u) (st_fs st)) u Hp Hw) as (s & fs' & Ho & Hwf' & _ & _ & _ & _ & _ & Habs).
  { rewrite file_contents_delete, dom_empty_L. intros H. by apply not_elem_of_empty in H. }
  exists s, fs'. rewrite Version_spec, Habs, file_contents_delete by done. do 2 (split; [done|]). done.
Qed.

Lemma Drop_then_Open_fresh_witness :
  fst (Drop demo_state3) = Ok tt /\
  exists s fs', Open demo_uri (st_fs (snd (Drop demo_state3))) = (Ok s, fs') /\
    wf (mk_state fs' s) /\ Version (mk_state fs' s) = (Ok (NilVersion, false), mk_state fs' s).
Proof.
  apply (Drop_then_Open_fresh demo_state3 demo_uri (mk_url "sqlite3" "" "" "/tmp/migrate.db" "" "")).
  - apply (SetVersion_wf demo_state 3 false demo_state_wf demo_state_txid).
  - concrete.
  - concrete.
  - concrete.
  - apply (bool_decide_unpack _). vm_compute. exact I.
Defined.

(** C14: [Version] on a missing table.  When the bookkeeping table has
    been dropped (for instance by a migration script), [Version] returns a
    [database.Error] carrying [ENoTable] and the query text, and changes
    nothing. *)
Theorem Version_missing_table st :
  c_closed (db (st_drv st)) = false -> is_word (migrationsTable (st_drv st)) ->
  view (env_of st) !! migrationsTable (st_drv st) = None ->
  Version st = (Err (ErrDatabase (ENoTable (migrationsTable (st_drv st)))
                                 (version_query (migrationsTable (st_drv st)))), st).
Proof.
  intros Hc Hw Hn. unfold Version.
  rewrite (DB_QueryRow_single _ _ (QSelect ["version"; "dirty"] (migrationsTable (st_drv st)) (Some 1)))
    by (exact Hc || by apply parse_version_query).
  unfold eval_query. rewrite Hn. simpl. by rewrite with_env_env_of.
Qed.

Lemma Version_missing_table_witness :
  let st := snd (Run (RData "DROP TABLE schema_migrations") demo_state) in
  Version st = (Err (ErrDatabase (ENoTable (migrationsTable (st_drv st)))
                                 (version_query (migrationsTable (st_drv st)))), st).
Proof.
  apply Version_missing_table; [concrete | apply (bool_decide_unpack _); vm_compute; exact I | concrete].
Defined.

(** C15: A relative locator opens a temporary database.  When the
    locator's path is empty, as in [sqlite3://foo.db] where the name is
    the URL's host, [Open] hands [""] to [sql.Open], which opens a
    private temporary database: [Open] succeeds without touching the file
    system, the driver is usable and reads [NilVersion] whatever file of
    that name exists, its data is lost on [Close], and [Drop] fails on
    the empty path. *)
Theorem Open_relative_locator uri fs u :
  Parse uri = Ok u -> url_Path u = "" ->
  is_word (getOptionWithDefault u "x-migrations-table" DefaultMigrationsTable) ->
  exists s, Open uri fs = (Ok s, fs) /\ wf (mk_state fs s) /\ c_file (db s) = Private /\
    dbPath s = "" /\ abs (mk_state fs s) = (NilVersion, false) /\
    ("" ∉ dom fs -> Drop (mk_state fs s) = (Err (ErrRemove ""), mk_state fs s)).
Proof.
  intros Hp Hpath Hn.
  destruct (Open_spec uri fs u Hp Hn) as (s & fs' & HO & Hwf & _ & _ & _ & _ & Hdp & Habs).
  { rewrite Hpath, file_contents_private, dom_empty_L. set_solver. }
  destruct (Open_private uri fs u Hp Hn Hpath) as (s' & HO' & Hf).
  rewrite HO' in HO. injection HO as <- <-. rewrite Hpath in Hdp.
  exists s'. split; [done|]. split; [done|]. split; [done|]. split; [done|].
  split; [by rewrite Habs, Hpath, file_contents_private|].
  intros Hnot. unfold Drop, os_Remove. simpl. rewrite Hdp. by rewrite decide_False.
Qed.

Lemma Open_relative_locator_witness :
  Parse "sqlite3://foo.db" = Ok (mk_url "sqlite3" "" "foo.db" "" "" "") /\
  exists s, Open "sqlite3://foo.db" ∅ = (Ok s, ∅) /\ wf (mk_state ∅ s) /\ c_file (db s) = Private /\
    dbPath s = "" /\ abs (mk_state ∅ s) = (NilVersion, false) /\
    ("" ∉ dom (∅ : fsys) -> Drop (mk_state ∅ s) = (Err (ErrRemove ""), mk_state ∅ s)).
Proof.
  split; [vm_compute; reflexivity|].
  apply (Open_relative_locator "sqlite3://foo.db" ∅ (mk_url "sqlite3" "" "foo.db" "" "" ""));
    [vm_compute; reflexivity | reflexivity | apply (bool_decide_unpack _); vm_compute; exact I].
Defined.

(** C16: The table name is pasted unquoted into CREATE TABLE.  When the
    bookkeeping table is missing and the CREATE statement, with the name
    of [x-migrations-table] substituted, does not parse (as with
    [?x-migrations-table=my-table], which is not one SQL word, though
    [Version]'s query quotes it and would accept it), [Open] fails with
    that syntax error; the database file has been created by then, and
    its contents are unchanged. *)
Theorem Open_unquoted_table_name uri fs u rest :
  Parse uri = Ok u ->
  getOptionWithDefault u "x-migrations-table" DefaultMigrationsTable
    ∉ dom (file_contents fs (url_Path u)) ->
  parse_script (Replace create_query MIGRATIONS_TABLE
                  (getOptionWithDefault u "x-migrations-table" DefaultMigrationsTable) (-1))
    = None :: rest ->
  exists fs1,
    Open uri fs = (Err (ErrDatabase ESyntax
                          (Replace create_query MIGRATIONS_TABLE
                             (getOptionWithDefault u "x-migrations-table" DefaultMigrationsTable) (-1))),
                   fs1) /\
    file_present (mk_env fs1 (sql_Open (url_Path u))) /\
    file_contents fs1 (url_Path u) = file_contents fs (url_Path u).
Proof.
  intros Hp Hin Hsyn. destruct (Open_ensure uri fs u Hp) as (fs1 & Hpres & Hc & ->).
  exists fs1. split; [|done].
  match goal with |- context [ensureVersionTable ?st0] =>
    rewrite (ensureVersionTable_syntax st0 eq_refl eq_refl rest); [done| |exact Hsyn] end.
  change (committed _) with (file_contents fs1 (url_Path u)). by rewrite Hc.
Qed.

Lemma Open_unquoted_table_name_witness :
  let u := mk_url "sqlite3" "" "" "/tmp/m.db" "x-migrations-table=my-table" "" in
  let uri := "sqlite3:///tmp/m.db?x-migrations-table=my-table" in
  let q := Replace create_query MIGRATIONS_TABLE
             (getOptionWithDefault u "x-migrations-table" DefaultMigrationsTable) (-1) in
  Parse uri = Ok u /\
  q = "CREATE TABLE my-table (version bigint not null primary key, dirty boolean not null)" /\
  exists fs1, Open uri ∅ = (Err (ErrDatabase ESyntax q), fs1) /\
    file_present (mk_env fs1 (sql_Open (url_Path u))) /\
    file_contents fs1 (url_Path u) = file_contents ∅ (url_Path u).
Proof.
  intros u uri q. split; [vm_compute; reflexivity|]. split; [vm_compute; reflexivity|].
  apply (Open_unquoted_table_name uri ∅ u []);
    [vm_compute; reflexivity | rewrite file_contents_empty; set_solver | vm_compute; reflexivity].
Defined.

(** C22: [ensureVersionTable] is idempotent.  On an open handle outside
    a transaction whose database file is present, [ensureVersionTable]
    succeeds; a second call succeeds and changes nothing; afterwards the
    bookkeeping table exists, and if it was missing it is the empty table
    of [create_query], committed. *)
Theorem ensureVersionTable_idempotent st :
  c_closed (db (st_drv st)) = false -> c_txn (db (st_drv st)) = TNone ->
  is_word (migrationsTable (st_drv st)) -> file_present (env_of st) ->
  let st1 := snd (ensureVersionTable st) in
  fst (ensureVersionTable st) = Ok tt /\ ensureVersionTable st1 = (Ok tt, st1) /\
  (migrationsTable (st_drv st) ∉ dom (committed (env_of st)) ->
   committed (env_of st1) !! migrationsTable (st_drv st) = Some empty_version_table).
Proof.
  intros Hopen Hnone Hname Hfile st1. subst st1.
  rewrite (ensureVersionTable_spec st Hopen Hnone Hname). cbn [fst snd].
  case_decide as Hin.
  - split; [done|]. split; [|done]. rewrite (ensureVersionTable_spec st Hopen Hnone Hname).
    by rewrite decide_True.
  - destruct (commit_contents_conn (env_of st) (<[migrationsTable (st_drv st) := empty_version_table]>
                                                  (committed (env_of st)))) as (_ & Ht & _ & Hc).
    assert (Hcom : committed (env_of (with_env st (commit_contents (env_of st)
                     (<[migrationsTable (st_drv st) := empty_version_table]> (committed (env_of st))))))
                   = <[migrationsTable (st_drv st) := empty_version_table]> (committed (env_of st)))
      by (rewrite env_of_with_env; by apply committed_commit_contents).
    split; [done|]. split; [|intros _; rewrite Hcom; apply lookup_insert_eq].
    rewrite ensureVersionTable_spec; cbn [with_env st_drv set_db db migrationsTable];
      try first [done | rewrite Hc; exact Hopen | rewrite Ht; exact Hnone].
    rewrite Hcom, decide_True; [done|]. apply elem_of_dom. by rewrite lookup_insert_eq.
Qed.

Lemma ensureVersionTable_idempotent_witness :
  let st := mk_state {["/tmp/x.db" := ∅]}
                     (mk_sqlite (sql_Open "/tmp/x.db") "/tmp/x.db" "schema_migrations" false 0) in
  c_closed (db (st_drv st)) = false /\ c_txn (db (st_drv st)) = TNone /\
  is_word (migrationsTable (st_drv st)) /\ file_present (env_of st) /\
  (let st1 := snd (ensureVersionTable st) in
   fst (ensureVersionTable st) = Ok tt /\ ensureVersionTable st1 = (Ok tt, st1) /\
   (migrationsTable (st_drv st) ∉ dom (committed (env_of st)) ->
    committed (env_of st1) !! migrationsTable (st_drv st) = Some empty_version_table)).
Proof.
  intros st.
  assert (Hname : is_word (migrationsTable (st_drv st))) by exact (wf_name _ demo_state_wf).
  assert (Hfile : file_present (env_of st))
    by (unfold file_present; simpl; by rewrite dom_singleton_L, elem_of_singleton).
  do 4 (split; [first [reflexivity | assumption]|]).
  apply ensureVersionTable_idempotent; first [reflexivity | assumption].
Defined.

(** C26: The table option is the first one written.  For every locator,
    [getOptionWithDefault u opt dflt] is the first value given for [opt]
    in the query string, in the order written (later repetitions are
    ignored; an empty value [opt=] gives the empty name, not the
    default), and [dflt] when the query has no piece for [opt]. *)
Theorem getOptionWithDefault_first u opt dflt :
  getOptionWithDefault u opt dflt = default dflt (head (query_values opt (url_RawQuery u))).
Proof.
  unfold getOptionWithDefault, Query, ParseQuery, query_values.
  rewrite foldl_add_pair, lookup_empty. by destruct (key_values _ _).
Qed.
