(* ===== verification/Locking.v ===== *)
(** * The lock: [Lock] and [Unlock]

    [Lock] ([sqlite.go], lines 105-117) sets the flag [locked], switches
    the connection to exclusive locking mode and opens [BEGIN EXCLUSIVE];
    [Unlock] (lines 134-142) commits that transaction.  The theorems: a
    locked session writes nothing to the file system until [Unlock], which
    then makes the last version written durable; [Lock] on a locked driver
    fails and changes nothing; and the divergences from the contract: the
    flag is never cleared by [Unlock] nor by any other method, so that
    after a [Lock] every later [Lock] of the instance fails, whatever
    calls ([call], [run_calls]) the client makes in between; a [Lock]
    whose statements fail leaves it set; and a migration script that
    commits ends the lock's transaction, so that [Unlock] fails. *)

From Stdlib Require Import ZArith Lia Ascii.
From stdpp Require Import base strings list gmap.
From S2P Require Import Prelude GoStrings SqlSyntax SqlEngine EngineFacts Database Sqlite Demo Statements Transactions VersionTable.

(** The state after a successful [Lock] from autocommit mode. *)
Definition locked_state (st : state) : state :=
  let c := db (st_drv st) in
  with_env (update_drv (fun s => set_locked s true) st)
    (set_conn (env_of st) (with_txn (with_live (with_exclusive c true) (committed (env_of st)))
                                    TExplicit [])).

(** The version a fresh connection reads from the file: the abstract
    value of the committed contents. *)
Definition durable (st : state) : Z * bool :=
  version_in (migrationsTable (st_drv st)) (committed (env_of st)).

(** The abstract value after the calls [SetVersion v d] of [l]. *)
Definition final_abs (l : list (Z * bool)) (a : Z * bool) : Z * bool :=
  fold_left (fun _ vd => abstract_set vd.1 vd.2) l a.

(** The driver's [locked] flag has the value [b]. *)
Definition locked_is (b : bool) (st : state) : Prop := locked (st_drv st) = b.

(** A client's call on the driver: a method of [database.Driver]. *)
Inductive call : Type :=
  | CClose | CLock | CUnlock | CRun (r : reader) | CSetVersion (v : Z) (d : bool)
  | CVersion | CDrop.

Definition run_call (c : call) : M unit :=
  match c with
  | CClose => Close
  | CLock => Lock
  | CUnlock => Unlock
  | CRun r => Run r
  | CSetVersion v d => SetVersion v d
  | CVersion => let* _ := Version in ret tt
  | CDrop => Drop
  end.

(** Calls made one after the other on the same instance, each on the
    state the previous one left, whatever their results. *)
Fixpoint run_calls (l : list call) (st : state) : state :=
  match l with
  | [] => st
  | c :: l' => run_calls l' (snd (run_call c st))
  end.

Section LockSteps.
Context (st : state).
Local Abbreviation c := (db (st_drv st)).
Hypothesis Hopen : c_closed c = false.

Lemma Lock_spec :
    locked (st_drv st) = false -> c_txn c = TNone ->
    Lock st = (Ok tt, locked_state st).
  Proof.
    intros Hl Ht. unfold Lock. rewrite Hl. unfold bind; cbv beta.
    exec_as (SPragmaLockingMode true); [| done | apply parse_pragma | simpl; lia].
    cbv beta iota zeta delta [exec_stmt].
    exec_as (SBegin true); [| done | apply parse_begin | simpl; lia].
    simpl. by rewrite Ht.
  Qed.

  (** Inside a transaction, BEGIN fails: the flag stays set. *)
Lemma Lock_in_txn :
    locked (st_drv st) = false -> c_txn c <> TNone ->
    Lock st = (Err (ErrDatabase ENestedTxn "BEGIN EXCLUSIVE"),
               with_env (update_drv (fun s => set_locked s true) st)
                        (set_conn (env_of st) (with_exclusive c true))).
  Proof.
    intros Hl Ht. unfold Lock. rewrite Hl. unfold bind; cbv beta.
    exec_as (SPragmaLockingMode true); [| done | apply parse_pragma | simpl; lia].
    cbv beta iota zeta delta [exec_stmt].
    exec_as (SBegin true); [| done | apply parse_begin | simpl; lia].
    simpl. destruct (c_txn c); [done| |]; by rewrite Replace_begin.
  Qed.

Lemma Unlock_spec :
    locked (st_drv st) = true -> c_txn c <> TNone ->
    Unlock st = (Ok tt, with_env st (commit_txn (env_of st))).
  Proof.
    intros Hl Ht. unfold Unlock. rewrite Hl. simpl. unfold bind; cbv beta.
    exec_as SCommit; [| done | apply parse_commit | simpl; lia].
    simpl. by destruct (c_txn c).
  Qed.
End LockSteps.

Lemma Lock_locked st : locked (st_drv st) = true -> Lock st = (Err ErrLocked, st).
Proof. intros Hl. unfold Lock. by rewrite Hl. Qed.

(** ** The locked session *)

Lemma committed_commit_txn e :
  file_present e -> committed (commit_txn e) = c_live (e_conn e).
Proof.
  destruct e as [fs [[p|] pr l t sps x cl]]; unfold file_present; simpl; intros Hp; [|done].
  unfold committed. simpl. rewrite decide_True by done. by rewrite lookup_insert_eq.
Qed.

Lemma durable_commit st :
  wf st -> c_txn (db (st_drv st)) <> TNone ->
  durable (with_env st (commit_txn (env_of st))) = abs st.
Proof.
  intros Hwf Ht. unfold durable, abs, version_in. rewrite env_of_with_env, view_live by done.
  rewrite committed_commit_txn by (eapply store_ok_file_present, wf_store, Hwf). done.
Qed.

Lemma durable_abs st : c_txn (db (st_drv st)) = TNone -> durable st = abs st.
Proof. intros Ht. unfold durable, abs, version_in, view. simpl. by rewrite Ht. Qed.

Section Locked.
Context (st : state) (Hwf : wf st).
Hypothesis Hnone : c_txn (db (st_drv st)) = TNone.

Lemma committed_locked_state : committed (env_of (locked_state st)) = committed (env_of st).
  Proof. unfold committed. by destruct (c_file (db (st_drv st))). Qed.

Lemma locked_state_wf : wf (locked_state st).
  Proof.
    destruct Hwf as [Hopen Hname Hstore Hok Htx]. split; [done|done| |split; simpl; discriminate|done].
    unfold store_ok, catalogs in *. rewrite committed_locked_state.
    unfold view at 1. simpl.
    inversion Hstore as [|? ? Hc _]; subst. by repeat constructor.
  Qed.

Lemma abs_locked_state : abs (locked_state st) = abs st.
  Proof. unfold abs, version_in, view. simpl. rewrite Hnone. reflexivity. Qed.
End Locked.

(** One [SetVersion] keeps the flag, the table name and the transaction
    state; inside a transaction it leaves the file system alone. *)
Lemma SetVersion_frame st v d :
  wf st -> (txid (st_drv st) < int64_max)%Z ->
  locked (st_drv (snd (SetVersion v d st))) = locked (st_drv st) /\
  migrationsTable (st_drv (snd (SetVersion v d st))) = migrationsTable (st_drv st) /\
  c_txn (db (st_drv (snd (SetVersion v d st)))) = c_txn (db (st_drv st)) /\
  (c_txn (db (st_drv st)) <> TNone -> st_fs (snd (SetVersion v d st)) = st_fs st).
Proof.
  intros Hwf Hmax. rewrite SetVersion_spec by done. cbn [snd].
  split; [done|]. split; [done|]. split; [apply set_view_txn|].
  intros Ht. unfold set_view. simpl. by destruct (c_txn (db (st_drv st))).
Qed.

(** Successive [SetVersion] calls inside a transaction: all succeed,
    nothing reaches the file system, and the abstract value is the last
    one written. *)
Lemma SetVersions_in_txn st l :
  wf st -> c_txn (db (st_drv st)) <> TNone -> (Z.of_nat (length l) <= budget st)%Z ->
  fst (SetVersions l st) = Ok tt /\ wf (snd (SetVersions l st)) /\
  st_fs (snd (SetVersions l st)) = st_fs st /\
  locked (st_drv (snd (SetVersions l st))) = locked (st_drv st) /\
  c_txn (db (st_drv (snd (SetVersions l st)))) = c_txn (db (st_drv st)) /\
  abs (snd (SetVersions l st)) = final_abs l (abs st).
Proof.
  revert st. induction l as [|[v d] l IH]; intros st Hwf Ht Hb; [done|].
  simpl in Hb. unfold budget in Hb.
  assert (Hmax : (txid (st_drv st) < int64_max)%Z) by lia.
  destruct (SetVersion_frame st v d Hwf Hmax) as (Hl & _ & Htx & Hfs).
  pose proof (SetVersion_wf st v d Hwf Hmax) as Hwf'.
  pose proof (SetVersion_abs st v d Hwf Hmax) as Habs.
  pose proof (budget_SetVersion st v d Hwf Hmax) as Hb'.
  assert (Hok : fst (SetVersion v d st) = Ok tt) by (by rewrite SetVersion_spec).
  simpl. unfold bind. destruct (SetVersion v d st) as [r st1]. simpl in *. subst r.
  destruct (IH st1) as (? & ? & Hfs1 & Hl1 & Ht1 & Habs1); [done|congruence|unfold budget in *; lia|].
  rewrite Hfs1, Hl1, Ht1, Habs1, Habs, Hfs by done. by rewrite Hl, Htx.
Qed.

(** ** The flag

    No method but [Lock] writes the flag, and [Lock] only sets it. *)

Lemma exec_locked b q args : preserves (locked_is b) (exec q args).
Proof. intros st Hst. unfold exec. by destruct (DB_Exec _ _ _) as [[] e]. Qed.

Lemma SetVersion_locked b v d : preserves (locked_is b) (SetVersion v d).
Proof.
  intros st Hst. unfold SetVersion, transactionally.
  set (st1 := update_drv _ st).
  pose proof (exec_locked b ("SAVEPOINT " +:+ txname_of (add64 (txid (st_drv st)) 1)) [] st1 Hst) as H2.
  destruct (exec _ _ st1) as [[] st2]; simpl; [|by apply exec_locked].
  unfold set_version_body, bind.
  pose proof (exec_locked b delete_query [] st2 H2) as H3.
  destruct (exec delete_query [] st2) as [[] st3]; simpl in *; [|by apply exec_locked].
  destruct (0 <=? v)%Z; simpl.
  - pose proof (exec_locked b insert_query [AInt v; ABool d] st3 H3) as H4.
    destruct (exec insert_query _ st3) as [[] st4]; simpl; by apply exec_locked.
  - by apply exec_locked.
Qed.

Lemma Version_locked b : preserves (locked_is b) Version.
Proof.
  intros st Hst. unfold Version.
  destruct (DB_QueryRow _ _ _) as [[row|[]] e]; try destruct (scan_int_bool row); done.
Qed.

Lemma Close_locked b : preserves (locked_is b) Close.
Proof. intros st Hst. unfold Close, on_db. by destruct (DB_Close _) as [[] e]. Qed.

Lemma Drop_locked b : preserves (locked_is b) Drop.
Proof. intros st Hst. unfold Drop. by destruct (os_Remove _ _). Qed.

Lemma Unlock_locked b : preserves (locked_is b) Unlock.
Proof.
  intros st Hst. unfold Unlock. destruct (negb _); [done|]. revert st Hst.
  apply preserves_bind; [apply exec_locked|]. intros _. apply preserves_ret.
Qed.

Lemma Run_locked b r : preserves (locked_is b) (Run r).
Proof. destruct r; [apply exec_locked|apply preserves_throw]. Qed.

(** After [Lock], successful or not, the flag is set. *)
Lemma Lock_flag st : locked_is true (snd (Lock st)).
Proof.
  unfold Lock. destruct (locked (st_drv st)) eqn:Hl; [exact Hl|].
  apply (preserves_bind _ _ _ (exec_locked _ _ _)); [|done].
  intros _. apply preserves_bind; [apply exec_locked|]. intros _. apply preserves_ret.
Qed.

Lemma Lock_ok_locked st : fst (Lock st) = Ok tt -> locked_is true (snd (Lock st)).
Proof. intros _. apply Lock_flag. Qed.

Lemma run_call_locked c : preserves (locked_is true) (run_call c).
Proof.
  destruct c; [apply Close_locked | intros st _; apply Lock_flag | apply Unlock_locked
              | apply Run_locked | apply SetVersion_locked | | apply Drop_locked].
  apply preserves_bind; [apply Version_locked|]. intros _. apply preserves_ret.
Qed.

Lemma run_calls_locked l st : locked_is true st -> locked_is true (run_calls l st).
Proof.
  revert st. induction l as [|c l IH]; intros st Hst; [exact Hst|].
  apply IH, run_call_locked, Hst.
Qed.

(** ** Theorems *)

(** C5: Durability of a locked session.  From a usable, unlocked driver
    in autocommit mode, [Lock] succeeds, every [SetVersion] of the session
    succeeds, and until [Unlock] the file system is exactly what it was
    before [Lock] (a crash loses the session and nothing else); [Unlock]
    then succeeds and a fresh reader of the file sees the last version
    written. *)
Theorem lock_session_durability st l :
  wf st -> locked (st_drv st) = false -> c_txn (db (st_drv st)) = TNone ->
  (Z.of_nat (length l) <= budget st)%Z ->
  let st1 := snd (Lock st) in
  let st2 := snd (SetVersions l st1) in
  fst (Lock st) = Ok tt /\ fst (SetVersions l st1) = Ok tt /\
  st_fs st1 = st_fs st /\ st_fs st2 = st_fs st /\
  fst (Unlock st2) = Ok tt /\ durable (snd (Unlock st2)) = final_abs l (durable st).
Proof.
  intros Hwf Hl Ht Hb. simpl. rewrite (Lock_spec st (wf_open _ Hwf) Hl Ht). simpl.
  pose proof (locked_state_wf st Hwf) as Hwf1.
  destruct (SetVersions_in_txn (locked_state st) l Hwf1 ltac:(done) Hb)
    as (Hok & Hwf2 & Hfs & Hl2 & Ht2 & Habs).
  rewrite Unlock_spec by (try apply Hwf2; rewrite ?Hl2, ?Ht2; done). cbn [fst snd].
  rewrite Hfs, durable_commit, Habs, abs_locked_state, durable_abs by (rewrite ?Ht2; done).
  by repeat split.
Qed.

Lemma lock_session_durability_witness :
  let l := [(1%Z, true); (1%Z, false); (2%Z, true)] in
  let st1 := snd (Lock demo_state) in
  let st2 := snd (SetVersions l st1) in
  fst (Lock demo_state) = Ok tt /\ fst (SetVersions l st1) = Ok tt /\
  st_fs st1 = st_fs demo_state /\ st_fs st2 = st_fs demo_state /\
  fst (Unlock st2) = Ok tt /\ durable (snd (Unlock st2)) = final_abs l (durable demo_state).
Proof.
  apply (lock_session_durability demo_state); [exact demo_state_wf | concrete..].
Defined.

(** C6: [Unlock] does not release the flag.  After a successful [Lock]
    and [Unlock], a second [Lock] fails with [ErrLocked] although no lock
    is held: the contract's [Unlock] returns the driver to [Unlocked]. *)
Theorem relock_after_unlock_fails st :
  wf st -> locked (st_drv st) = false -> c_txn (db (st_drv st)) = TNone ->
  fst (Lock st) = Ok tt /\ fst (Unlock (snd (Lock st))) = Ok tt /\
  Lock (snd (Unlock (snd (Lock st)))) = (Err ErrLocked, snd (Unlock (snd (Lock st)))).
Proof.
  intros Hwf Hl Ht. rewrite (Lock_spec st (wf_open _ Hwf) Hl Ht).
  rewrite Unlock_spec by (apply (wf_open _ Hwf) || done || discriminate).
  split; [done|]. split; [done|]. by apply Lock_locked.
Qed.

Lemma relock_after_unlock_fails_witness :
  fst (Lock demo_state) = Ok tt /\ fst (Unlock (snd (Lock demo_state))) = Ok tt /\
  Lock (snd (Unlock (snd (Lock demo_state)))) =
  (Err ErrLocked, snd (Unlock (snd (Lock demo_state)))).
Proof.
  apply relock_after_unlock_fails; [exact demo_state_wf | concrete..].
Defined.

(** C7: A failed [Lock] keeps the flag.  When a transaction is already
    open, [Lock]'s BEGIN EXCLUSIVE fails; the error is returned, but the
    flag stays set, so every later [Lock] fails with [ErrLocked] although
    the lock was never acquired (the contract: the state remains
    [Unlocked]). *)
Theorem failed_lock_stays_locked st :
  c_closed (db (st_drv st)) = false -> locked (st_drv st) = false ->
  c_txn (db (st_drv st)) <> TNone ->
  fst (Lock st) = Err (ErrDatabase ENestedTxn "BEGIN EXCLUSIVE") /\
  locked (st_drv (snd (Lock st))) = true /\
  Lock (snd (Lock st)) = (Err ErrLocked, snd (Lock st)).
Proof.
  intros Hopen Hl Ht. rewrite (Lock_in_txn st Hopen Hl Ht).
  split; [done|]. split; [done|]. by apply Lock_locked.
Qed.

Lemma failed_lock_stays_locked_witness :
  let st := snd (transactionally failing_body demo_state3) in
  fst (Lock st) = Err (ErrDatabase ENestedTxn "BEGIN EXCLUSIVE") /\
  locked (st_drv (snd (Lock st))) = true /\
  Lock (snd (Lock st)) = (Err ErrLocked, snd (Lock st)).
Proof. apply failed_lock_stays_locked; concrete. Defined.

(** C17: [Close] without [Unlock] discards the session.  From a usable,
    unlocked driver in autocommit mode, after [Lock] and any [SetVersion]
    calls within budget, [Close] succeeds, closes the handle and leaves
    the file system exactly as it was before [Lock]: the long transaction
    is rolled back, as in a crash. *)
Theorem close_discards_session st l :
  wf st -> locked (st_drv st) = false -> c_txn (db (st_drv st)) = TNone ->
  (Z.of_nat (length l) <= budget st)%Z ->
  let st2 := snd (SetVersions l (snd (Lock st))) in
  fst (Close st2) = Ok tt /\ st_fs (snd (Close st2)) = st_fs st /\
  c_closed (db (st_drv (snd (Close st2)))) = true.
Proof.
  intros Hwf Hl Ht Hb. simpl. rewrite (Lock_spec st (wf_open _ Hwf) Hl Ht). simpl.
  destruct (SetVersions_in_txn (locked_state st) l (locked_state_wf st Hwf) ltac:(done) Hb)
    as (_ & _ & Hfs & _).
  split; [done|]. split; [exact Hfs|done].
Qed.

Lemma close_discards_session_witness :
  let st2 := snd (SetVersions [(1%Z, true); (1%Z, false)] (snd (Lock demo_state))) in
  fst (Close st2) = Ok tt /\ st_fs (snd (Close st2)) = st_fs demo_state /\
  c_closed (db (st_drv (snd (Close st2)))) = true.
Proof. apply close_discards_session; [exact demo_state_wf | concrete..]. Defined.

(** C11: Lock exclusivity within an instance.  From a usable, unlocked
    driver in autocommit mode, [Lock] succeeds; afterwards, whatever
    calls the client makes on the instance ([Unlock], [Close], [Drop] and
    failed calls included), the next [Lock] fails with [ErrLocked] and
    changes nothing: the flag, once set, is never cleared, so the
    contract's [Unlock] back to [Unlocked] never happens. *)
Theorem lock_exclusivity st l :
  wf st -> locked (st_drv st) = false -> c_txn (db (st_drv st)) = TNone ->
  fst (Lock st) = Ok tt /\
  Lock (run_calls l (snd (Lock st))) = (Err ErrLocked, run_calls l (snd (Lock st))).
Proof.
  intros Hwf Hl Ht. split; [by rewrite (Lock_spec st (wf_open _ Hwf) Hl Ht)|].
  apply Lock_locked, run_calls_locked, Lock_flag.
Qed.

Lemma lock_exclusivity_witness :
  let l := [CRun (RData "CREATE TABLE t (x int)"); CSetVersion 1 false; CUnlock; CClose] in
  fst (Lock demo_state) = Ok tt /\
  Lock (run_calls l (snd (Lock demo_state))) = (Err ErrLocked, run_calls l (snd (Lock demo_state))).
Proof. intros l. apply lock_exclusivity; [exact demo_state_wf | concrete..]. Defined.

(** C19: A script that commits ends the lock's transaction.  From a
    usable, unlocked driver in autocommit mode, after [Lock], [Run] of a
    migration whose text parses to a COMMIT succeeds and commits the
    [BEGIN EXCLUSIVE] transaction at once: the driver is back in
    autocommit mode, the file already holds the session's version, and
    [Unlock] then fails with "no transaction" on its COMMIT, leaving the
    flag set.  [Run] hands the caller's statements to the connection
    with nothing that keeps them inside the lock's transaction. *)
Theorem script_commit_breaks_lock st buf :
  wf st -> locked (st_drv st) = false -> c_txn (db (st_drv st)) = TNone ->
  parse_script (Replace buf MIGRATIONS_TABLE (migrationsTable (st_drv st)) (-1)) = [Some SCommit] ->
  fst (Run (RData buf) (snd (Lock st))) = Ok tt /\
  c_txn (db (st_drv (snd (Run (RData buf) (snd (Lock st)))))) = TNone /\
  durable (snd (Run (RData buf) (snd (Lock st)))) = abs st /\
  Unlock (snd (Run (RData buf) (snd (Lock st)))) =
    (Err (ErrDatabase ENoTxn "COMMIT"), snd (Run (RData buf) (snd (Lock st)))) /\
  locked (st_drv (snd (Run (RData buf) (snd (Lock st))))) = true.
Proof.
  intros Hwf Hl Ht Hp. rewrite (Lock_spec st (wf_open _ Hwf) Hl Ht). cbn [snd].
  pose proof (locked_state_wf st Hwf) as Hwf1.
  unfold Run. rewrite (exec_single buf [] (locked_state st) SCommit (wf_open _ Hwf1) Hp)
    by (simpl; lia).
  cbn [exec_stmt]. change (c_txn (e_conn (env_of (locked_state st)))) with TExplicit.
  cbn [fst snd]. split; [done|]. split; [done|].
  split; [rewrite durable_commit by (done || discriminate); by apply abs_locked_state|].
  set (st2 := with_env (locked_state st) (commit_txn (env_of (locked_state st)))).
  assert (Hp2 : parse_script (Replace "COMMIT" MIGRATIONS_TABLE (migrationsTable (st_drv st2)) (-1))
                = [Some SCommit]) by apply parse_commit.
  assert (Hc2 : c_closed (db (st_drv st2)) = false).
  { unfold st2, commit_txn, commit_contents. simpl.
    destruct (c_file (db (st_drv st))); exact (wf_open _ Hwf). }
  split; [|done].
  unfold Unlock. change (locked (st_drv st2)) with true. cbn [negb]. unfold bind.
  rewrite (exec_single "COMMIT" [] st2 SCommit Hc2 Hp2) by (simpl; lia).
  cbn [exec_stmt]. change (c_txn (e_conn (env_of st2))) with TNone. by rewrite Replace_commit.
Qed.

Lemma script_commit_breaks_lock_witness :
  let st1 := snd (Run (RData "COMMIT") (snd (Lock demo_state))) in
  wf demo_state /\
  parse_script (Replace "COMMIT" MIGRATIONS_TABLE (migrationsTable (st_drv demo_state)) (-1))
    = [Some SCommit] /\
  (fst (Run (RData "COMMIT") (snd (Lock demo_state))) = Ok tt /\
   c_txn (db (st_drv st1)) = TNone /\ durable st1 = abs demo_state /\
   Unlock st1 = (Err (ErrDatabase ENoTxn "COMMIT"), st1) /\ locked (st_drv st1) = true).
Proof.
  intros st1. split; [exact demo_state_wf|]. split; [apply parse_commit|].
  apply (script_commit_breaks_lock demo_state "COMMIT");
    [exact demo_state_wf | concrete | concrete | apply parse_commit].
Defined.
