(* ===== verification/Recovery.v ===== *)
(** * Failure paths: what a failed call leaves behind

    The contract promises that a failing migration or version write
    leaves the database as it was.  This file states what the code does
    instead on its failure paths: a failed body of [transactionally] in
    autocommit mode leaves a transaction open, so that nothing later
    reaches the file ([failed_body_blocks_commit]); [Run] executes the
    statements of a script one after the other, without a savepoint, so
    that a failing script keeps the effects of its first statements
    ([Run_not_atomic]); and once the [int64]
    savepoint counter has wrapped, every [SetVersion] fails
    ([SetVersion_counter_wrap]), each failure moving the counter up by
    one, until the counter is back at [-1]; the next call succeeds again
    ([SetVersion_recovers]). *)

From Stdlib Require Import ZArith Lia Ascii.
From stdpp Require Import base strings list gmap.
From S2P Require Import Prelude GoStrings SqlSyntax SqlEngine EngineFacts Database Sqlite Demo Statements Transactions VersionTable Locking.

(** The script of the contract's isolation test: a valid first statement
    and an invalid second one. *)
Definition isolation_script : string := "CREATE TABLE t (x int); CREATE TABLE".

(** The orchestrator retrying [SetVersion v d] [k] times, whatever the
    outcome of each call. *)
Definition retry (v : Z) (d : bool) (k : nat) (st : state) : state :=
  Nat.iter k (fun st => snd (SetVersion v d st)) st.

(** ** Lemmas *)

Lemma committed_after_savepoint st :
  committed (env_of (after_savepoint st)) = committed (env_of st).
Proof. unfold committed. by destruct (c_file (db (st_drv st))). Qed.

(** The state right after the SAVEPOINT is usable. *)
Lemma after_savepoint_wf st :
  wf st -> (txid (st_drv st) < int64_max)%Z -> wf (after_savepoint st).
Proof.
  intros Hwf Hmax. pose proof Hwf as [Hopen Hname Hstore Hok Htx].
  assert (Hn : next_txid st = (txid (st_drv st) + 1)%Z) by (apply next_txid_succ; lia).
  split; [done|done| | |].
  - unfold store_ok, catalogs in *.
    rewrite committed_after_savepoint, view_after_savepoint. simpl.
    inversion Hstore as [|? ? Hc Hs']; subst. inversion Hs'; subst. by repeat constructor.
  - split; simpl; [|discriminate]. intros Ht. exfalso. revert Ht. case_bool_decide; [done|].
    by destruct (c_txn (db (st_drv st))).
  - simpl. lia.
Qed.

Lemma budget_after_savepoint st :
  (0 <= txid (st_drv st) < int64_max)%Z -> budget (after_savepoint st) = (budget st - 1)%Z.
Proof. intros Htx. unfold budget. simpl. rewrite next_txid_succ by lia. lia. Qed.

(** The counter after the increment is negative exactly when it wrapped
    or was already negative. *)
Lemma next_txid_negative st :
  (txid (st_drv st) = int64_max \/ int64_min <= txid (st_drv st) < -1)%Z ->
  (next_txid st < 0)%Z.
Proof.
  unfold next_txid. intros [-> | H]; [reflexivity|].
  unfold add64. rewrite wrap64_in_range; [lia|]. unfold in_int64, int64_min, int64_max in *. lia.
Qed.

(** A savepoint name the SQL parser rejects: the SAVEPOINT and the
    deferred ROLLBACK TO both fail, and only the counter moves. *)
Lemma transactionally_bad_name thunk st :
  c_closed (db (st_drv st)) = false -> (next_txid st < 0)%Z ->
  transactionally thunk st =
  (Err (ErrDatabase ESyntax (Replace ("SAVEPOINT " +:+ txname_of (next_txid st)) MIGRATIONS_TABLE
                                     (migrationsTable (st_drv st)) (-1))),
   update_drv (fun s => set_txid s (next_txid st)) st).
Proof.
  intros Hopen Hn. unfold transactionally. fold (next_txid st).
  rewrite (exec_syntax _ _ _ []) by (done || by apply parse_savepoint_negative).
  cbv beta iota zeta. rewrite (exec_syntax _ _ _ []) by (done || by apply parse_rollback_to_negative).
  reflexivity.
Qed.

Lemma update_txid_txid st : update_drv (fun s => set_txid s (txid (st_drv st))) st = st.
Proof. by destruct st as [fs []]. Qed.

(** While the wrapped counter stays below [-1], each retry fails on its
    SAVEPOINT and moves only the counter. *)
Lemma retry_wrapped v d k st :
  c_closed (db (st_drv st)) = false ->
  (int64_min <= txid (st_drv st))%Z -> (txid (st_drv st) + Z.of_nat k <= -1)%Z ->
  retry v d k st = update_drv (fun s => set_txid s (txid (st_drv st) + Z.of_nat k)) st.
Proof.
  intros Hopen Hmin. induction k as [|k IH]; intros Hk.
  - rewrite Z.add_0_r. symmetry. apply update_txid_txid.
  - unfold retry. rewrite Nat.iter_succ. fold (retry v d k st). rewrite IH by lia.
    set (st' := update_drv _ st).
    assert (Hn : next_txid st' = (txid (st_drv st) + Z.of_nat (S k))%Z)
      by (unfold next_txid; simpl; rewrite add64_small by (unfold int64_min, int64_max in *; lia); lia).
    unfold SetVersion. rewrite transactionally_bad_name by (done || lia). simpl. by rewrite Hn.
Qed.

(** On a closed handle every statement fails and changes nothing. *)
Lemma exec_closed op args st :
  c_closed (db (st_drv st)) = true ->
  exec op args st =
  (Err (ErrDatabase EClosed (Replace op MIGRATIONS_TABLE (migrationsTable (st_drv st)) (-1))), st).
Proof. intros Hc. unfold exec, DB_Exec. simpl. rewrite Hc. by rewrite with_env_env_of. Qed.

(** ** Theorems *)

(** C8: A failed body leaves the transaction open.  On a usable driver in
    autocommit mode, when the body of [transactionally] fails, the
    transaction the SAVEPOINT opened is never closed: the connection stays
    in it, and every later [SetVersion], although it succeeds, leaves the
    file system unchanged; its writes are lost when the connection
    closes. *)
Theorem failed_body_blocks_commit thunk st l err ls :
  wf st -> c_txn (db (st_drv st)) = TNone ->
  thunk (after_savepoint st) = (Err err, set_live (after_savepoint st) l) ->
  (Z.of_nat (length ls) + 1 <= budget st)%Z ->
  let st1 := snd (transactionally thunk st) in
  fst (transactionally thunk st) = Err err /\
  c_txn (db (st_drv st1)) = TImplicit /\
  fst (SetVersions ls st1) = Ok tt /\ st_fs (snd (SetVersions ls st1)) = st_fs st.
Proof.
  intros Hwf Ht Hb Hbud. pose proof Hwf as [Hopen _ _ Hok Htx].
  assert (Htx' : (0 <= txid (st_drv st) < int64_max)%Z) by (unfold budget in Hbud; lia).
  simpl. rewrite (transactionally_err thunk st Hopen Hok ltac:(lia) l err Hb). simpl.
  assert (Hti : c_txn (db (st_drv (after_savepoint st))) = TImplicit)
    by (simpl; rewrite Ht; by rewrite bool_decide_true).
  destruct (SetVersions_in_txn (after_savepoint st) ls) as (Hok' & _ & Hfs & _);
    [apply after_savepoint_wf; [done|lia] | by rewrite Hti | rewrite budget_after_savepoint by done; lia |].
  by repeat split.
Qed.

Lemma failed_body_blocks_commit_witness :
  let st1 := snd (transactionally failing_body demo_state3) in
  fst (transactionally failing_body demo_state3) = Err ErrRead /\
  c_txn (db (st_drv st1)) = TImplicit /\
  fst (SetVersions [(4%Z, true); (4%Z, false)] st1) = Ok tt /\
  st_fs (snd (SetVersions [(4%Z, true); (4%Z, false)] st1)) = st_fs demo_state3.
Proof.
  apply (failed_body_blocks_commit failing_body demo_state3
           (<["schema_migrations" := mk_table version_cols []]> ∅) ErrRead).
  - apply (SetVersion_wf demo_state 3 false demo_state_wf demo_state_txid).
  - concrete.
  - concrete.
  - concrete.
Defined.

(** C9: [Run] is not atomic.  When the script's first statement runs and
    its second does not parse, [Run] returns the error, but the first
    statement's effects stay in the connection: no savepoint is taken
    around the script (the contract: neither statement's effects remain
    visible). *)
Theorem Run_not_atomic st buf s1 e1 rest :
  c_closed (db (st_drv st)) = false ->
  parse_script (Replace buf MIGRATIONS_TABLE (migrationsTable (st_drv st)) (-1)) =
    Some s1 :: None :: rest ->
  stmt_params s1 = 0 -> exec_stmt (env_of st) [] s1 = Ok e1 ->
  Run (RData buf) st =
  (Err (ErrDatabase ESyntax (Replace buf MIGRATIONS_TABLE (migrationsTable (st_drv st)) (-1))),
   with_env st e1).
Proof.
  intros Hc Hp Hn Hs. unfold Run, exec. by rewrite (DB_Exec_then_syntax _ _ s1 e1 rest).
Qed.

Lemma Run_not_atomic_witness :
  let st := snd (Lock demo_state) in
  Run (RData isolation_script) st =
  (Err (ErrDatabase ESyntax (Replace isolation_script MIGRATIONS_TABLE
                               (migrationsTable (st_drv st)) (-1))),
   with_env st (set_conn (env_of st)
     (with_live (db (st_drv st))
        (<["t" := mk_table [mk_coldef "x" "int" false false] []]> (c_live (db (st_drv st))))))).
Proof.
  apply (Run_not_atomic _ _ (SCreateTable "t" [mk_coldef "x" "int" false false]) _ []);
    concrete.
Defined.

(** C10: Counter wrap-around.  Once [txid] has reached the top of the
    [int64] range, the increment wraps to a negative number, the name
    [txn_-...] is not a valid savepoint name, and [SetVersion] fails with a
    syntax error, changing nothing but the counter; the counter then stays
    negative for the next [2^63 - 1] calls, which fail the same way. *)
Theorem SetVersion_counter_wrap st v d :
  c_closed (db (st_drv st)) = false ->
  (txid (st_drv st) = int64_max \/ int64_min <= txid (st_drv st) < -1)%Z ->
  SetVersion v d st =
  (Err (ErrDatabase ESyntax ("SAVEPOINT " +:+ txname_of (add64 (txid (st_drv st)) 1))),
   update_drv (fun s => set_txid s (add64 (txid (st_drv st)) 1)) st) /\
  (add64 (txid (st_drv st)) 1 < 0)%Z.
Proof.
  intros Hopen Hrange. pose proof (next_txid_negative st Hrange) as Hn.
  split; [|exact Hn]. unfold SetVersion. rewrite transactionally_bad_name by done.
  by rewrite Replace_savepoint.
Qed.

Lemma SetVersion_counter_wrap_witness :
  let st := update_drv (fun s => set_txid s int64_max) demo_state in
  SetVersion 1 false st =
  (Err (ErrDatabase ESyntax ("SAVEPOINT " +:+ txname_of (add64 (txid (st_drv st)) 1))),
   update_drv (fun s => set_txid s (add64 (txid (st_drv st)) 1)) st) /\
  (add64 (txid (st_drv st)) 1 < 0)%Z.
Proof. apply SetVersion_counter_wrap; [concrete | left; reflexivity]. Defined.

(** C18: [SetVersion] after [Close].  On a closed handle, [SetVersion]
    fails with the error of its SAVEPOINT statement, wrapped with the
    statement text; the deferred ROLLBACK TO fails too, and nothing
    changes but the savepoint counter. *)
Theorem SetVersion_closed st v d :
  c_closed (db (st_drv st)) = true ->
  SetVersion v d st =
  (Err (ErrDatabase EClosed ("SAVEPOINT " +:+ txname_of (next_txid st))),
   update_drv (fun s => set_txid s (next_txid st)) st).
Proof.
  intros Hc. unfold SetVersion, transactionally. fold (next_txid st).
  rewrite exec_closed by done. cbv beta iota zeta. rewrite exec_closed by done.
  by rewrite Replace_savepoint.
Qed.

Lemma SetVersion_closed_witness :
  let st := snd (Close demo_state3) in
  SetVersion 4 true st =
  (Err (ErrDatabase EClosed ("SAVEPOINT " +:+ txname_of (next_txid st))),
   update_drv (fun s => set_txid s (next_txid st)) st).
Proof. apply SetVersion_closed. concrete. Defined.

(** C21: [SetVersion] recovers from the wrap-around.  On a usable driver
    whose counter has wrapped to a negative [t], the orchestrator's
    retries of [SetVersion] all fail for exactly [-1 - t] calls, which
    change nothing but the counter; the next call succeeds, names its
    savepoint [txn_0], and writes the version as a call on the original
    state would. *)
Theorem SetVersion_recovers st v d :
  c_closed (db (st_drv st)) = false -> is_word (migrationsTable (st_drv st)) ->
  store_ok (migrationsTable (st_drv st)) (env_of st) -> conn_ok (db (st_drv st)) ->
  (int64_min <= txid (st_drv st) < 0)%Z ->
  let k := Z.to_nat (-1 - txid (st_drv st)) in
  (forall j, j < k -> exists err, fst (SetVersion v d (retry v d j st)) = Err err) /\
  env_of (retry v d k st) = env_of st /\
  SetVersion v d (retry v d k st) =
  (Ok tt, with_env (update_drv (fun s => set_txid s 0) st) (set_view (env_of st) (new_view st v d))).
Proof.
  intros Hopen Hname Hstore Hok Htx k. split; [|split].
  - intros j Hj. rewrite retry_wrapped by (done || lia). unfold SetVersion.
    rewrite transactionally_bad_name; [by eexists| done |].
    unfold next_txid. simpl. rewrite add64_small by (unfold int64_min, int64_max in *; lia). lia.
  - by rewrite retry_wrapped by (done || lia).
  - rewrite retry_wrapped by (done || lia).
    rewrite SetVersion_step; [|done..|simpl; unfold int64_max; lia]. simpl.
    replace (txid (st_drv st) + Z.of_nat k + 1)%Z with 0%Z by lia. reflexivity.
Qed.

Lemma SetVersion_recovers_witness :
  let st := update_drv (fun s => set_txid s (-3)) demo_state in
  c_closed (db (st_drv st)) = false /\ is_word (migrationsTable (st_drv st)) /\
  store_ok (migrationsTable (st_drv st)) (env_of st) /\ conn_ok (db (st_drv st)) /\
  (int64_min <= txid (st_drv st) < 0)%Z /\
  (let k := Z.to_nat (-1 - txid (st_drv st)) in
   (forall j, j < k -> exists err, fst (SetVersion 5 false (retry 5 false j st)) = Err err) /\
   env_of (retry 5 false k st) = env_of st /\
   SetVersion 5 false (retry 5 false k st) =
   (Ok tt, with_env (update_drv (fun s => set_txid s 0) st)
                    (set_view (env_of st) (new_view st 5 false)))).
Proof.
  intros st. pose proof demo_state_wf as [Hopen Hname Hstore Hok _].
  split; [exact Hopen|]. split; [exact Hname|]. split; [exact Hstore|]. split; [exact Hok|].
  split; [unfold int64_min; simpl; lia|].
  apply SetVersion_recovers; [exact Hopen|exact Hname|exact Hstore|exact Hok|unfold int64_min; simpl; lia].
Defined.
