(* ===== verification/Scripts.v ===== *)
(** * Migration scripts that leave the bookkeeping table alone

    [Run] hands the caller's script to [exec]: its statements run
    one after the other on the connection.  A script whose statements are
    all data statements that do not write the bookkeeping table (after
    the placeholder substitution of [exec]) is a [user_script]; inside a
    transaction, [Run] of such a script, on success and on failure alike,
    only replaces the working copy by one that holds the same bookkeeping
    table.  So it keeps the invariant [wf], the abstract version, the
    transaction, the counter and the file system.  The orchestrator's
    theorems rest on this. *)

From Stdlib Require Import ZArith Lia Ascii.
From stdpp Require Import base strings list gmap.
From S2P Require Import Prelude GoStrings SqlSyntax SqlEngine EngineFacts Database Sqlite Demo Statements Transactions VersionTable Locking.

Local Open Scope go_scope.

(** The table a data statement writes. *)
Definition stmt_table (s : stmt) : option string :=
  match s with
  | SCreateTable t _ | SDropTable t | SDeleteAll t | SInsert t _ _ => Some t
  | _ => None
  end.

(** A data statement that does not write the table [tbl]. *)
Definition user_stmt (tbl : string) (s : stmt) : bool :=
  is_data_stmt s && negb (bool_decide (stmt_table s = Some tbl)).

Definition user_stmt_opt (tbl : string) (o : option stmt) : bool :=
  match o with Some s => user_stmt tbl s | None => true end.

(** Every statement of the script, as [exec] substitutes and parses it,
    is a [user_stmt]. *)
Definition user_script (tbl buf : string) : bool :=
  forallb (user_stmt_opt tbl) (parse_script (Replace buf MIGRATIONS_TABLE tbl (-1))).

Definition user_reader (tbl : string) (r : reader) : bool :=
  match r with RData buf => user_script tbl buf | RFail => true end.

(** ** Catalog level *)

Lemma exec_data_user tbl cat args s cat' :
  user_stmt tbl s = true -> exec_data cat args s = Ok cat' -> cat' !! tbl = cat !! tbl.
Proof.
  unfold user_stmt. intros [_ Hn]%andb_true_iff. apply negb_true_iff, bool_decide_eq_false in Hn.
  destruct s; simpl in *; try (intros [= <-]; reflexivity).
  - destruct (decide _); [discriminate|]. intros [= <-]. apply lookup_insert_ne. congruence.
  - destruct (decide _); [|discriminate]. intros [= <-]. apply lookup_delete_ne. congruence.
  - destruct (cat !! t); [|discriminate]. intros [= <-]. apply lookup_insert_ne. congruence.
  - destruct (cat !! t); [|discriminate]. destruct (eval_exprs _ _); [|discriminate].
    destruct (insert_row _ _ _); [|discriminate]. intros [= <-]. apply lookup_insert_ne. congruence.
  - destruct (eval_query _ _ _); [|discriminate]. intros [= <-]. reflexivity.
Qed.

Lemma table_ok_lookup tbl cat1 cat2 : cat1 !! tbl = cat2 !! tbl -> table_ok tbl cat1 -> table_ok tbl cat2.
Proof. intros Heq (rows & Hl & Hr). exists rows. by rewrite <- Heq. Qed.

Lemma version_in_lookup tbl cat1 cat2 : cat1 !! tbl = cat2 !! tbl -> version_in tbl cat1 = version_in tbl cat2.
Proof. unfold version_in. by intros ->. Qed.

(** ** Connection level *)

Lemma set_conn_live_id e : set_conn e (with_live (e_conn e) (c_live (e_conn e))) = e.
Proof. by destruct e as [fs []]. Qed.

(** Inside a transaction, a user statement replaces the working copy. *)
Lemma exec_stmt_user tbl e args s e' :
  user_stmt tbl s = true -> c_txn (e_conn e) <> TNone -> exec_stmt e args s = Ok e' ->
  exists l, e' = set_conn e (with_live (e_conn e) l) /\ l !! tbl = c_live (e_conn e) !! tbl.
Proof.
  intros Hu Ht. pose proof Hu as Hd. apply andb_true_iff in Hd as [Hd _].
  rewrite exec_stmt_data by done. destruct (exec_data _ _ _) as [cat|] eqn:Hx; [|discriminate].
  intros [= <-]. exists cat. split.
  - unfold write_view. by destruct (c_txn (e_conn e)).
  - rewrite (exec_data_user _ _ _ _ _ Hu Hx). by rewrite view_live.
Qed.

Lemma run_script_user tbl args sts e :
  c_txn (e_conn e) <> TNone -> forallb (user_stmt_opt tbl) sts = true ->
  exists l, snd (run_script args sts e) = set_conn e (with_live (e_conn e) l) /\
            l !! tbl = c_live (e_conn e) !! tbl.
Proof.
  revert args e. induction sts as [|[s|] sts IH]; intros args e Ht Hall;
    try (exists (c_live (e_conn e)); split; [by rewrite set_conn_live_id|done]).
  simpl in Hall. apply andb_true_iff in Hall as [Hu Hall]. simpl.
  destruct (_ <? _); [exists (c_live (e_conn e)); split; [by rewrite set_conn_live_id|done]|].
  destruct (exec_stmt e args s) as [e1|] eqn:He;
    [|exists (c_live (e_conn e)); split; [by rewrite set_conn_live_id|done]].
  destruct (exec_stmt_user tbl e args s e1 Hu Ht He) as (l1 & -> & Hl1).
  destruct (IH (drop (stmt_params s) args) (set_conn e (with_live (e_conn e) l1)) Ht Hall)
    as (l & Hr & Hl).
  exists l. split; [exact Hr|]. rewrite Hl. exact Hl1.
Qed.

(** ** Driver level *)

(** [Run] of a user script inside a transaction, whatever its outcome. *)
Lemma Run_user st r :
  c_closed (db (st_drv st)) = false -> c_txn (db (st_drv st)) <> TNone ->
  user_reader (migrationsTable (st_drv st)) r = true ->
  exists l, snd (Run r st) = set_live st l /\
            l !! migrationsTable (st_drv st) = c_live (db (st_drv st)) !! migrationsTable (st_drv st).
Proof.
  intros Hopen Ht Hu. destruct r as [buf|].
  - unfold Run, exec. rewrite DB_Exec_run_script by exact Hopen.
    destruct (run_script_user (migrationsTable (st_drv st)) [] _ (env_of st) Ht Hu) as (l & Hr & Hl).
    exists l. split; [|exact Hl].
    destruct (run_script _ _ _) as [[] e] eqn:E; simpl in Hr |- *; by rewrite Hr.
  - exists (c_live (db (st_drv st))). split; [|done]. simpl.
    unfold set_live. by rewrite set_conn_live_id, with_env_env_of.
Qed.

(** Replacing the working copy inside a transaction by one that holds
    the same bookkeeping table keeps everything the version store
    depends on. *)
Lemma set_live_wf st l :
  wf st -> c_txn (db (st_drv st)) <> TNone ->
  l !! migrationsTable (st_drv st) = c_live (db (st_drv st)) !! migrationsTable (st_drv st) ->
  wf (set_live st l) /\ abs (set_live st l) = abs st.
Proof.
  intros [Hopen Hname Hstore Hok Htx] Ht Hl.
  assert (Hv : view (env_of (set_live st l)) = l) by (apply view_live; exact Ht).
  assert (Hv0 : view (env_of st) = c_live (db (st_drv st))) by (apply view_live; exact Ht).
  split; [split|].
  - exact Hopen.
  - exact Hname.
  - unfold store_ok, catalogs in *. rewrite Hv.
    inversion Hstore as [|? ? Hc Hs']; subst. inversion Hs' as [|? ? Hvw Hsn]; subst.
    constructor; [exact Hc|]. constructor; [|exact Hsn].
    apply (table_ok_lookup _ (view (env_of st))); [by rewrite Hv0|exact Hvw].
  - by apply (conn_ok_fields (db (st_drv st))).
  - exact Htx.
  - unfold abs. rewrite Hv, Hv0. by apply version_in_lookup.
Qed.
