(* ===== verification/Orchestrator.v ===== *)
(** * The orchestrator on top of the driver

    The specification's control flow (section 2): the orchestrator
    acquires the lock, then for each migration reads the version, writes
    it dirty, runs the script and writes it clean, and finally releases
    the lock; a dirty version stops it ([migrate.ErrDirty]), and every
    failure is returned at once, after the lock is released (section 7:
    the dirty flag left in durable state is the signal for the operator).
    The orchestrator is not code of this repository: [Up] is modelled
    from the specification, with [run_migrations] the loop and
    [unlock_after] the release that keeps the first error.

    The theorems compose the driver's components: on a usable driver
    whose migrations only touch their own tables ([Scripts.user_reader]),
    [Up] either succeeds and leaves the last version clean in the file, or
    fails and leaves the version of the failing migration dirty in the
    file; nothing reaches the file before the release; a dirty version
    blocks [Up] without changing the file; and, because [Unlock] keeps
    the flag, a driver can serve one [Up] only. *)

From Stdlib Require Import ZArith Lia Ascii.
From stdpp Require Import base strings list gmap.
From S2P Require Import Prelude GoStrings SqlSyntax SqlEngine EngineFacts Database Sqlite Demo Statements Transactions VersionTable Locking Scripts.

Local Open Scope go_scope.

(** A migration: its version and the reader of its script. *)
Record migration := mk_migration { mversion : Z; mbody : reader }.

(** One migration: dirty before the script, clean after it. *)
Definition apply_migration (m : migration) : M unit :=
  let* _ := SetVersion (mversion m) true in
  let* _ := Run (mbody m) in
  SetVersion (mversion m) false.

(** The loop: read the version, stop on a dirty one, apply the
    migrations above it in order, stop at the first error. *)
Fixpoint run_migrations (ms : list migration) : M unit :=
  match ms with
  | [] => ret tt
  | m :: ms' =>
      let* vd := Version in
      if vd.2 then throw (ErrDirty vd.1)
      else if (vd.1 <? mversion m)%Z then
        let* _ := apply_migration m in run_migrations ms'
      else run_migrations ms'
  end.

(** Release the lock; the error of the run, if any, is the one
    returned. *)
Definition unlock_after (r : result goerr unit) : M unit := fun st =>
  match Unlock st with
  | (r', st') => (match r with Err e => Err e | Ok _ => r' end, st')
  end.

(** A migration run: lock, loop, release. *)
Definition Up (ms : list migration) : M unit := fun st =>
  match Lock st with
  | (Err e, st1) => (Err e, st1)
  | (Ok _, st1) => let '(r, st2) := run_migrations ms st1 in unlock_after r st2
  end.

(** The version the loop ends at when every migration succeeds. *)
Fixpoint target (v : Z) (ms : list migration) : Z :=
  match ms with
  | [] => v
  | m :: ms' => target (if (v <? mversion m)%Z then mversion m else v) ms'
  end.

(** What a step of the loop keeps. *)
Definition frame (st st' : state) : Prop :=
  c_txn (db (st_drv st')) = c_txn (db (st_drv st)) /\ st_fs st' = st_fs st /\
  locked (st_drv st') = locked (st_drv st) /\
  migrationsTable (st_drv st') = migrationsTable (st_drv st).

(** The migrations the theorems are about: non-negative versions, and
    scripts that leave the bookkeeping table [tbl] alone. *)
Definition migrations_ok (tbl : string) (ms : list migration) : Prop :=
  Forall (fun m => (0 <= mversion m)%Z /\ user_reader tbl (mbody m) = true) ms.

(** ** Lemmas *)

Lemma frame_refl st : frame st st.
Proof. done. Qed.

Lemma frame_trans st1 st2 st3 : frame st1 st2 -> frame st2 st3 -> frame st1 st3.
Proof. intros (H1 & H2 & H3 & H4) (H1' & H2' & H3' & H4'). repeat split; congruence. Qed.

Lemma abstract_set_nonneg v d : (0 <= v)%Z -> abstract_set v d = (v, d).
Proof. intros Hv. unfold abstract_set. by rewrite (proj2 (Z.leb_le 0 v) Hv). Qed.

Lemma set_live_frame st l : frame st (set_live st l).
Proof. done. Qed.

Lemma budget_set_live st l : budget (set_live st l) = budget st.
Proof. done. Qed.

(** One [SetVersion] inside a transaction, within the budget. *)
Lemma SetVersion_step_in_txn st v d :
  wf st -> c_txn (db (st_drv st)) <> TNone -> (0 <= v)%Z -> (1 <= budget st)%Z ->
  SetVersion v d st = (Ok tt, snd (SetVersion v d st)) /\ wf (snd (SetVersion v d st)) /\
  abs (snd (SetVersion v d st)) = (v, d) /\ frame st (snd (SetVersion v d st)) /\
  budget (snd (SetVersion v d st)) = (budget st - 1)%Z.
Proof.
  intros Hwf Ht Hv Hb. assert (Hmax : (txid (st_drv st) < int64_max)%Z) by (unfold budget in Hb; lia).
  destruct (SetVersion_frame st v d Hwf Hmax) as (Hl & Hn & Ht' & Hf).
  split; [by rewrite SetVersion_spec|]. split; [by apply SetVersion_wf|].
  split; [rewrite SetVersion_abs by done; by apply abstract_set_nonneg|].
  split; [repeat split; auto|]. by apply budget_SetVersion.
Qed.

(** One migration inside the lock's transaction: on success the version
    is clean, on failure of the script it is dirty. *)
Lemma apply_migration_spec m st :
  wf st -> c_txn (db (st_drv st)) <> TNone -> (0 <= mversion m)%Z ->
  user_reader (migrationsTable (st_drv st)) (mbody m) = true -> (2 <= budget st)%Z ->
  let r := apply_migration m st in
  wf (snd r) /\ frame st (snd r) /\ (budget st - 2 <= budget (snd r))%Z /\
  ((fst r = Ok tt /\ abs (snd r) = (mversion m, false)) \/
   (exists e, fst r = Err e /\ abs (snd r) = (mversion m, true))).
Proof.
  intros Hwf Ht Hv Hu Hb r. subst r.
  destruct (SetVersion_step_in_txn st (mversion m) true Hwf Ht Hv ltac:(lia))
    as (E1 & H1 & Ha1 & Hf1 & Hb1).
  set (st1 := snd (SetVersion (mversion m) true st)) in *.
  pose proof Hf1 as (Ht1 & _ & _ & Hn1).
  assert (Ht1' : c_txn (db (st_drv st1)) <> TNone) by (by rewrite Ht1).
  destruct (Run_user st1 (mbody m) (wf_open _ H1) Ht1' ltac:(by rewrite Hn1)) as (l & Hr & Hl).
  destruct (set_live_wf st1 l H1 Ht1' Hl) as [H2 Ha2].
  unfold apply_migration. rewrite (bind_ok _ _ _ _ _ E1).
  destruct (Run (mbody m) st1) as [[[]|e] st2] eqn:E2; simpl in Hr; subst st2.
  - rewrite (bind_ok _ _ _ _ _ E2).
    destruct (SetVersion_step_in_txn (set_live st1 l) (mversion m) false H2 Ht1'
                Hv ltac:(rewrite budget_set_live; lia)) as (E3 & H3 & Ha3 & Hf3 & Hb3).
    rewrite E3. cbn [fst snd]. split; [done|]. split; [exact (frame_trans _ _ _ Hf1 (frame_trans _ _ _ (set_live_frame st1 l) Hf3))|].
    split; [rewrite Hb3, budget_set_live; lia|]. by left.
  - rewrite (bind_err _ _ _ _ _ E2). cbn [fst snd]. split; [done|].
    split; [exact (frame_trans _ _ _ Hf1 (set_live_frame st1 l))|].
    split; [rewrite budget_set_live; lia|]. right. exists e. split; [done|]. by rewrite Ha2.
Qed.

(** The loop inside the lock's transaction, from a clean version: it
    ends clean at [target] when every script succeeds, or dirty at the
    version of the migration whose script failed. *)
Lemma run_migrations_spec ms st :
  wf st -> c_txn (db (st_drv st)) <> TNone -> snd (abs st) = false ->
  migrations_ok (migrationsTable (st_drv st)) ms -> (Z.of_nat (2 * length ms) <= budget st)%Z ->
  let r := run_migrations ms st in
  wf (snd r) /\ frame st (snd r) /\
  ((fst r = Ok tt /\ abs (snd r) = (target (fst (abs st)) ms, false)) \/
   (exists m e, In m ms /\ fst r = Err e /\ abs (snd r) = (mversion m, true))).
Proof.
  revert st. induction ms as [|m ms IH]; intros st Hwf Ht Hd Hms Hb r; subst r.
  { cbn [run_migrations ret fst snd target]. split; [done|]. split; [apply frame_refl|].
    left. split; [done|]. destruct (abs st) as [v d]; simpl in Hd |- *. by rewrite Hd. }
  inversion Hms as [|? ? [Hv Hu] Hms']; subst. cbn [run_migrations].
  rewrite (bind_ok _ _ _ _ _ (Version_spec st Hwf)).
  destruct (abs st) as [v d] eqn:Ha; simpl in Hd; subst d. cbn [fst snd].
  cbn [length] in Hb. destruct (v <? mversion m)%Z eqn:Hlt.
  - destruct (apply_migration_spec m st Hwf Ht Hv Hu ltac:(lia))
      as (H1 & Hf1 & Hb1 & [[E1 Ha1] | (e & E1 & Ha1)]);
      destruct (apply_migration m st) as [r1 st1] eqn:E; simpl in *; subst r1.
    + rewrite (bind_ok _ _ _ _ _ E). pose proof Hf1 as (Ht1 & _ & _ & Hn1).
      destruct (IH st1 H1 ltac:(by rewrite Ht1) ltac:(by rewrite Ha1)
                   ltac:(rewrite Hn1; exact Hms') ltac:(lia)) as (H2 & Hf2 & Hr).
      split; [done|]. split; [exact (frame_trans _ _ _ Hf1 Hf2)|].
      rewrite Ha1 in Hr. rewrite Hlt. destruct Hr as [Hr | (m' & e & Hin & Hr)]; [by left|].
      right. exists m', e. split; [by right|done].
    + rewrite (bind_err _ _ _ _ _ E). split; [done|]. split; [done|].
      right. exists m, e. split; [by left|done].
  - destruct (IH st Hwf Ht ltac:(by rewrite Ha) Hms' ltac:(lia)) as (H2 & Hf2 & Hr).
    split; [done|]. split; [done|]. rewrite Ha in Hr. cbn [target fst] in Hr |- *. rewrite Hlt.
    destruct Hr as [Hr | (m' & e & Hin & Hr)]; [by left|].
    right. exists m', e. split; [by right|done].
Qed.

(** ** The flag through the loop *)

Lemma run_migrations_locked b ms : preserves (locked_is b) (run_migrations ms).
Proof.
  induction ms as [|m ms IH]; [apply preserves_ret|]. cbn [run_migrations].
  apply preserves_bind; [apply Version_locked|]. intros [v d].
  destruct d; cbn [fst snd]; [apply preserves_throw|]. destruct (v <? mversion m)%Z; [|exact IH].
  apply preserves_bind; [|intros _; exact IH]. unfold apply_migration.
  apply preserves_bind; [apply SetVersion_locked|]. intros _.
  apply preserves_bind; [|intros _; apply SetVersion_locked].
  destruct (mbody m); [apply exec_locked|apply preserves_throw].
Qed.

Lemma unlock_after_locked b r : preserves (locked_is b) (unlock_after r).
Proof.
  intros st Hst. unfold unlock_after, Unlock. destruct (negb _); [done|]. unfold bind.
  pose proof (exec_locked b "COMMIT" [] st Hst) as H.
  by destruct (exec "COMMIT" [] st) as [[] st'].
Qed.

(** Committing a working copy equal to the committed contents leaves
    the file system as it was. *)
Lemma commit_txn_same_fs e :
  file_present e -> c_live (e_conn e) = committed e -> e_fs (commit_txn e) = e_fs e.
Proof.
  destruct e as [fs [[p|] pr l t sps x cl]]; unfold file_present, committed; simpl; [|done].
  intros Hp ->. rewrite decide_True by done.
  apply elem_of_dom in Hp as [cat Hc]. rewrite Hc. simpl. by apply insert_id.
Qed.

(** ** Theorems *)

(** C23: Outcome of a migration run.  On a usable, unlocked driver in
    autocommit mode whose file records a clean version [v], with
    migrations of non-negative versions whose scripts leave the
    bookkeeping table alone and a counter budget of two savepoints per
    migration: nothing reaches the file before the release (a crash
    before [Unlock] loses the whole run), and after [Up] either every
    migration above [v] succeeded and the file records the last version,
    clean, or [Up] returned an error and the file records a migration's
    version, dirty: the signal the specification asks for. *)
Theorem Up_outcome st ms :
  wf st -> locked (st_drv st) = false -> c_txn (db (st_drv st)) = TNone ->
  snd (durable st) = false -> migrations_ok (migrationsTable (st_drv st)) ms ->
  (Z.of_nat (2 * length ms) <= budget st)%Z ->
  st_fs (snd (run_migrations ms (snd (Lock st)))) = st_fs st /\
  ((fst (Up ms st) = Ok tt /\ durable (snd (Up ms st)) = (target (fst (durable st)) ms, false)) \/
   (exists m e, In m ms /\ fst (Up ms st) = Err e /\ durable (snd (Up ms st)) = (mversion m, true))).
Proof.
  intros Hwf Hunl Hnone Hd Hms Hb. rewrite (durable_abs st Hnone) in *.
  unfold Up. rewrite (Lock_spec st (wf_open _ Hwf) Hunl Hnone). cbn [snd].
  pose proof (locked_state_wf st Hwf) as H1.
  pose proof (abs_locked_state st Hnone) as Ha1.
  assert (Ht1 : c_txn (db (st_drv (locked_state st))) <> TNone) by discriminate.
  destruct (run_migrations_spec ms (locked_state st) H1 Ht1 ltac:(by rewrite Ha1) Hms Hb)
    as (H2 & (Ht2 & Hfs2 & Hl2 & _) & Hr).
  destruct (run_migrations ms (locked_state st)) as [r st2]. cbn [fst snd] in *.
  split; [exact Hfs2|]. unfold unlock_after.
  rewrite (Unlock_spec st2 (wf_open _ H2) Hl2 ltac:(by rewrite Ht2)). cbn [fst snd].
  rewrite (durable_commit st2 H2 ltac:(by rewrite Ht2)). rewrite Ha1 in Hr.
  destruct Hr as [[-> Ha] | (m & e & Hin & -> & Ha)]; [by left|]. right. by exists m, e.
Qed.

Lemma Up_outcome_witness :
  let ms := [mk_migration 1 (RData "CREATE TABLE users (id bigint not null primary key)");
             mk_migration 2 RFail] in
  wf demo_state /\ locked (st_drv demo_state) = false /\ c_txn (db (st_drv demo_state)) = TNone /\
  snd (durable demo_state) = false /\ migrations_ok (migrationsTable (st_drv demo_state)) ms /\
  (Z.of_nat (2 * length ms) <= budget demo_state)%Z /\
  st_fs (snd (run_migrations ms (snd (Lock demo_state)))) = st_fs demo_state /\
  ((fst (Up ms demo_state) = Ok tt /\
    durable (snd (Up ms demo_state)) = (target (fst (durable demo_state)) ms, false)) \/
   (exists m e, In m ms /\ fst (Up ms demo_state) = Err e /\
                durable (snd (Up ms demo_state)) = (mversion m, true))).
Proof.
  intros ms.
  assert (Hl : locked (st_drv demo_state) = false) by concrete.
  assert (Ht : c_txn (db (st_drv demo_state)) = TNone) by concrete.
  assert (Hd : snd (durable demo_state) = false) by concrete.
  assert (Hms : migrations_ok (migrationsTable (st_drv demo_state)) ms).
  { constructor; [split; [simpl; lia|vm_compute; reflexivity]|].
    constructor; [split; [simpl; lia|reflexivity]|]. constructor. }
  assert (Hb : (Z.of_nat (2 * length ms) <= budget demo_state)%Z) by concrete.
  do 6 (split; [assumption || exact demo_state_wf|]).
  exact (Up_outcome demo_state ms demo_state_wf Hl Ht Hd Hms Hb).
Defined.

(** C24: A dirty version blocks the run.  When the file records a dirty
    version [v], [Up] of any non-empty list of migrations returns
    [ErrDirty v] without running a script or writing a version; the
    release commits nothing new, so the file system is unchanged and the
    dirty version stays for the operator. *)
Theorem Up_dirty st ms v :
  wf st -> locked (st_drv st) = false -> c_txn (db (st_drv st)) = TNone ->
  durable st = (v, true) -> ms <> [] ->
  fst (Up ms st) = Err (ErrDirty v) /\ durable (snd (Up ms st)) = (v, true) /\
  st_fs (snd (Up ms st)) = st_fs st.
Proof.
  intros Hwf Hunl Hnone Hd Hms. rewrite (durable_abs st Hnone) in Hd.
  destruct ms as [|m ms]; [done|].
  unfold Up. rewrite (Lock_spec st (wf_open _ Hwf) Hunl Hnone). cbn [run_migrations].
  pose proof (locked_state_wf st Hwf) as H1.
  rewrite (bind_ok _ _ _ _ _ (Version_spec _ H1)), (abs_locked_state st Hnone), Hd. cbn.
  unfold unlock_after. rewrite (Unlock_spec (locked_state st) (wf_open _ H1) eq_refl ltac:(discriminate)).
  cbn [fst snd]. split; [done|].
  rewrite (durable_commit _ H1 ltac:(discriminate)), (abs_locked_state st Hnone). split; [done|].
  apply (commit_txn_same_fs (env_of (locked_state st))).
  - exact (store_ok_file_present _ _ (wf_store _ H1)).
  - exact (eq_sym (committed_locked_state st)).
Qed.

Lemma Up_dirty_witness :
  let st := snd (SetVersion 7 true demo_state) in
  let ms := [mk_migration 8 RFail] in
  wf st /\ locked (st_drv st) = false /\ c_txn (db (st_drv st)) = TNone /\
  durable st = (7%Z, true) /\ ms <> [] /\
  fst (Up ms st) = Err (ErrDirty 7) /\ durable (snd (Up ms st)) = (7%Z, true) /\
  st_fs (snd (Up ms st)) = st_fs st.
Proof.
  intros st ms.
  assert (Hwf : wf st) by exact (SetVersion_wf demo_state 7 true demo_state_wf demo_state_txid).
  assert (Hl : locked (st_drv st) = false) by concrete.
  assert (Ht : c_txn (db (st_drv st)) = TNone) by concrete.
  assert (Hd : durable st = (7%Z, true)) by concrete.
  assert (Hms : ms <> []) by discriminate.
  do 5 (split; [assumption|]).
  exact (Up_dirty st ms 7 Hwf Hl Ht Hd Hms).
Defined.

(** C25: A driver serves one run.  Once [Up] has acquired the lock, on
    every outcome of the run, a second [Up] on the same driver fails with
    [ErrLocked] and changes nothing: [Unlock] never clears the flag, so
    the orchestrator cannot reuse the driver (the specification's lock
    returns to [Unlocked] after the release). *)
Theorem Up_then_Up_locked st ms ms' :
  fst (Lock st) = Ok tt -> Up ms' (snd (Up ms st)) = (Err ErrLocked, snd (Up ms st)).
Proof.
  intros HL. assert (Hl : locked_is true (snd (Up ms st))).
  { pose proof (Lock_ok_locked st HL) as H1. unfold Up.
    destruct (Lock st) as [[] st1]; [|discriminate]. cbn [snd] in H1.
    pose proof (run_migrations_locked true ms st1 H1) as H2.
    destruct (run_migrations ms st1) as [r st2]. exact (unlock_after_locked true r st2 H2). }
  unfold Up at 1. by rewrite (Lock_locked _ Hl).
Qed.

Lemma Up_then_Up_locked_witness :
  let ms := [mk_migration 1 (RData "CREATE TABLE users (id bigint not null primary key)")] in
  fst (Lock demo_state) = Ok tt /\
  Up ms (snd (Up ms demo_state)) = (Err ErrLocked, snd (Up ms demo_state)).
Proof.
  intros ms. assert (HL : fst (Lock demo_state) = Ok tt) by concrete.
  split; [exact HL|]. exact (Up_then_Up_locked demo_state ms ms HL).
Defined.
